(** * Invoice field extraction: a shallow embedding of the two parsers

    The development follows [gmail_pdfs/extract_food_delivery_data.py]
    ([extract_order_data], [process_all_pdfs], the rows of
    [export_to_csv], the total spend, the average, the dictionaries and
    the extreme orders of [analyze_data], and the batch sort of the
    script's main block) and
    [parse_invoices.py] ([extract_invoice_data] and the rows of
    [parse_invoices_to_sheet]).

    Python text is a list of code points.  The regular expressions of
    the source are kept as pattern strings and compiled by [re_compile]
    to a small syntax tree that a backtracking matcher runs with the
    priorities of Python's [re]: alternatives left to right, greedy
    repetition longest first, lazy repetition shortest first.

    Character tables: white space is CPython's table for [str]; digits,
    word characters and case mapping are given on the ASCII range, every
    other code point being an ordinary symbol.  Month and AM/PM names are
    those of the C locale, and [strftime] writes the year as glibc does,
    without leading zeros. *)

From Stdlib Require Import Ascii String.
From Stdlib Require Import List ZArith NArith Bool Lia.
From Stdlib Require Import Permutation Sorted SpecFloat.
Import ListNotations.

Set Implicit Arguments.

(* ===================================================================== *)
(** ** Text *)
(* ===================================================================== *)

Definition pystr := list N.

(** Decoding of the UTF-8 bytes of a string literal into code points. *)
Fixpoint utf8_decode (bs : list N) : pystr :=
  match bs with
  | [] => []
  | b :: r =>
      if (b <? 128)%N then b :: utf8_decode r
      else if (b <? 224)%N then
        match r with
        | b1 :: r1 => ((b - 192) * 64 + (b1 - 128))%N :: utf8_decode r1
        | _ => []
        end
      else if (b <? 240)%N then
        match r with
        | b1 :: b2 :: r2 =>
            ((b - 224) * 4096 + (b1 - 128) * 64 + (b2 - 128))%N :: utf8_decode r2
        | _ => []
        end
      else
        match r with
        | b1 :: b2 :: b3 :: r3 =>
            ((b - 240) * 262144 + (b1 - 128) * 4096 + (b2 - 128) * 64 + (b3 - 128))%N
              :: utf8_decode r3
        | _ => []
        end
  end.

Definition u (s : string) : pystr :=
  utf8_decode (map N_of_ascii (list_ascii_of_string s)).

Definition NL : N := 10.
Definition COMMA : N := 44.
Definition RUPEE : N := 8377.

Definition is_digit (c : N) : bool := ((48 <=? c) && (c <=? 57))%N.
Definition is_upper (c : N) : bool := ((65 <=? c) && (c <=? 90))%N.
Definition is_lower (c : N) : bool := ((97 <=? c) && (c <=? 122))%N.

(** [str.isspace] for one character, also the class [\s] of [re]. *)
Definition is_space (c : N) : bool :=
  (((9 <=? c) && (c <=? 13)) || ((28 <=? c) && (c <=? 32))
   || (c =? 133) || (c =? 160) || (c =? 5760)
   || ((8192 <=? c) && (c <=? 8202))
   || (c =? 8232) || (c =? 8233) || (c =? 8239) || (c =? 8287)
   || (c =? 12288))%N.

Definition is_word (c : N) : bool :=
  is_digit c || is_upper c || is_lower c || (c =? 95)%N.

Definition lower_c (c : N) : N := if is_upper c then (c + 32)%N else c.
Definition upper_c (c : N) : N := if is_lower c then (c - 32)%N else c.

Definition lower (s : pystr) : pystr := map lower_c s.

Fixpoint str_eqb (a b : pystr) : bool :=
  match a, b with
  | [], [] => true
  | x :: a', y :: b' => (x =? y)%N && str_eqb a' b'
  | _, _ => false
  end.

(** [a < b] on [str]: lexicographic on code points. *)
Fixpoint str_ltb (a b : pystr) : bool :=
  match a, b with
  | _, [] => false
  | [], _ :: _ => true
  | x :: a', y :: b' =>
      if (x <? y)%N then true
      else if (y <? x)%N then false
      else str_ltb a' b'
  end.

Fixpoint startswith (p s : pystr) : bool :=
  match p, s with
  | [], _ => true
  | x :: p', y :: s' => (x =? y)%N && startswith p' s'
  | _ :: _, [] => false
  end.

(** [p in s] for strings. *)
Fixpoint contains (p s : pystr) : bool :=
  startswith p s ||
  match s with
  | [] => false
  | _ :: t => contains p t
  end.

Fixpoint lstrip (s : pystr) : pystr :=
  match s with
  | c :: t => if is_space c then lstrip t else s
  | [] => []
  end.

Definition rstrip (s : pystr) : pystr := rev (lstrip (rev s)).
Definition strip (s : pystr) : pystr := rstrip (lstrip s).

(** [s.split(sep)] for a one-character separator. *)
Fixpoint split_on (sep : N) (s : pystr) : list pystr :=
  match s with
  | [] => [[]]
  | c :: t =>
      if (c =? sep)%N then [] :: split_on sep t
      else
        match split_on sep t with
        | h :: r => (c :: h) :: r
        | [] => [[c]]
        end
  end.

(** [s.replace(',', '')]. *)
Definition remove_commas (s : pystr) : pystr :=
  filter (fun c => negb (c =? COMMA)%N) s.

(** An opening parenthesis with a closing one somewhere after it. *)
Fixpoint has_parenthetical (s : pystr) : bool :=
  match s with
  | [] => false
  | c :: t => ((c =? 40)%N && existsb (N.eqb 41) t) || has_parenthetical t
  end.

(** The string begins, or ends, with a white-space character. *)
Definition starts_blank (s : pystr) : bool :=
  match s with
  | c :: _ => is_space c
  | [] => false
  end.

Definition ends_blank (s : pystr) : bool := starts_blank (rev s).

(** Truth value of a string. *)
Definition nonempty (s : pystr) : bool :=
  match s with [] => false | _ => true end.

(** [sep.join(parts)]. *)
Fixpoint join (sep : pystr) (parts : list pystr) : pystr :=
  match parts with
  | [] => []
  | [p] => p
  | p :: rest => p ++ sep ++ join sep rest
  end.

(* ===================================================================== *)
(** ** Regular expressions *)
(* ===================================================================== *)

Inductive citem : Type :=
| CChar (c : N)
| CRange (lo hi : N)
| CDigit
| CSpace
| CWord.

Inductive cset : Type :=
| CIn (l : list citem)
| CNot (l : list citem)
| CAny.

Inductive regex : Type :=
| REps
| RBol
| RSet (s : cset)
| RCat (r1 r2 : regex)
| RAlt (r1 r2 : regex)
| RRep (greedy : bool) (lo : nat) (hi : option nat) (s : cset)
| RGrp (n : nat) (r : regex).

Definition RFail : regex := RSet (CIn []).

Definition citem_has (i : citem) (c : N) : bool :=
  match i with
  | CChar x => (c =? x)%N
  | CRange lo hi => ((lo <=? c) && (c <=? hi))%N
  | CDigit => is_digit c
  | CSpace => is_space c
  | CWord => is_word c
  end.

Record flags : Type := Flags { IGNORECASE : bool; MULTILINE : bool }.

Definition no_flags : flags := Flags false false.
Definition flag_I : flags := Flags true false.
Definition flag_IM : flags := Flags true true.

Definition items_have (f : flags) (l : list citem) (c : N) : bool :=
  existsb (fun i =>
             citem_has i c
             || (IGNORECASE f && (citem_has i (lower_c c) || citem_has i (upper_c c))))
          l.

Definition cset_has (f : flags) (s : cset) (c : N) : bool :=
  match s with
  | CIn l => items_have f l c
  | CNot l => negb (items_have f l c)
  | CAny => negb (c =? NL)%N
  end.

(** The matcher's position: the character before it, the text after it,
    and the groups closed so far. *)
Record mstate : Type := MState {
  m_prev : option N;
  m_rest : pystr;
  m_caps : list (nat * pystr)
}.

Definition at_bol (f : flags) (st : mstate) : bool :=
  match m_prev st with
  | None => true
  | Some c => MULTILINE f && (c =? NL)%N
  end.

Definition hi_open (hi : option nat) : bool :=
  match hi with
  | Some 0 => false
  | _ => true
  end.

Definition hi_pred (hi : option nat) : option nat :=
  match hi with
  | Some n => Some (pred n)
  | None => None
  end.

Section Matcher.
Variable f : flags.

(** Repetition of a one-character class, between [lo] and [hi] times. *)
Fixpoint rep (greedy : bool) (s : cset) (lo : nat) (hi : option nat)
         (prev : option N) (inp : pystr)
         (k : option N -> pystr -> option mstate) : option mstate :=
  let stop := match lo with 0 => k prev inp | S _ => None end in
  let more :=
    match inp with
    | c :: t =>
        if hi_open hi && cset_has f s c
        then rep greedy s (pred lo) (hi_pred hi) (Some c) t k
        else None
    | [] => None
    end in
  if greedy
  then match more with Some r => Some r | None => stop end
  else match stop with Some r => Some r | None => more end.

Definition taken (before after : pystr) : pystr :=
  firstn (length before - length after) before.

Fixpoint run (r : regex) (st : mstate) (k : mstate -> option mstate)
  : option mstate :=
  match r with
  | REps => k st
  | RBol => if at_bol f st then k st else None
  | RSet s =>
      match m_rest st with
      | c :: t =>
          if cset_has f s c then k (MState (Some c) t (m_caps st)) else None
      | [] => None
      end
  | RCat a b => run a st (fun st' => run b st' k)
  | RAlt a b =>
      match run a st k with
      | Some x => Some x
      | None => run b st k
      end
  | RRep g lo hi s =>
      rep g s lo hi (m_prev st) (m_rest st)
          (fun p t => k (MState p t (m_caps st)))
  | RGrp n a =>
      run a st
          (fun st' =>
             k (MState (m_prev st') (m_rest st')
                       ((n, taken (m_rest st) (m_rest st')) :: m_caps st')))
  end.

(** A match: where it began, and the matcher's final position. *)
Record rmatch : Type := RMatch { m_from : pystr; m_end : mstate }.

Definition match_at (r : regex) (prev : option N) (s : pystr) : option rmatch :=
  match run r (MState prev s []) Some with
  | Some e => Some (RMatch s e)
  | None => None
  end.

(** [re.match(r, s)]. *)
Definition re_match (r : regex) (s : pystr) : option rmatch :=
  match_at r None s.

Fixpoint search_from (r : regex) (prev : option N) (s : pystr) : option rmatch :=
  match match_at r prev s with
  | Some m => Some m
  | None =>
      match s with
      | [] => None
      | c :: t => search_from r (Some c) t
      end
  end.

(** [re.search(r, s)]. *)
Definition re_search (r : regex) (s : pystr) : option rmatch :=
  search_from r None s.

(** [re.sub(r, '', s)]: every match, leftmost first, is deleted.
    [skip] counts the characters of the current match still to drop. *)
Fixpoint sub_del (r : regex) (prev : option N) (s : pystr) (skip : nat) : pystr :=
  match s with
  | [] => []
  | c :: t =>
      match skip with
      | S n => sub_del r (Some c) t n
      | 0 =>
          match match_at r prev s with
          | Some m =>
              match length s - length (m_rest (m_end m)) with
              | S n => sub_del r (Some c) t n
              | 0 => c :: sub_del r (Some c) t 0
              end
          | None => c :: sub_del r (Some c) t 0
          end
      end
  end.

Definition re_sub_del (r : regex) (s : pystr) : pystr := sub_del r None s 0.
End Matcher.

(** The least number of characters an expression takes. *)
Fixpoint min_len (r : regex) : nat :=
  match r with
  | REps | RBol => 0
  | RSet _ => 1
  | RCat a b => min_len a + min_len b
  | RAlt a b => Nat.min (min_len a) (min_len b)
  | RRep _ lo _ _ => lo
  | RGrp _ a => min_len a
  end.

(** The last factor of a concatenation. *)
Fixpoint tail_of (r : regex) : regex :=
  match r with
  | RCat _ b => tail_of b
  | _ => r
  end.

(** A repetition bounded by [hi] may take [n] characters. *)
Definition hi_allows (hi : option nat) (n : nat) : Prop :=
  match hi with
  | Some h => n <= h
  | None => True
  end.

(** The words of an expression, whatever stands around them: what the
    expression can take between the place where it starts and the place
    where it hands over to what follows. *)
Fixpoint spans (f : flags) (r : regex) (w : pystr) : Prop :=
  match r with
  | REps | RBol => w = []
  | RSet s => exists c, w = [c] /\ cset_has f s c = true
  | RCat a b => exists w1 w2, w = w1 ++ w2 /\ spans f a w1 /\ spans f b w2
  | RAlt a b => spans f a w \/ spans f b w
  | RRep _ lo hi s =>
      forallb (cset_has f s) w = true /\ lo <= List.length w /\ hi_allows hi (List.length w)
  | RGrp _ a => spans f a w
  end.

(** A word of the expression together with the groups it closes, the
    group closed last standing first. *)
Fixpoint parses (f : flags) (r : regex) (w : pystr) (caps : list (nat * pystr)) : Prop :=
  match r with
  | REps | RBol => w = [] /\ caps = []
  | RSet s => (exists c, w = [c] /\ cset_has f s c = true) /\ caps = []
  | RCat a b =>
      exists w1 w2 c1 c2,
        w = w1 ++ w2 /\ caps = c2 ++ c1 /\ parses f a w1 c1 /\ parses f b w2 c2
  | RAlt a b => parses f a w caps \/ parses f b w caps
  | RRep _ lo hi s =>
      (forallb (cset_has f s) w = true /\ lo <= List.length w
       /\ hi_allows hi (List.length w))
      /\ caps = []
  | RGrp n a => exists c, parses f a w c /\ caps = (n, w) :: c
  end.

(** The numbers of the groups of an expression. *)
Fixpoint group_numbers (r : regex) : list nat :=
  match r with
  | RCat a b | RAlt a b => group_numbers a ++ group_numbers b
  | RGrp n a => n :: group_numbers a
  | _ => []
  end.

(** Every way the expression can take a beginning of the text, the way
    the matcher tries first standing first: the matcher with the
    successes laid out in a list. *)
Fixpoint rep_all (f : flags) (greedy : bool) (s : cset) (lo : nat) (hi : option nat)
         (prev : option N) (inp : pystr) : list (option N * pystr) :=
  let stop := match lo with 0 => [(prev, inp)] | S _ => [] end in
  let more :=
    match inp with
    | c :: t =>
        if hi_open hi && cset_has f s c
        then rep_all f greedy s (pred lo) (hi_pred hi) (Some c) t
        else []
    | [] => []
    end in
  if greedy then more ++ stop else stop ++ more.

Fixpoint all_ways (f : flags) (r : regex) (st : mstate) : list mstate :=
  match r with
  | REps => [st]
  | RBol => if at_bol f st then [st] else []
  | RSet s =>
      match m_rest st with
      | c :: t => if cset_has f s c then [MState (Some c) t (m_caps st)] else []
      | [] => []
      end
  | RCat a b => flat_map (all_ways f b) (all_ways f a st)
  | RAlt a b => all_ways f a st ++ all_ways f b st
  | RRep g lo hi s =>
      map (fun pt => MState (fst pt) (snd pt) (m_caps st))
          (rep_all f g s lo hi (m_prev st) (m_rest st))
  | RGrp n a =>
      map (fun st' => MState (m_prev st') (m_rest st')
                             ((n, taken (m_rest st) (m_rest st')) :: m_caps st'))
          (all_ways f a st)
  end.

(** The first element of a list on which [k] succeeds. *)
Fixpoint first_some (k : mstate -> option mstate) (l : list mstate) : option mstate :=
  match l with
  | [] => None
  | x :: t =>
      match k x with
      | Some r => Some r
      | None => first_some k t
      end
  end.

Fixpoint assoc (n : nat) (l : list (nat * pystr)) : option pystr :=
  match l with
  | [] => None
  | (i, v) :: t => if Nat.eqb i n then Some v else assoc n t
  end.

(** [m.group(n)] for a group that took part in the match. *)
Definition group (n : nat) (m : rmatch) : pystr :=
  match assoc n (m_caps (m_end m)) with
  | Some v => v
  | None => []
  end.

(** [m.group(0)]. *)
Definition group0 (m : rmatch) : pystr :=
  taken (m_from m) (m_rest (m_end m)).

(* ===================================================================== *)
(** ** Pattern strings *)
(* ===================================================================== *)

(** The pattern syntax the two scripts use: literals, escapes, classes,
    [^], [.], groups (numbered, named or non-capturing), alternation, and
    the quantifiers [*], [+], [?], [{n}], [{m,n}] (greedy or lazy) on a
    one-character atom. *)

Definition chr (s : string) : N :=
  match u s with
  | c :: _ => c
  | [] => 0%N
  end.

Definition escape_item (c : N) : citem :=
  if (c =? chr "d")%N then CDigit
  else if (c =? chr "s")%N then CSpace
  else if (c =? chr "w")%N then CWord
  else if (c =? chr "n")%N then CChar NL
  else CChar c.

(** The items of a class, up to its closing bracket. *)
Fixpoint parse_class (s : pystr) (acc : list citem) : option (list citem * pystr) :=
  match s with
  | [] => None
  | c :: t =>
      if (c =? chr "]")%N then Some (rev acc, t)
      else if (c =? chr "\")%N then
        match t with
        | e :: t' => parse_class t' (escape_item e :: acc)
        | [] => None
        end
      else
        match t with
        | d :: hi :: t' =>
            if ((d =? chr "-") && negb (hi =? chr "]"))%N
            then parse_class t' (CRange c hi :: acc)
            else parse_class t (CChar c :: acc)
        | _ => parse_class t (CChar c :: acc)
        end
  end.

Fixpoint parse_nat (s : pystr) (acc : nat) : nat * pystr :=
  match s with
  | c :: t =>
      if is_digit c then parse_nat t (10 * acc + N.to_nat (c - 48)) else (acc, s)
  | [] => (acc, s)
  end.

Definition parse_lazy (s : pystr) : bool * pystr :=
  match s with
  | c :: t => if (c =? chr "?")%N then (false, t) else (true, s)
  | [] => (true, s)
  end.

(** The quantifier, if any, after a one-character atom. *)
Definition parse_quant (cs : cset) (s : pystr) : option (regex * pystr) :=
  match s with
  | c :: t =>
      if (c =? chr "*")%N then
        let '(g, t') := parse_lazy t in Some (RRep g 0 None cs, t')
      else if (c =? chr "+")%N then
        let '(g, t') := parse_lazy t in Some (RRep g 1 None cs, t')
      else if (c =? chr "?")%N then
        let '(g, t') := parse_lazy t in Some (RRep g 0 (Some 1) cs, t')
      else if (c =? chr "{")%N then
        let '(lo, t1) := parse_nat t 0 in
        match t1 with
        | d :: t2 =>
            if (d =? chr "}")%N then
              let '(g, t') := parse_lazy t2 in Some (RRep g lo (Some lo) cs, t')
            else if (d =? chr ",")%N then
              let '(hi, t3) := parse_nat t2 0 in
              match t3 with
              | e :: t4 =>
                  if (e =? chr "}")%N then
                    let '(g, t') := parse_lazy t4 in Some (RRep g lo (Some hi) cs, t')
                  else None
              | [] => None
              end
            else None
        | [] => None
        end
      else Some (RSet cs, s)
  | [] => Some (RSet cs, s)
  end.

Definition is_quant (s : pystr) : bool :=
  match s with
  | c :: _ => ((c =? chr "*") || (c =? chr "+") || (c =? chr "?") || (c =? chr "{"))%N
  | [] => false
  end.

Definition cat (a b : regex) : regex :=
  match b with
  | REps => a
  | _ => RCat a b
  end.

Fixpoint skip_name (s : pystr) : option pystr :=
  match s with
  | c :: t => if (c =? chr ">")%N then Some t else skip_name t
  | [] => None
  end.

(** What opens a group: its number when it captures, and the text after
    the opening. *)
Definition group_open (n : nat) (s : pystr) : option (option nat * pystr) :=
  if startswith (u "?:") s then Some (None, skipn 2 s)
  else if startswith (u "?P<") s then
    match skip_name (skipn 3 s) with
    | Some t => Some (Some n, t)
    | None => None
    end
  else if startswith (u "?") s then None
  else Some (Some n, s).

Definition close_paren (s : pystr) : option pystr :=
  match s with
  | c :: t => if (c =? chr ")")%N then Some t else None
  | [] => None
  end.

(** Alternation (when [top]) or one branch of it; [n] is the number of
    the next capturing group. *)
Fixpoint parse_re (fuel : nat) (top : bool) (n : nat) (s : pystr)
  : option (regex * nat * pystr) :=
  match fuel with
  | 0 => None
  | S fuel' =>
      if top then
        match parse_re fuel' false n s with
        | Some (a, n1, s1) =>
            match s1 with
            | c :: t =>
                if (c =? chr "|")%N then
                  match parse_re fuel' true n1 t with
                  | Some (b, n2, s2) => Some (RAlt a b, n2, s2)
                  | None => None
                  end
                else Some (a, n1, s1)
            | [] => Some (a, n1, s1)
            end
        | None => None
        end
      else
        match s with
        | [] => Some (REps, n, s)
        | c :: t =>
            if ((c =? chr "|") || (c =? chr ")"))%N then Some (REps, n, s)
            else
              let atom :=
                if (c =? chr "(")%N then
                  match group_open n t with
                  | Some (gn, t0) =>
                      match parse_re fuel' true (match gn with Some _ => S n | None => n end) t0 with
                      | Some (a, n1, s1) =>
                          match close_paren s1 with
                          | Some s2 =>
                              if is_quant s2 then None
                              else Some (match gn with Some i => RGrp i a | None => a end, n1, s2)
                          | None => None
                          end
                      | None => None
                      end
                  | None => None
                  end
                else if (c =? chr "^")%N then
                  if is_quant t then None else Some (RBol, n, t)
                else if (c =? chr "[")%N then
                  let '(neg, t0) :=
                    match t with
                    | x :: t' => if (x =? chr "^")%N then (true, t') else (false, t)
                    | [] => (false, t)
                    end in
                  match parse_class t0 [] with
                  | Some (l, t1) =>
                      match parse_quant (if neg then CNot l else CIn l) t1 with
                      | Some (a, t2) => Some (a, n, t2)
                      | None => None
                      end
                  | None => None
                  end
                else if (c =? chr "\")%N then
                  match t with
                  | e :: t1 =>
                      match parse_quant (CIn [escape_item e]) t1 with
                      | Some (a, t2) => Some (a, n, t2)
                      | None => None
                      end
                  | [] => None
                  end
                else
                  match parse_quant (if (c =? chr ".")%N then CAny else CIn [CChar c]) t with
                  | Some (a, t2) => Some (a, n, t2)
                  | None => None
                  end in
              match atom with
              | Some (a, n1, s1) =>
                  match parse_re fuel' false n1 s1 with
                  | Some (b, n2, s2) => Some (cat a b, n2, s2)
                  | None => None
                  end
              | None => None
              end
        end
  end.

(** [re.compile(pattern)]; a pattern outside the supported syntax
    compiles to the expression that matches nothing. *)
Definition compile_text (p : pystr) : regex :=
  match parse_re (2 * List.length p + 2) true 1 p with
  | Some (r, _, []) => r
  | _ => RFail
  end.

Definition re_compile (pattern : string) : regex := compile_text (u pattern).

(* ===================================================================== *)
(** ** Floating point *)
(* ===================================================================== *)

(** Python's [float] is IEEE 754 binary64. *)
Definition float := spec_float.
Definition prec : Z := 53.
Definition emax : Z := 1024.

Definition float_of_Z (z : Z) : float := binary_normalize prec emax z 0 false.

(** The decimal [m / 10^k] rounded to the nearest float, ties to even. *)
Definition float_of_decimal (m : Z) (k : nat) : float :=
  match m with
  | Zpos p =>
      SFdiv prec emax (S754_finite false p 0)
            (S754_finite false (Pos.pow 10 (Pos.of_nat k)) 0)
  | _ => S754_zero false
  end.

Definition float_of_digits (m : Z) (k : nat) : float :=
  match k with
  | 0 => float_of_Z m
  | S _ => float_of_decimal m k
  end.

(** A run of decimal digits: the number read so far, how many digits
    were read, and the text left. *)
Fixpoint read_digits (s : pystr) (acc : Z) (cnt : nat) : Z * nat * pystr :=
  match s with
  | c :: t =>
      if is_digit c then read_digits t (10 * acc + Z.of_N (c - 48)) (S cnt)
      else (acc, cnt, s)
  | [] => (acc, cnt, s)
  end.

(** [float(s)] on the texts the amount groups capture (digits with at
    most one point); [None] is [ValueError]. *)
Definition py_float (s : pystr) : option float :=
  let '(ip, ni, r1) := read_digits s 0 0 in
  match r1 with
  | [] => if Nat.eqb ni 0 then None else Some (float_of_Z ip)
  | c :: r2 =>
      if (c =? chr ".")%N then
        let '(fp, nf, r3) := read_digits r2 ip 0 in
        match r3 with
        | [] => if Nat.eqb (ni + nf) 0 then None else Some (float_of_digits fp nf)
        | _ :: _ => None
        end
      else None
  end.

(** [x > y] and the truth value of a float. *)
Definition float_gtb (x y : float) : bool := SFltb y x.
Definition float_truthy (x : float) : bool := negb (SFeqb x (S754_zero false)).

(** [x + y] on floats. *)
Definition float_add (x y : float) : float := SFadd prec emax x y.

(** [x / y] on floats. *)
Definition float_div (x y : float) : float := SFdiv prec emax x y.

(** The exact value of a finite float, as a pair [(m, e)] that stands
    for the number [m * 2^e]. *)
Definition float_exact (x : float) : option (Z * Z) :=
  match x with
  | S754_zero _ => Some (0, 0)%Z
  | S754_finite s m e => Some (if s then Z.neg m else Z.pos m, e)
  | _ => None
  end.

(** Sum and equality of such numbers, with no rounding. *)
Definition dyadic_add (a b : Z * Z) : Z * Z :=
  let e := Z.min (snd a) (snd b) in
  (fst a * 2 ^ (snd a - e) + fst b * 2 ^ (snd b - e), e)%Z.

Definition dyadic_eqb (a b : Z * Z) : bool :=
  let e := Z.min (snd a) (snd b) in
  (fst a * 2 ^ (snd a - e) =? fst b * 2 ^ (snd b - e))%Z.

(** The exact sum of finite floats. *)
Fixpoint exact_sum (l : list float) : option (Z * Z) :=
  match l with
  | [] => Some (0, 0)%Z
  | x :: t =>
      match float_exact x, exact_sum t with
      | Some v, Some s => Some (dyadic_add v s)
      | _, _ => None
      end
  end.

(** The float [x] is the number [v], exactly. *)
Definition float_is (x : float) (v : Z * Z) : bool :=
  match float_exact x with
  | Some w => dyadic_eqb w v
  | None => false
  end.

Definition twenty : float := float_of_Z 20.

(* ===================================================================== *)
(** ** Dates: [datetime.strptime] and [strftime] *)
(* ===================================================================== *)

(** The expression [_strptime] builds for one directive. *)
Definition directive (c : N) : pystr :=
  if (c =? chr "d")%N then u "(?P<d>3[0-1]|[1-2]\d|0[1-9]|[1-9]| [1-9])"
  else if (c =? chr "B")%N then
    u "(?P<B>september|february|november|december|january|october|august|march|april|june|july|may)"
  else if (c =? chr "b")%N then
    u "(?P<b>jan|feb|mar|apr|may|jun|jul|aug|sep|oct|nov|dec)"
  else if (c =? chr "Y")%N then u "(?P<Y>\d\d\d\d)"
  else if (c =? chr "I")%N then u "(?P<I>1[0-2]|0[1-9]|[1-9])"
  else if (c =? chr "M")%N then u "(?P<M>[0-5]\d|\d)"
  else if (c =? chr "p")%N then u "(?P<p>am|pm)"
  else [].

(** The expression for a whole format: each run of white space becomes
    [\s+], a directive its expression, anything else stands for itself.
    [in_ws] tells that the run of white space was already written. *)
Fixpoint time_pattern (in_ws : bool) (fmt : pystr) : pystr :=
  match fmt with
  | [] => []
  | c :: t =>
      if is_space c then
        (if in_ws then [] else u "\s+") ++ time_pattern true t
      else if (c =? chr "%")%N then
        match t with
        | d :: t' => directive d ++ time_pattern false t'
        | [] => []
        end
      else c :: time_pattern false t
  end.

Definition full_months : list pystr :=
  map u ["january"; "february"; "march"; "april"; "may"; "june"; "july";
         "august"; "september"; "october"; "november"; "december"]%string.

Definition short_months : list pystr :=
  map u ["jan"; "feb"; "mar"; "apr"; "may"; "jun"; "jul"; "aug"; "sep";
         "oct"; "nov"; "dec"]%string.

Fixpoint index_of (x : pystr) (l : list pystr) (i : Z) : option Z :=
  match l with
  | [] => None
  | y :: t => if str_eqb x y then Some i else index_of x t (i + 1)
  end.

(** [int(s)] on an optional blank followed by digits. *)
Definition py_int (s : pystr) : Z :=
  let '(v, _, _) := read_digits (lstrip s) 0 0 in v.

Definition is_leap (y : Z) : bool :=
  ((y mod 4 =? 0) && (negb (y mod 100 =? 0) || (y mod 400 =? 0)))%Z.

Definition days_in_month (y m : Z) : Z :=
  if (m =? 2)%Z then (if is_leap y then 29 else 28)%Z
  else if ((m =? 4) || (m =? 6) || (m =? 9) || (m =? 11))%Z then 30%Z
  else 31%Z.

Record date_t : Type := Date { d_year : Z; d_month : Z; d_day : Z }.

(** [a < b] on calendar dates. *)
Definition date_ltb (a b : date_t) : bool :=
  ((d_year a <? d_year b)
   || ((d_year a =? d_year b)
       && ((d_month a <? d_month b)
           || ((d_month a =? d_month b) && (d_day a <? d_day b)))))%Z.

(** The check [datetime] makes on the fields of a date. *)
Definition check_date_fields (y m d : Z) : bool :=
  ((1 <=? y) && (y <=? 9999) && (1 <=? m) && (m <=? 12)
   && (1 <=? d) && (d <=? days_in_month y m))%Z.

(** [datetime.strptime(s, fmt)] for the two formats of the script, whose
    groups are day, month name, year, hour, minute and AM/PM in this
    order; [None] is [ValueError].  The hour and the minute are bounded
    by their expressions, so only the calendar date can be rejected. *)
Definition strptime (months : list pystr) (fmt : string) (s : pystr) : option date_t :=
  match re_match flag_I (compile_text (time_pattern false (u fmt))) s with
  | Some m =>
      match m_rest (m_end m) with
      | [] =>
          match index_of (lower (group 2 m)) months 1 with
          | Some mo =>
              let y := py_int (group 3 m) in
              let d := py_int (group 1 m) in
              if check_date_fields y mo d then Some (Date y mo d) else None
          | None => None
          end
      | _ :: _ => None
      end
  | None => None
  end.

Definition digit_chr (z : Z) : N := (48 + Z.to_N (z mod 10))%N.
Definition pad2 (z : Z) : pystr := [digit_chr (z / 10); digit_chr z].
Definition pad4 (z : Z) : pystr :=
  [digit_chr (z / 1000); digit_chr (z / 100); digit_chr (z / 10); digit_chr z].

(** The form YYYY-MM-DD: ten characters, digits around two hyphens. *)
Definition iso_date_shape (s : pystr) : bool :=
  match s with
  | [y1; y2; y3; y4; h1; m1; m2; h2; d1; d2] =>
      is_digit y1 && is_digit y2 && is_digit y3 && is_digit y4
      && (h1 =? chr "-")%N && is_digit m1 && is_digit m2
      && (h2 =? chr "-")%N && is_digit d1 && is_digit d2
  | _ => false
  end.

(** The directive [%Y] of [strftime], for a year from 1 to 9999.
    CPython before 3.13 hands it to the C library, and glibc writes the
    number as it is, without leading zeros: 999 gives [999].  (The C
    libraries of macOS and Windows, and CPython from 3.13 on, write four
    digits; from the year 1000 on all agree.) *)
Definition year_text (y : Z) : pystr :=
  if (y <? 10)%Z then [digit_chr y]
  else if (y <? 100)%Z then pad2 y
  else if (y <? 1000)%Z then [digit_chr (y / 100); digit_chr (y / 10); digit_chr y]
  else pad4 y.

(** [d.strftime("%Y-%m-%d")]. *)
Definition strftime_Ymd (d : date_t) : pystr :=
  year_text (d_year d) ++ u "-" ++ pad2 (d_month d) ++ u "-" ++ pad2 (d_day d).

(** What is stored for the day [d] of the month [mo] of the year [y]:
    the four digits of the year without the zeros they begin with, the
    month and the day in two digits each, and hyphens between them. *)
Definition stored_as (y mo d : Z) (stored : pystr) : Prop :=
  exists zeros ytext,
    pad4 y = zeros ++ ytext
    /\ Forall (fun c => c = 48%N) zeros
    /\ (forall t, ytext <> 48%N :: t)
    /\ stored = ytext ++ u "-" ++ pad2 mo ++ u "-" ++ pad2 d.

(** *** The expression of a format, part by part *)

Definition group_body (r : regex) : regex :=
  match r with
  | RGrp _ a => a
  | _ => r
  end.

Definition day_alts : regex :=
  Eval vm_compute in group_body (compile_text (directive (chr "d"))).
Definition full_month_alts : regex :=
  Eval vm_compute in group_body (compile_text (directive (chr "B"))).
Definition short_month_alts : regex :=
  Eval vm_compute in group_body (compile_text (directive (chr "b"))).
Definition year_seq : regex :=
  Eval vm_compute in group_body (compile_text (directive (chr "Y"))).
Definition hour_alts : regex :=
  Eval vm_compute in group_body (compile_text (directive (chr "I"))).
Definition minute_alts : regex :=
  Eval vm_compute in group_body (compile_text (directive (chr "M"))).
Definition ampm_alts : regex :=
  Eval vm_compute in group_body (compile_text (directive (chr "p"))).
Definition blanks : regex := Eval vm_compute in re_compile "\s+".

(** The expression of [%d <month> %Y %I:%M %p], for the alternatives
    [months] of the month directive. *)
Definition format_re (months : regex) : regex :=
  RCat (RGrp 1 day_alts)
    (RCat blanks
      (RCat (RGrp 2 months)
        (RCat blanks
          (RCat (RGrp 3 year_seq)
            (RCat blanks
              (RCat (RGrp 4 hour_alts)
                (RCat (RSet (CIn [CChar 58]))
                  (RCat (RGrp 5 minute_alts)
                    (RCat blanks (RGrp 6 ampm_alts)))))))))).

(** *** The order time as the vendor prints it *)

(** The English month names, in full and abbreviated. *)
Definition month_names : list pystr :=
  map u ["January"; "February"; "March"; "April"; "May"; "June"; "July";
         "August"; "September"; "October"; "November"; "December"]%string.

Definition month_abbrs : list pystr :=
  map u ["Jan"; "Feb"; "Mar"; "Apr"; "May"; "Jun"; "Jul"; "Aug"; "Sep";
         "Oct"; "Nov"; "Dec"]%string.

(** A number below 100 written without a leading zero. *)
Definition numeral (z : Z) : pystr :=
  if (z <? 10)%Z then [digit_chr z] else pad2 z.

(** Day, month name, year of four digits, hour, minute of two digits
    and AM or PM, with one blank between them and a colon in the time:
    the order time with its comma taken out. *)
Definition order_time_text (day month : pystr) (y : Z) (hour : pystr) (mi : Z) (pm : bool)
  : pystr :=
  day ++ u " " ++ month ++ u " " ++ pad4 y ++ u " " ++ hour ++ u ":" ++ pad2 mi
      ++ u " " ++ (if pm then u "PM" else u "AM").

(* ===================================================================== *)
(** ** [list.sort] with a string key *)
(* ===================================================================== *)

(** Python's sort is stable and compares keys with [<] alone; inserting
    each element after the elements already placed that are not greater
    gives the same list. *)
Section SortBy.
Variable A : Type.
Variable key : A -> pystr.

Fixpoint insert_by (x : A) (l : list A) : list A :=
  match l with
  | [] => [x]
  | y :: t => if str_ltb (key x) (key y) then x :: l else y :: insert_by x t
  end.

Definition sort_by (l : list A) : list A :=
  fold_left (fun acc x => insert_by x acc) l [].

(** [a] may stand before [b]: the key of [b] is not less than that of [a]. *)
Definition key_le (a b : A) : Prop := str_ltb (key b) (key a) = false.

(** The key of [x] is [k]. *)
Definition same_key (k : pystr) (x : A) : bool := str_eqb (key x) k.

(** The elements with an empty key all stand before the others. *)
Fixpoint empty_keys_first (l : list A) : bool :=
  match l with
  | [] => true
  | x :: t =>
      if nonempty (key x) then forallb (fun y => nonempty (key y)) t
      else empty_keys_first t
  end.
End SortBy.

(* ===================================================================== *)
(** ** PDF documents *)
(* ===================================================================== *)

(** What [pdfplumber] gives for a file: it cannot be opened, or it has
    pages, and [page.extract_text()] is a text or [None] for each. *)
Inductive pdf_file : Type :=
| Unreadable
| Pages (pages : list (option pystr)).

(** [os.path.basename]. *)
Definition basename (path : pystr) : pystr := last (split_on (chr "/") path) [].

(** Truth value of an optional string ([None] and [''] are false). *)
Definition truthy (o : option pystr) : bool :=
  match o with
  | Some s => nonempty s
  | None => false
  end.

(* ===================================================================== *)
(** ** [gmail_pdfs/extract_food_delivery_data.py] *)
(* ===================================================================== *)

(** The placeholder both scripts write for a missing value. *)
Definition NA : pystr := Eval vm_compute in u "N/A".

Module Orders.

Record order_data : Type := OrderData {
  order_id : option pystr;
  date : option pystr;
  restaurant_name : option pystr;
  items : list pystr;
  total : option float;
  file_name : pystr
}.

(** [text += page.extract_text() + "\n"] over the pages; adding [None]
    to a string raises, which the function's handler turns into [None]. *)
Fixpoint read_pages (pages : list (option pystr)) (text : pystr) : option pystr :=
  match pages with
  | [] => Some text
  | Some p :: rest => read_pages rest (text ++ p ++ [NL])
  | None :: _ => None
  end.

Definition order_id_re : regex :=
  Eval vm_compute in re_compile "Order ID:\s*(\d+)".

Definition date_re : regex :=
  Eval vm_compute in re_compile "Order Time:\s*(\d+\s+\w+\s+\d{4}[,\s]+\d+:\d+\s*(?:AM|PM))".

Definition restaurant_re : regex :=
  Eval vm_compute in re_compile "Restaurant Name:\s*([^\n]+)".

Definition item_re : regex :=
  Eval vm_compute in re_compile "^([^₹]+?)\s+(\d+)\s+₹\s*([\d,]+\.?\d*)\s+₹\s*([\d,]+\.?\d*)".

Definition price_re : regex :=
  Eval vm_compute in re_compile "₹\s*([\d,]+\.?\d*)".

Definition total_patterns : list regex :=
  Eval vm_compute in
  map re_compile
      ["^Total\s+₹\s*([\d,]+\.?\d*)";
       "^Total\s*:\s*₹\s*([\d,]+\.?\d*)";
       "^Total\s*₹\s*([\d,]+\.?\d*)"]%string.

Definition find_order_id (text : pystr) : option pystr :=
  match re_search no_flags order_id_re text with
  | Some m => Some (group 1 m)
  | None => None
  end.

(** The two [strptime] attempts on a matched date, then the raw text. *)
Definition normalize_date (date_str : pystr) : pystr :=
  let date_str_clean := remove_commas date_str in
  match strptime full_months "%d %B %Y %I:%M %p" date_str_clean with
  | Some d => strftime_Ymd d
  | None =>
      match strptime short_months "%d %b %Y %I:%M %p" date_str_clean with
      | Some d => strftime_Ymd d
      | None => date_str
      end
  end.

Definition find_date (text : pystr) : option pystr :=
  match re_search no_flags date_re text with
  | Some m => Some (normalize_date (group 1 m))
  | None => None
  end.

Definition find_restaurant (text : pystr) : option pystr :=
  match re_search no_flags restaurant_re text with
  | Some m => Some (strip (group 1 m))
  | None => None
  end.

(** *** The item table *)

Definition is_table_header (line : pystr) : bool :=
  contains (u "Item") line && contains (u "Quantity") line && contains (u "Price") line.

Definition is_price_header (line : pystr) : bool :=
  contains (u "total price") (lower line)
  && (contains (u "quantity") (lower line) || contains (u "unit") (lower line)).

Definition charge_keywords : list pystr :=
  map u ["taxes"; "packaging"; "delivery"; "platform"; "round off"]%string.

Definition is_charge_line (line : pystr) : bool :=
  existsb (fun keyword => contains keyword (lower line)) charge_keywords.

Definition is_terms_line (line : pystr) : bool :=
  contains (u "terms") (lower line) || contains (u "conditions") (lower line).

(** The keywords that close the table, those of both tests. *)
Definition trailer_keywords : list pystr :=
  charge_keywords ++ map u ["terms"; "conditions"]%string.

(** The keywords both item tiers refuse. *)
Definition never_item_keywords : list pystr :=
  map u ["delivery"; "platform"; "packaging"]%string.

(** The text of one table item: name, quantity and line total. *)
Definition item_entry (m : rmatch) : pystr :=
  let item_name := strip (group 1 m) in
  let quantity := group 2 m in
  let total_price := remove_commas (group 4 m) in
  item_name ++ u " (Qty: " ++ quantity ++ u ", ₹" ++ total_price ++ u ")".

(** One turn of the loop over the lines; the state is [items_section]
    and [items_list]. *)
Definition scan_line (st : bool * list pystr) (line : pystr) : bool * list pystr :=
  let '(items_section, items_list) := st in
  if is_table_header line then (true, items_list)
  else if items_section then
    if is_price_header line then (items_section, items_list)
    else if is_charge_line line then (false, items_list)
    else if is_terms_line line then (false, items_list)
    else if items_section && nonempty (strip line) then
      match re_match no_flags item_re line with
      | Some m => (items_section, items_list ++ [item_entry m])
      | None => (items_section, items_list)
      end
    else (items_section, items_list)
  else (items_section, items_list).

Definition scan_table (lines : list pystr) : bool * list pystr :=
  fold_left scan_line lines (false, []).

(** *** Items outside a table *)

Definition loose_keywords : list pystr :=
  map u ["tax"; "delivery"; "platform"; "packaging"; "total"; "free"]%string.

Definition loose_line (items_list : list pystr) (line : pystr) : list pystr :=
  if contains [RUPEE] line
     && negb (existsb (fun keyword => contains keyword (lower line)) loose_keywords)
  then
    let item_parts := split_on RUPEE line in
    if 2 <=? List.length item_parts then
      let item_name := strip (hd [] item_parts) in
      if nonempty item_name && (3 <? List.length item_name) then
        match re_search no_flags price_re line with
        | Some m => items_list ++ [item_name ++ u " (₹" ++ group 1 m ++ u ")"]
        | None => items_list
        end
      else items_list
    else items_list
  else items_list.

Definition find_items (lines : list pystr) : list pystr :=
  match snd (scan_table lines) with
  | [] => fold_left loose_line lines []
  | items_list => items_list
  end.

(** The line gave the entry in the table tier. *)
Definition table_origin (line entry : pystr) : Prop :=
  exists m, re_match no_flags item_re line = Some m
            /\ entry = item_entry m
            /\ is_charge_line line = false.

(** The line gave the entry in the tier outside a table. *)
Definition loose_origin (line entry : pystr) : Prop :=
  exists m, re_search no_flags price_re line = Some m
            /\ entry = strip (hd [] (split_on RUPEE line)) ++ u " (₹" ++ group 1 m ++ u ")"
            /\ 3 < List.length (strip (hd [] (split_on RUPEE line)))
            /\ existsb (fun keyword => contains keyword (lower line)) loose_keywords
               = false.

(** *** The total *)

Definition float_opt_truthy (o : option float) : bool :=
  match o with
  | Some v => float_truthy v
  | None => false
  end.

(** The amount a pattern's match carries, when it converts and exceeds
    20; a match that does not leaves the loop over the patterns going. *)
Definition accepted_amount (m : rmatch) : option float :=
  match py_float (remove_commas (group 1 m)) with
  | Some total_value => if float_gtb total_value twenty then Some total_value else None
  | None => None
  end.

(** The loop over the patterns on one stripped line; it stops at the
    first amount accepted. *)
Fixpoint try_patterns (patterns : list regex) (line_clean : pystr)
         (tot : option float) : option float :=
  match patterns with
  | [] => tot
  | pattern :: rest =>
      match re_match flag_I pattern line_clean with
      | Some m =>
          match accepted_amount m with
          | Some v => Some v
          | None => try_patterns rest line_clean tot
          end
      | None => try_patterns rest line_clean tot
      end
  end.

(** The loop over the lines, last line first. *)
Fixpoint scan_totals (rev_lines : list pystr) (tot : option float) : option float :=
  match rev_lines with
  | [] => tot
  | line :: rest =>
      let line_clean := strip line in
      if negb (nonempty line_clean) then scan_totals rest tot
      else
        let tot' := try_patterns total_patterns line_clean tot in
        if float_opt_truthy tot' then tot' else scan_totals rest tot'
  end.

(** The broader search over the whole text, one pattern after another. *)
Fixpoint search_totals (patterns : list regex) (text : pystr)
         (tot : option float) : option float :=
  match patterns with
  | [] => tot
  | pattern :: rest =>
      match re_search flag_IM pattern text with
      | Some m =>
          match accepted_amount m with
          | Some v => Some v
          | None => search_totals rest text tot
          end
      | None => search_totals rest text tot
      end
  end.

Definition find_total (text : pystr) (lines : list pystr) : option float :=
  let tot := scan_totals (rev lines) None in
  if negb (float_opt_truthy tot) then search_totals total_patterns text tot
  else tot.

(** The line, stripped, matches one of the total patterns and the
    amount matched converts to [v]. *)
Definition total_line (line : pystr) (v : float) : Prop :=
  exists p m, In p total_patterns
              /\ re_match flag_I p (strip line) = Some m
              /\ py_float (remove_commas (group 1 m)) = Some v.

(** A line gives no total: it is blank, or no pattern finds on it an
    amount above 20. *)
Definition no_total_on (line : pystr) : Prop :=
  forall p m, In p total_patterns ->
              re_match flag_I p (strip line) = Some m -> accepted_amount m = None.

(** *** The record *)

Definition build_order (pdf_path text : pystr) : order_data :=
  let lines := split_on NL text in
  OrderData (find_order_id text) (find_date text) (find_restaurant text)
            (find_items lines) (find_total text lines) (basename pdf_path).

Definition complete (data : order_data) : bool :=
  truthy (date data) && truthy (restaurant_name data) && float_opt_truthy (total data).

Definition extract_order_text (pdf_path text : pystr) : option order_data :=
  if negb (nonempty text) then None
  else
    let data := build_order pdf_path text in
    if complete data then Some data else None.

Definition extract_order_data (pdf_path : pystr) (pdf : pdf_file) : option order_data :=
  match pdf with
  | Unreadable => None
  | Pages pages =>
      match read_pages pages [] with
      | Some text => extract_order_text pdf_path text
      | None => None
      end
  end.

(** *** The batch *)

Definition endswith (suffix s : pystr) : bool := startswith (rev suffix) (rev s).

(** [os.path.join(folder_path, filename)] for a relative file name. *)
Definition path_join (folder_path filename : pystr) : pystr :=
  if endswith (u "/") folder_path || negb (nonempty folder_path)
  then folder_path ++ filename
  else folder_path ++ u "/" ++ filename.

(** [process_all_pdfs]: [listing] is what [os.listdir] finds in the
    folder, each name with the document behind it. *)
Definition process_all_pdfs (folder_path : pystr) (listing : list (pystr * pdf_file))
  : list order_data :=
  let pdf_files :=
    map (fun e => (path_join folder_path (fst e), snd e))
        (filter (fun e => endswith (u ".pdf") (fst e)
                          && negb (contains (u "User_Charge_Invoice") (fst e)))
                listing) in
  let pdf_files := sort_by (fun e => fst e) pdf_files in
  flat_map (fun e => match extract_order_data (fst e) (snd e) with
                     | Some data => [data]
                     | None => []
                     end)
           pdf_files.

(** The sort key of the main block: [x['date'] or '']. *)
Definition date_key (x : order_data) : pystr :=
  match date x with
  | Some d => d
  | None => []
  end.

(** [all_data.sort(key=lambda x: x['date'] or '')]. *)
Definition sort_by_date (all_data : list order_data) : list order_data :=
  sort_by date_key all_data.

(** *** [analyze_data]: the counts and the extreme orders *)

(** A dictionary with keys in the order of their first insertion. *)
Definition okey : Type := option pystr.

Definition okey_eqb (a b : okey) : bool :=
  match a, b with
  | Some x, Some y => str_eqb x y
  | None, None => true
  | _, _ => false
  end.

Section Dict.
Variable V : Type.

(** [d.get(k, default)]. *)
Fixpoint dict_get (d : list (okey * V)) (k : okey) (default : V) : V :=
  match d with
  | [] => default
  | (k', v) :: t => if okey_eqb k k' then v else dict_get t k default
  end.

(** [d[k] = v]: a known key keeps its place, a new one goes last. *)
Fixpoint dict_set (d : list (okey * V)) (k : okey) (v : V) : list (okey * V) :=
  match d with
  | [] => [(k, v)]
  | (k', v') :: t => if okey_eqb k k' then (k', v) :: t else (k', v') :: dict_set t k v
  end.
End Dict.

(** The loop over the rows that fills [restaurant_counts]. *)
Definition count_restaurant (counts : list (okey * Z)) (row : order_data)
  : list (okey * Z) :=
  dict_set counts (restaurant_name row) (dict_get counts (restaurant_name row) 0%Z + 1)%Z.

Definition restaurant_counts (data : list order_data) : list (okey * Z) :=
  fold_left count_restaurant data [].

(** [sorted(items, key=lambda x: x[1], reverse=True)]: the greater count
    first, equal counts in the order they had. *)
Fixpoint insert_desc (x : okey * Z) (l : list (okey * Z)) : list (okey * Z) :=
  match l with
  | [] => [x]
  | y :: t => if (snd y <? snd x)%Z then x :: l else y :: insert_desc x t
  end.

Definition sorted_desc (items : list (okey * Z)) : list (okey * Z) :=
  fold_left (fun acc x => insert_desc x acc) items [].

(** The ten restaurants shown by order count. *)
Definition sorted_restaurants (data : list order_data) : list (okey * Z) :=
  firstn 10 (sorted_desc (restaurant_counts data)).

(** [max(totals)] and [min(totals)] on a list that is not empty: the
    first element, replaced by each later one that compares greater
    (smaller). *)
Fixpoint max_from (m : float) (l : list float) : float :=
  match l with
  | [] => m
  | x :: t => max_from (if float_gtb x m then x else m) t
  end.

Fixpoint min_from (m : float) (l : list float) : float :=
  match l with
  | [] => m
  | x :: t => min_from (if SFltb x m then x else m) t
  end.

(** [row['total'] == v]. *)
Definition total_is (v : float) (row : order_data) : bool :=
  match total row with
  | Some t => SFeqb t v
  | None => false
  end.

(** The totals of the rows; [None] when a row has none, on which the
    arithmetic of [analyze_data] raises. *)
Fixpoint totals_of (data : list order_data) : option (list float) :=
  match data with
  | [] => Some []
  | row :: rest =>
      match total row, totals_of rest with
      | Some t, Some ts => Some (t :: ts)
      | _, _ => None
      end
  end.

(** The highest and the lowest order as [analyze_data] finds them:
    [next(row for row in data if row['total'] == max_order)], and the
    same for the minimum.  [None] is an exception ([TypeError] on a
    missing total, [StopIteration] when no row compares equal), and
    also the early return on an empty batch. *)
Definition extreme_orders (data : list order_data) : option (order_data * order_data) :=
  match totals_of data with
  | Some (t :: ts) =>
      match find (total_is (max_from t ts)) data, find (total_is (min_from t ts)) data with
      | Some hi, Some lo => Some (hi, lo)
      | _, _ => None
      end
  | _ => None
  end.

(** The counts of a dictionary, added up. *)
Definition sum_counts (d : list (okey * Z)) : Z := fold_right Z.add 0%Z (map snd d).

(** How many rows name the restaurant [k]. *)
Definition orders_from (k : okey) (data : list order_data) : nat :=
  List.length (filter (fun row => okey_eqb (restaurant_name row) k) data).

(** [a] may stand before [b]: its count is not the smaller one. *)
Definition count_ge (a b : okey * Z) : Prop := (snd b <= snd a)%Z.

(** *** [analyze_data]: the totals and the months *)

(** [counts[k] = counts.get(k, 0) + 1]. *)
Definition count_key (counts : list (okey * Z)) (k : okey) : list (okey * Z) :=
  dict_set counts k (dict_get counts k 0%Z + 1)%Z.

(** [totals[k] = totals.get(k, 0) + t]; the [0] of a new key is
    converted to a float by the addition. *)
Definition add_total (totals : list (okey * float)) (k : okey) (t : float)
  : list (okey * float) :=
  dict_set totals k (float_add (dict_get totals k (S754_zero false)) t).

(** The loop that fills [restaurant_counts] and [restaurant_totals];
    [None] is the [TypeError] of adding a total that is [None]. *)
Fixpoint restaurant_tables (data : list order_data)
         (counts : list (okey * Z)) (totals : list (okey * float))
  : option (list (okey * Z) * list (okey * float)) :=
  match data with
  | [] => Some (counts, totals)
  | row :: rest =>
      let restaurant := restaurant_name row in
      match total row with
      | Some t =>
          restaurant_tables rest (count_key counts restaurant)
                            (add_total totals restaurant t)
      | None => None
      end
  end.

(** The loop that fills [monthly_totals] and [monthly_counts]; the
    month is [row['date'][:7]]. *)
Fixpoint monthly_tables (data : list order_data)
         (totals : list (okey * float)) (counts : list (okey * Z))
  : option (list (okey * float) * list (okey * Z)) :=
  match data with
  | [] => Some (totals, counts)
  | row :: rest =>
      if truthy (date row) then
        let month := Some (firstn 7 (date_key row)) in
        match total row with
        | Some t =>
            monthly_tables rest (add_total totals month t) (count_key counts month)
        | None => None
        end
      else monthly_tables rest totals counts
  end.

(** *** [analyze_data]: total spend and average *)

(** [sum(totals)] as CPython computes it before 3.12: from [0], each
    float is added to the running total, every addition rounded.  (From
    3.12 on [sum] carries a correction term along; the result is again
    one float.) *)
Definition py_sum (totals : list float) : float :=
  fold_left float_add totals (S754_zero false).

(** [x / n] for a float and an [int]; [None] is [ZeroDivisionError]. *)
Definition float_div_int (x : float) (n : Z) : option float :=
  if (n =? 0)%Z then None else Some (float_div x (float_of_Z n)).

(** What [analyze_data] computes first: nothing for an empty list, an
    exception, or total spend, number of orders and average.  The [0]
    the source writes for a count of zero is the float zero here. *)
Inductive analysis : Type :=
| NoData
| Raised
| Summary (total_spending : float) (num_orders : Z) (avg_order : float).

Definition analyze_summary (data : list order_data) : analysis :=
  match data with
  | [] => NoData
  | _ :: _ =>
      match totals_of data with
      | Some totals =>
          let total_spending := py_sum totals in
          let num_orders := Z.of_nat (List.length data) in
          if (0 <? num_orders)%Z then
            match float_div_int total_spending num_orders with
            | Some avg_order => Summary total_spending num_orders avg_order
            | None => Raised
            end
          else Summary total_spending num_orders (S754_zero false)
      | None => Raised
      end
  end.

(** *** [export_to_csv]: the rows handed to the writer *)

(** A value of a row dictionary: a string, a number, or [None]. *)
Inductive cell : Type :=
| CStr (s : pystr)
| CFloat (x : float)
| CNone.

Definition fieldnames : list pystr :=
  map u ["Date"; "Restaurant Name"; "Items Ordered"; "Total (₹)"; "Order ID"; "File Name"]%string.

Definition opt_cell (o : option pystr) : cell :=
  match o with
  | Some s => CStr s
  | None => CNone
  end.

(** The dictionary given to [writer.writerow], its values in the order
    of [fieldnames]. *)
Definition csv_row (row : order_data) : list cell :=
  [opt_cell (date row);
   opt_cell (restaurant_name row);
   CStr (match items row with
         | [] => NA
         | l => join (u "; ") l
         end);
   match total row with
   | Some t => CFloat t
   | None => CNone
   end;
   CStr (match order_id row with
         | Some id => if nonempty id then id else NA
         | None => NA
         end);
   CStr (file_name row)].

(** [export_to_csv]: nothing is written for an empty batch; otherwise
    the header and one row for each record. *)
Definition export_to_csv (data : list order_data) : option (list pystr * list (list cell)) :=
  match data with
  | [] => None
  | _ => Some (fieldnames, map csv_row data)
  end.

(** A cell holds a string that is not empty, or a number. *)
Definition filled (c : cell) : bool :=
  match c with
  | CStr s => nonempty s
  | CFloat _ => true
  | CNone => false
  end.

End Orders.

(* ===================================================================== *)
(** ** [parse_invoices.py] *)
(* ===================================================================== *)

Module Sheets.

Record invoice_data : Type := InvoiceData {
  filename : pystr;
  date : pystr;
  restaurant : pystr;
  amount : pystr;
  items : list pystr
}.

(** [text += page.extract_text() or ""] over the pages. *)
Fixpoint read_pages (pages : list (option pystr)) (text : pystr) : pystr :=
  match pages with
  | [] => text
  | Some p :: rest => read_pages rest (text ++ p)
  | None :: rest => read_pages rest text
  end.

Definition date_patterns : list regex :=
  Eval vm_compute in
  map re_compile
      ["Order Time:\s*(\d{1,2}\s+(?:Jan|Feb|Mar|Apr|May|Jun|Jul|Aug|Sep|Oct|Nov|Dec)[a-z]*\s+\d{4})";
       "(\d{1,2}\s+(?:Jan|Feb|Mar|Apr|May|Jun|Jul|Aug|Sep|Oct|Nov|Dec)[a-z]*\s+\d{4})";
       "(\d{1,2}[/-]\d{1,2}[/-]\d{4})"]%string.

Definition restaurant_patterns : list regex :=
  Eval vm_compute in
  map re_compile
      ["Restaurant Name:\s*([^\n]+)";
       "Ordered from[:\s]+([^\n]+)";
       "Delivery from[:\s]+([^\n]+)"]%string.

Definition parenthetical_re : regex :=
  Eval vm_compute in re_compile "\s*\(.*?\)\s*".

(** What follows the lazy [.*?] in the parenthetical pattern. *)
Definition close_then_blanks (p : option N) (t : pystr) : option mstate :=
  run no_flags (RCat (RSet (CIn [CChar 41])) (RRep true 0 None (CIn [CSpace])))
      (MState p t []) Some.

Definition total_patterns : list regex :=
  Eval vm_compute in
  map re_compile
      ["(?:^|\n)\s*Total\s+₹?([\d,]+\.?\d{0,2})";
       "Total:\s*₹?([\d,]+\.?\d{0,2})"]%string.

Definition item_patterns : list regex :=
  Eval vm_compute in
  map re_compile
      ["^([A-Z][^\n\d]+?)\s+(\d+)\s+₹([\d,]+)\s+₹([\d,]+)"]%string.

(** The first pattern of a list that is found in the text. *)
Fixpoint first_search (f : flags) (patterns : list regex) (text : pystr)
  : option rmatch :=
  match patterns with
  | [] => None
  | pattern :: rest =>
      match re_search f pattern text with
      | Some m => Some m
      | None => first_search f rest text
      end
  end.

Definition find_date (text : pystr) : pystr :=
  match first_search flag_I date_patterns text with
  | Some m => strip (group 1 m)
  | None => []
  end.

(** The merchant name as captured, made clean: parentheses removed, at
    most 100 characters kept. *)
Definition clean_restaurant (captured : pystr) : pystr :=
  let restaurant := strip captured in
  let restaurant := re_sub_del no_flags parenthetical_re restaurant in
  firstn 100 restaurant.

Definition find_restaurant (text : pystr) : pystr :=
  match first_search flag_I restaurant_patterns text with
  | Some m => clean_restaurant (group 1 m)
  | None => []
  end.

Definition find_amount (text : pystr) : pystr :=
  match first_search flag_IM total_patterns text with
  | Some m => [RUPEE] ++ remove_commas (group 1 m)
  | None => []
  end.

Definition skipped_names : list pystr := map u ["Taxes"; "Total"; "Item"]%string.

(** The loop over the item patterns on one line. *)
Fixpoint item_line (patterns : list regex) (items : list pystr) (line : pystr)
  : list pystr :=
  match patterns with
  | [] => items
  | pattern :: rest =>
      match re_match flag_I pattern (strip line) with
      | Some m =>
          let item_name := strip (group 1 m) in
          let qty := group 2 m in
          let price := remove_commas (group 4 m) in
          if (3 <? List.length item_name)
             && negb (existsb (str_eqb item_name) skipped_names)
          then item_line rest (items ++ [qty ++ u "x " ++ item_name ++ u " (₹" ++ price ++ u ")"]) line
          else item_line rest items line
      | None => item_line rest items line
      end
  end.

Definition find_items (text : pystr) : list pystr :=
  fold_left (item_line item_patterns) (split_on NL text) [].

Definition parse_invoice_text (pdf_path text : pystr) : invoice_data :=
  InvoiceData (basename pdf_path) (find_date text) (find_restaurant text)
              (find_amount text) (firstn 10 (find_items text)).

Definition extract_invoice_data (pdf_path : pystr) (pdf : pdf_file) : option invoice_data :=
  match pdf with
  | Unreadable => None
  | Pages pages => Some (parse_invoice_text pdf_path (read_pages pages []))
  end.

(** The text of the pages that have one, end to end. *)
Definition joined_pages (pages : list (option pystr)) : pystr :=
  concat (map (fun p => match p with Some t => t | None => [] end) pages).

(** *** [parse_invoices_to_sheet]: the rows sent to the sheet *)

(** [value or 'N/A']. *)
Definition or_na (s : pystr) : pystr := if nonempty s then s else NA.

(** The row built for one parsed invoice. *)
Definition sheet_row (d : invoice_data) : list pystr :=
  let items_str := match items d with
                   | [] => NA
                   | l => join (u ", ") l
                   end in
  [or_na (date d); or_na (restaurant d); or_na (amount d); items_str; filename d].

(** The state of the loop over the files. *)
Record sheet_run : Type := SheetRun {
  rows_to_add : list (list pystr);
  successful : nat;
  failed : nat
}.

Definition parse_step (folder_path : pystr) (st : sheet_run) (e : pystr * pdf_file)
  : sheet_run :=
  match extract_invoice_data (Orders.path_join folder_path (fst e)) (snd e) with
  | Some d => SheetRun (rows_to_add st ++ [sheet_row d]) (S (successful st)) (failed st)
  | None => SheetRun (rows_to_add st) (successful st) (S (failed st))
  end.

(** The files of the folder whose name ends in [.pdf], in any letter case. *)
Definition pdf_files (listing : list (pystr * pdf_file)) : list (pystr * pdf_file) :=
  filter (fun e => Orders.endswith (u ".pdf") (lower (fst e))) listing.

(** [parse_invoices_to_sheet] on a folder that exists: [None] when it
    returns before any sheet is made, for want of a PDF file. *)
Definition parse_invoices_to_sheet (folder_path : pystr)
           (listing : list (pystr * pdf_file)) : option sheet_run :=
  match pdf_files listing with
  | [] => None
  | files => Some (fold_left (parse_step folder_path) files (SheetRun [] 0 0))
  end.

End Sheets.

(* ===================================================================== *)
(** ** Sample documents *)
(* ===================================================================== *)

Module Samples.

Definition invoice_path : pystr := Eval vm_compute in u "/Users/garima/Desktop/zomato/gmail_pdfs/Order_1.pdf".

(** An invoice of the vendor's layout. *)
Definition invoice : pystr := Eval vm_compute in u "Zomato
Order ID: 7012345678
Order Time: 31 January 2026, 12:52 PM
Restaurant Name: P.F. Chang's (Sector 18)
Item Quantity Unit Price Total Price
Paneer Tikka 2 ₹250 ₹500
Burnt Chilli Hakka Noodles 1 ₹495 ₹495
Total ₹995
Taxes ₹49.75
Delivery Charge ₹30
Total ₹1,074.75
Total ₹15
Terms and conditions apply".

(** The same order with a month name no calendar knows. *)
Definition invoice_odd_date : pystr := Eval vm_compute in u "Order Time: 31 Foo 2026, 12:52 PM
Restaurant Name: Biryani House
Total ₹450".

(** An order time whose year is below 1000. *)
Definition invoice_early_year : pystr := Eval vm_compute in u "Order Time: 31 January 0999, 12:52 PM
Restaurant Name: Biryani House
Total ₹450".

(** An order time on a day the calendar does not have. *)
Definition invoice_no_such_day : pystr := Eval vm_compute in u "Order Time: 31 February 2026, 12:52 PM
Restaurant Name: Biryani House
Total ₹450".

(** A text with none of the labels. *)
Definition letter : pystr := Eval vm_compute in u "Thank you for ordering with us".

(** Two total lines, both above the threshold. *)
Definition two_totals : pystr := Eval vm_compute in u "Restaurant Name: Biryani House
Total ₹100
Total ₹500".

(** A table whose only item carries a charge keyword in its name. *)
Definition delivery_item : pystr := Eval vm_compute in u "Item Quantity Unit Price Total Price
Delivery Fries 2 ₹250 ₹500
Total ₹500".

(** A table with a second header line that mentions a charge. *)
Definition charge_in_header : pystr := Eval vm_compute in u "Item Quantity Unit Price Total Price
Item Quantity Price (excl. Delivery Charge)
Paneer Tikka 2 ₹250 ₹500
Total ₹500".

(** Twelve item lines. *)
Definition long_order : pystr := Eval vm_compute in u "Restaurant Name: Biryani House
Veg Biryani 1 ₹200 ₹200
Egg Biryani 1 ₹220 ₹220
Chicken Biryani 1 ₹250 ₹250
Mutton Biryani 1 ₹320 ₹320
Prawn Biryani 1 ₹340 ₹340
Paneer Biryani 1 ₹230 ₹230
Mushroom Biryani 1 ₹210 ₹210
Fish Biryani 1 ₹300 ₹300
Keema Biryani 1 ₹310 ₹310
Kathal Biryani 1 ₹190 ₹190
Soya Biryani 1 ₹180 ₹180
Plain Raita 2 ₹40 ₹80
Total ₹2,830".

(** A folder with two orders; the first has the odd date. *)
Definition folder_path : pystr := Eval vm_compute in u "/Users/garima/Desktop/zomato/gmail_pdfs".

Definition listing : list (pystr * pdf_file) :=
  [(u "Order_1.pdf", Pages [Some invoice_odd_date]);
   (u "Order_2.pdf", Pages [Some invoice]);
   (u "User_Charge_Invoice_2.pdf", Pages [Some invoice])].

Definition dated : Orders.order_data :=
  Orders.build_order invoice_path invoice.

(** Where the date pattern of the strict parser matches in [invoice]. *)
Definition invoice_date_match : rmatch :=
  Eval vm_compute in
  match re_search no_flags Orders.date_re invoice with
  | Some m => m
  | None => RMatch [] (MState None [] [])
  end.

(** Where the merchant patterns of the sheet parser match in [invoice]. *)
Definition invoice_merchant_match : rmatch :=
  Eval vm_compute in
  match Sheets.first_search flag_I Sheets.restaurant_patterns invoice with
  | Some m => m
  | None => RMatch [] (MState None [] [])
  end.

(** The record of [invoice] read from the folder. *)
Definition dated_in_folder : Orders.order_data :=
  Orders.build_order (Orders.path_join folder_path (u "Order_2.pdf")) invoice.

(** An order of the month before. *)
Definition dated_earlier : Orders.order_data :=
  Orders.build_order invoice_path
    (u "Order Time: 9 December 2025, 8:05 PM
Restaurant Name: Biryani House
Total ₹450").

(** A folder with two copies of one order, listed in no order. *)
Definition same_day_listing : list (pystr * pdf_file) :=
  [(u "Order_9.pdf", Pages [Some invoice]);
   (u "Order_2.pdf", Pages [Some invoice])].

(** The record of [invoice] read from the other copy. *)
Definition dated_in_folder_again : Orders.order_data :=
  Orders.build_order (Orders.path_join folder_path (u "Order_9.pdf")) invoice.

(** A folder with two orders, of 149.10 and 250.20 rupees. *)
Definition spend_listing : list (pystr * pdf_file) :=
  [(u "Order_4.pdf", Pages [Some (u "Order Time: 2 February 2026, 1:15 PM
Restaurant Name: Biryani House
Total ₹149.10")]);
   (u "Order_5.pdf", Pages [Some (u "Order Time: 3 February 2026, 8:40 PM
Restaurant Name: Biryani House
Total ₹250.20")])].

(** The total spend of that folder as [analyze_data] computes it. *)
Definition spend_total : float :=
  Eval vm_compute in
  match Orders.totals_of
          (Orders.sort_by_date (Orders.process_all_pdfs folder_path spend_listing)) with
  | Some totals => Orders.py_sum totals
  | None => S754_nan
  end.

End Samples.

(* ===================================================================== *)
(** ** The model on known values *)
(* ===================================================================== *)

(** [float('0.1')] and [float('1262.53')], as [float.hex] shows them. *)
Example float_of_tenth :
  py_float (u "0.1") = Some (S754_finite false 7205759403792794 (-56)).
Proof. vm_compute. reflexivity. Qed.

Example float_of_amount :
  py_float (u "1262.53") = Some (S754_finite false 5552665661664133 (-42)).
Proof. vm_compute. reflexivity. Qed.

(** A decimal above 20 by less than half a unit in the last place is the
    float 20, which the threshold refuses. *)
Example float_barely_above_twenty :
  py_float (u "20.000000000000001") = Some twenty
  /\ float_gtb twenty twenty = false.
Proof. vm_compute. auto. Qed.

(** No digit at all is a [ValueError]. *)
Example float_of_point : py_float (u ".") = None /\ py_float [] = None.
Proof. vm_compute. auto. Qed.

(** A number too large for a float is infinity, which is above 20. *)
Example float_of_huge :
  py_float (u "1" ++ repeat 48%N 400) = Some (S754_infinity false)
  /\ float_gtb (S754_infinity false) twenty = true.
Proof. vm_compute. auto. Qed.

(** The lazy name of the item pattern stops at the first place from
    which quantity and amounts follow. *)
Example item_with_digits_in_name :
  option_map (fun m => (group 1 m, group 2 m, group 3 m, group 4 m))
             (re_match no_flags Orders.item_re (u "Coke 330 ml 2 ₹40 ₹1,080.50"))
  = Some (u "Coke 330 ml", u "2", u "40", u "1,080.50").
Proof. vm_compute. reflexivity. Qed.

(** The expression built for the first format is the one of [_strptime]. *)
Example time_pattern_full :
  time_pattern false (u "%d %B %Y %I:%M %p")
  = u "(?P<d>3[0-1]|[1-2]\d|0[1-9]|[1-9]| [1-9])\s+(?P<B>september|february|november|december|january|october|august|march|april|june|july|may)\s+(?P<Y>\d\d\d\d)\s+(?P<I>1[0-2]|0[1-9]|[1-9]):(?P<M>[0-5]\d|\d)\s+(?P<p>am|pm)".
Proof. vm_compute. reflexivity. Qed.

(** A day the month does not have is refused, a leap day is not. *)
Example strptime_calendar :
  strptime full_months "%d %B %Y %I:%M %p" (u "31 February 2026 12:52 PM") = None
  /\ strptime full_months "%d %B %Y %I:%M %p" (u "29 February 2024 12:52 PM")
     = Some (Date 2024 2 29).
Proof. vm_compute. auto. Qed.

(** The whole sample invoice, through the strict parser. *)
Example invoice_through_strict_parser :
  Orders.extract_order_data Samples.invoice_path (Pages [Some Samples.invoice])
  = Some (Orders.OrderData
            (Some (u "7012345678"))
            (Some (u "2026-01-31"))
            (Some (u "P.F. Chang's (Sector 18)"))
            [u "Paneer Tikka (Qty: 2, ₹500)";
             u "Burnt Chilli Hakka Noodles (Qty: 1, ₹495)"]
            (py_float (u "1074.75"))
            (u "Order_1.pdf")).
Proof. vm_compute. reflexivity. Qed.

(** And through the sheet-oriented parser. *)
Example invoice_through_sheet_parser :
  Sheets.extract_invoice_data Samples.invoice_path (Pages [Some Samples.invoice])
  = Some (Sheets.InvoiceData
            (u "Order_1.pdf")
            (u "31 January 2026")
            (u "P.F. Chang's")
            (u "₹995")
            [u "2x Paneer Tikka (₹500)";
             u "1x Burnt Chilli Hakka Noodles (₹495)"]).
Proof. vm_compute. reflexivity. Qed.

(* ===================================================================== *)
(** ** Facts about the matcher *)
(* ===================================================================== *)

Section MatcherFacts.
Variable f : flags.

Lemma rep_nil (g : bool) (s : cset) (lo : nat) (hi : option nat) (prev : option N)
      (k : option N -> pystr -> option mstate) :
  rep f g s lo hi prev [] k = match lo with 0 => k prev [] | S _ => None end.
Proof. destruct g; simpl; destruct lo; try reflexivity; destruct (k prev []); reflexivity. Qed.

Lemma rep_cons (g : bool) (s : cset) (lo : nat) (hi : option nat) (prev : option N)
      (c : N) (t : pystr) (k : option N -> pystr -> option mstate) :
  rep f g s lo hi prev (c :: t) k =
  let stop := match lo with 0 => k prev (c :: t) | S _ => None end in
  let more :=
    if hi_open hi && cset_has f s c
    then rep f g s (pred lo) (hi_pred hi) (Some c) t k
    else None in
  if g
  then match more with Some r => Some r | None => stop end
  else match stop with Some r => Some r | None => more end.
Proof. reflexivity. Qed.

(** A repetition that succeeds took a run of characters of its class,
    at least [lo] of them, and handed the rest to what follows. *)
Lemma rep_inv (g : bool) (s : cset) (inp : pystr) :
  forall (lo : nat) (hi : option nat) (prev : option N)
         (k : option N -> pystr -> option mstate) (r : mstate),
    rep f g s lo hi prev inp k = Some r ->
    exists pre post p,
      inp = pre ++ post /\ forallb (cset_has f s) pre = true
      /\ lo <= List.length pre /\ k p post = Some r.
Proof.
  induction inp as [| c t IH]; intros lo hi prev k r H.
  - rewrite rep_nil in H. destruct lo; [| discriminate].
    exists [], [], prev. simpl. auto.
  - rewrite rep_cons in H. cbv zeta in H.
    assert (Stop : match lo with 0 => k prev (c :: t) | S _ => None end = Some r ->
                   exists pre post p,
                     c :: t = pre ++ post /\ forallb (cset_has f s) pre = true
                     /\ lo <= List.length pre /\ k p post = Some r).
    { destruct lo; [| discriminate]. intros K.
      exists [], (c :: t), prev. simpl. auto. }
    assert (More : (if hi_open hi && cset_has f s c
                    then rep f g s (pred lo) (hi_pred hi) (Some c) t k
                    else None) = Some r ->
                   exists pre post p,
                     c :: t = pre ++ post /\ forallb (cset_has f s) pre = true
                     /\ lo <= List.length pre /\ k p post = Some r).
    { destruct (hi_open hi && cset_has f s c) eqn:C; [| discriminate].
      apply andb_prop in C. destruct C as [_ C]. intros R.
      destruct (IH _ _ _ _ _ R) as (pre & post & p & E & A & L & K).
      exists (c :: pre), post, p. simpl. rewrite C, A, E.
      repeat split; auto. lia. }
    destruct g.
    + destruct (if hi_open hi && cset_has f s c
                then rep f true s (pred lo) (hi_pred hi) (Some c) t k
                else None) as [r' |] eqn:M.
      * inversion H; subst r'. apply More. reflexivity.
      * apply Stop. exact H.
    + destruct (match lo with 0 => k prev (c :: t) | S _ => None end) as [r' |] eqn:St.
      * inversion H; subst r'. apply Stop. reflexivity.
      * apply More. exact H.
Qed.

(** A greedy unbounded repetition whose continuation always accepts
    succeeds, and ends no further than the text goes. *)
Lemma greedy_star_total (s : cset) (caps : list (nat * pystr)) (inp : pystr) :
  forall (lo : nat) (prev : option N),
    lo = 0 ->
    exists r,
      rep f true s lo None prev inp (fun p t => Some (MState p t caps)) = Some r
      /\ List.length (m_rest r) <= List.length inp.
Proof.
  induction inp as [| c t IH]; intros lo prev ->.
  - rewrite rep_nil. eexists. split; [reflexivity | simpl; lia].
  - rewrite rep_cons. cbv zeta. cbn [hi_open hi_pred pred andb].
    destruct (cset_has f s c).
    + destruct (IH 0 (Some c) eq_refl) as (r & R & L). rewrite R.
      exists r. split; [reflexivity | simpl; lia].
    + eexists. split; [reflexivity | simpl; lia].
Qed.

(** A successful run reached its continuation further on in the text,
    past at least [min_len r] characters. *)
Lemma run_inv (r : regex) :
  forall (st : mstate) (k : mstate -> option mstate) (res : mstate),
    run f r st k = Some res ->
    exists st',
      k st' = Some res
      /\ exists pre, m_rest st = pre ++ m_rest st' /\ min_len r <= List.length pre.
Proof.
  induction r as [| | s | a IHa b IHb | a IHa b IHb | g lo hi s | n a IHa];
    intros st k res H; simpl in H.
  - exists st. split; [exact H | exists []; split; [reflexivity | simpl; lia]].
  - destruct (at_bol f st); [| discriminate].
    exists st. split; [exact H | exists []; split; [reflexivity | simpl; lia]].
  - destruct (m_rest st) as [| c t] eqn:R; [discriminate |].
    destruct (cset_has f s c); [| discriminate].
    eexists. split; [exact H |]. exists [c]. split; [reflexivity | simpl; lia].
  - destruct (IHa _ _ _ H) as (st1 & H1 & pre1 & E1 & L1).
    destruct (IHb _ _ _ H1) as (st2 & H2 & pre2 & E2 & L2).
    exists st2. split; [exact H2 |]. exists (pre1 ++ pre2).
    rewrite E1, E2, app_assoc. split; [reflexivity |].
    rewrite length_app. simpl. lia.
  - destruct (run f a st k) as [x |] eqn:A.
    + inversion H; subst x.
      destruct (IHa _ _ _ A) as (st1 & H1 & pre1 & E1 & L1).
      exists st1. split; [exact H1 |]. exists pre1. split; [exact E1 | simpl; lia].
    + destruct (IHb _ _ _ H) as (st1 & H1 & pre1 & E1 & L1).
      exists st1. split; [exact H1 |]. exists pre1. split; [exact E1 | simpl; lia].
  - destruct (rep_inv _ _ _ _ _ _ _ H) as (pre & post & p & E & _ & L & K).
    eexists. split; [exact K |]. exists pre. split; [exact E | exact L].
  - destruct (IHa _ _ _ H) as (st1 & H1 & pre1 & E1 & L1).
    eexists. split; [exact H1 |]. exists pre1. split; [exact E1 | exact L1].
Qed.

Lemma run_cat_inv (a b : regex) (st : mstate) (k : mstate -> option mstate) (res : mstate) :
  run f (RCat a b) st k = Some res ->
  exists st', run f b st' k = Some res /\ exists pre, m_rest st = pre ++ m_rest st'.
Proof.
  simpl. intros H. destruct (run_inv _ _ _ H) as (st' & H' & pre & E & _).
  exists st'. split; [exact H' | exists pre; exact E].
Qed.

Lemma run_tail (r : regex) :
  forall (st : mstate) (k : mstate -> option mstate) (res : mstate),
    run f r st k = Some res ->
    exists st', run f (tail_of r) st' k = Some res.
Proof.
  induction r as [| | s | a IHa b IHb | a IHa b IHb | g lo hi s | n a IHa];
    intros st k res H; try (exists st; exact H).
  apply run_cat_inv in H. destruct H as (st1 & H1 & _).
  simpl. apply IHb with (st := st1). exact H1.
Qed.

Lemma taken_app (pre post : pystr) : taken (pre ++ post) post = pre.
Proof.
  unfold taken. rewrite length_app.
  replace (List.length pre + List.length post - List.length post) with (List.length pre) by lia.
  rewrite firstn_app, firstn_all, Nat.sub_diag. simpl. apply app_nil_r.
Qed.

(** A group made of one repeated class holds characters of the class. *)
Lemma group_of_class (n : nat) (g : bool) (lo : nat) (hi : option nat) (s : cset)
      (st res : mstate) :
  run f (RGrp n (RRep g lo hi s)) st Some = Some res ->
  exists v, assoc n (m_caps res) = Some v /\ forallb (cset_has f s) v = true.
Proof.
  simpl. intros H.
  destruct (rep_inv _ _ _ _ _ _ _ H) as (pre & post & p & E & A & _ & K).
  inversion K; subst res. simpl. rewrite Nat.eqb_refl.
  exists (taken (m_rest st) post). split; [reflexivity |].
  rewrite E, taken_app. exact A.
Qed.

(** What a group holds has at least the least length of its body. *)
Lemma group_capture (n : nat) (a : regex) (st res : mstate) :
  run f (RGrp n a) st Some = Some res ->
  exists v, assoc n (m_caps res) = Some v /\ min_len a <= List.length v.
Proof.
  simpl. intros H.
  destruct (run_inv _ _ _ H) as (st1 & K & pre & E & L).
  inversion K; subst res. simpl. rewrite Nat.eqb_refl.
  exists (taken (m_rest st) (m_rest st1)). split; [reflexivity |].
  rewrite E, taken_app. exact L.
Qed.

Lemma search_from_inv (r : regex) (s : pystr) :
  forall (prev : option N) (m : rmatch),
    search_from f r prev s = Some m ->
    exists p, run f r (MState p (m_from m) []) Some = Some (m_end m).
Proof.
  induction s as [| c t IH]; intros prev m H; simpl in H.
  - unfold match_at in H.
    destruct (run f r (MState prev [] []) Some) as [e |] eqn:R; [| discriminate].
    inversion H; subst m. exists prev. exact R.
  - unfold match_at in H.
    destruct (run f r (MState prev (c :: t) []) Some) as [e |] eqn:R.
    + inversion H; subst m. exists prev. exact R.
    + apply IH with (prev := Some c). exact H.
Qed.

End MatcherFacts.

(** *** Stripping and deleting *)

Lemma lstrip_incl (s : pystr) (c : N) : In c (lstrip s) -> In c s.
Proof.
  induction s as [| x t IH]; simpl; [tauto |].
  destruct (is_space x); [intros H; right; apply IH; exact H | simpl; tauto].
Qed.

Lemma strip_incl (s : pystr) (c : N) : In c (strip s) -> In c s.
Proof.
  unfold strip, rstrip. intros H.
  apply in_rev in H. apply lstrip_incl in H. apply in_rev in H.
  apply lstrip_incl. exact H.
Qed.

Lemma lstrip_keeps (s : pystr) (c : N) :
  In c s -> is_space c = false -> In c (lstrip s).
Proof.
  induction s as [| x t IH]; simpl; [tauto |].
  intros [-> | I] Sp.
  - rewrite Sp. left; reflexivity.
  - destruct (is_space x); [apply IH; assumption | right; exact I].
Qed.

Lemma strip_keeps (s : pystr) (c : N) :
  In c s -> is_space c = false -> nonempty (strip s) = true.
Proof.
  intros I Sp. unfold strip, rstrip.
  assert (H : In c (rev (lstrip (rev (lstrip s))))).
  { apply in_rev. rewrite rev_involutive. apply lstrip_keeps; [| exact Sp].
    apply in_rev. rewrite rev_involutive. apply lstrip_keeps; assumption. }
  destruct (rev (lstrip (rev (lstrip s)))); [destruct H | reflexivity].
Qed.

Lemma sub_del_cons (f : flags) (r : regex) (prev : option N) (c : N) (t : pystr)
      (skip : nat) :
  sub_del f r prev (c :: t) skip =
  match skip with
  | S n => sub_del f r (Some c) t n
  | 0 =>
      match match_at f r prev (c :: t) with
      | Some m =>
          match List.length (c :: t) - List.length (m_rest (m_end m)) with
          | S n => sub_del f r (Some c) t n
          | 0 => c :: sub_del f r (Some c) t 0
          end
      | None => c :: sub_del f r (Some c) t 0
      end
  end.
Proof. reflexivity. Qed.

Lemma sub_del_incl (f : flags) (r : regex) (s : pystr) :
  forall (prev : option N) (skip : nat) (c : N),
    In c (sub_del f r prev s skip) -> In c s.
Proof.
  induction s as [| x t IH]; intros prev skip c; [simpl; tauto |].
  rewrite sub_del_cons.
  assert (Keep : In c (x :: sub_del f r (Some x) t 0) -> In c (x :: t)).
  { intros [-> | H]; [left; reflexivity | right; eapply IH; exact H]. }
  destruct skip as [| n].
  - destruct (match_at f r prev (x :: t)) as [m |]; [| exact Keep].
    destruct (List.length (x :: t) - List.length (m_rest (m_end m))) as [| n];
      [exact Keep |].
    intros H; right; eapply IH; exact H.
  - intros H; right; eapply IH; exact H.
Qed.

(* ===================================================================== *)
(** ** Facts about floats and the total scan *)
(* ===================================================================== *)

Lemma twenty_eq : twenty = S754_finite false 5629499534213120 (-48).
Proof. vm_compute. reflexivity. Qed.

Lemma gt_twenty_truthy (v : float) :
  float_gtb v twenty = true -> float_truthy v = true.
Proof.
  unfold float_gtb, float_truthy. rewrite twenty_eq.
  destruct v as [s | s | | s m e]; simpl; try discriminate;
    destruct s; simpl; intros; try discriminate; reflexivity.
Qed.

Module OrdersFacts.
Import Orders.

Lemma accepted_amount_spec (m : rmatch) (v : float) :
  accepted_amount m = Some v <->
  py_float (remove_commas (group 1 m)) = Some v /\ float_gtb v twenty = true.
Proof.
  unfold accepted_amount.
  destruct (py_float (remove_commas (group 1 m))) as [w |].
  - destruct (float_gtb w twenty) eqn:G; split.
    + intros H; inversion H; subst; auto.
    + intros [H _]; exact H.
    + discriminate.
    + intros [H G']; inversion H; subst; congruence.
  - split; [discriminate | intros [H _]; discriminate].
Qed.

Lemma accepted_amount_none (m : rmatch) :
  accepted_amount m = None <->
  (forall v, py_float (remove_commas (group 1 m)) = Some v -> float_gtb v twenty = false).
Proof.
  unfold accepted_amount.
  destruct (py_float (remove_commas (group 1 m))) as [w |].
  - destruct (float_gtb w twenty) eqn:G; split; try discriminate; auto.
    + intros H. specialize (H w eq_refl). congruence.
    + intros _ v Hv. inversion Hv; subst; exact G.
  - split; auto. intros _ v Hv; discriminate.
Qed.

(** What the loop over the patterns leaves in [data['total']]. *)
Lemma try_patterns_inv (ps : list regex) (lc : pystr) (tot : option float) (v : float) :
  try_patterns ps lc tot = Some v ->
  tot = Some v \/
  exists p m, In p ps /\ re_match flag_I p lc = Some m /\ accepted_amount m = Some v.
Proof.
  induction ps as [| p ps IH]; simpl; intros H.
  - left; exact H.
  - destruct (re_match flag_I p lc) as [m |] eqn:M.
    + destruct (accepted_amount m) as [w |] eqn:A.
      * inversion H; subst. right. exists p, m. auto.
      * destruct (IH H) as [E | (q & m' & I & M' & A')]; [left; exact E |].
        right. exists q, m'. auto.
    + destruct (IH H) as [E | (q & m' & I & M' & A')]; [left; exact E |].
      right. exists q, m'. auto.
Qed.

Lemma try_patterns_none (ps : list regex) (lc : pystr) :
  (forall p m, In p ps -> re_match flag_I p lc = Some m -> accepted_amount m = None) ->
  try_patterns ps lc None = None.
Proof.
  induction ps as [| p ps IH]; simpl; intros H; [reflexivity |].
  destruct (re_match flag_I p lc) as [m |] eqn:M.
  - rewrite (H p m (or_introl eq_refl) M). apply IH. intros q m' I. apply H; right; exact I.
  - apply IH. intros q m' I. apply H; right; exact I.
Qed.

Lemma try_patterns_hit (ps : list regex) (lc : pystr) :
  (exists p m v, In p ps /\ re_match flag_I p lc = Some m /\ accepted_amount m = Some v) ->
  exists v, try_patterns ps lc None = Some v.
Proof.
  intros H. destruct (try_patterns ps lc None) as [v |] eqn:T; [exists v; reflexivity |].
  exfalso. destruct H as (p & m & v & I & M & A).
  revert T. induction ps as [| q ps IH]; simpl; [destruct I |].
  destruct I as [-> | I].
  - rewrite M, A. discriminate.
  - destruct (re_match flag_I q lc) as [m' |].
    + destruct (accepted_amount m'); [discriminate | apply IH; exact I].
    + apply IH; exact I.
Qed.

Lemma total_patterns_need_text (p : regex) :
  In p total_patterns -> re_match flag_I p [] = None.
Proof.
  intros [<- | [<- | [<- | []]]]; vm_compute; reflexivity.
Qed.

Lemma scan_totals_cons (l : pystr) (rest : list pystr) (tot : option float) :
  scan_totals (l :: rest) tot =
  if negb (nonempty (strip l)) then scan_totals rest tot
  else
    let tot' := try_patterns total_patterns (strip l) tot in
    if float_opt_truthy tot' then tot' else scan_totals rest tot'.
Proof. reflexivity. Qed.

Lemma scan_totals_skip (below rest : list pystr) :
  (forall l, In l below -> no_total_on l) ->
  scan_totals (below ++ rest) None = scan_totals rest None.
Proof.
  induction below as [| l below IH]; intros H; [reflexivity |].
  cbn [app]. rewrite scan_totals_cons.
  destruct (nonempty (strip l)); cbn [negb].
  - cbv zeta. rewrite try_patterns_none by (apply H; left; reflexivity).
    cbn [float_opt_truthy]. apply IH. intros l' I. apply H; right; exact I.
  - apply IH. intros l' I. apply H; right; exact I.
Qed.

Lemma scan_totals_inv (ls : list pystr) (v : float) :
  scan_totals ls None = Some v ->
  exists l p m, In l ls /\ In p total_patterns
                /\ re_match flag_I p (strip l) = Some m /\ accepted_amount m = Some v.
Proof.
  induction ls as [| l ls IH]; [discriminate |].
  rewrite scan_totals_cons.
  destruct (nonempty (strip l)); cbn [negb]; cbv zeta.
  - destruct (try_patterns total_patterns (strip l) None) as [w |] eqn:T.
    + destruct (try_patterns_inv _ _ _ T) as [E | (p & m & I & M & A)]; [discriminate |].
      pose proof (proj1 (accepted_amount_spec m w) A) as [_ G].
      cbn [float_opt_truthy]. rewrite (gt_twenty_truthy _ G). intros E; inversion E; subst.
      exists l, p, m. repeat split; auto. left; reflexivity.
    + cbn [float_opt_truthy]. intros H. destruct (IH H) as (l' & p & m & I & R).
      exists l', p, m. split; [right; exact I | exact R].
  - intros H. destruct (IH H) as (l' & p & m & I & R).
    exists l', p, m. split; [right; exact I | exact R].
Qed.

Lemma search_totals_inv (ps : list regex) (text : pystr) (tot : option float) (v : float) :
  search_totals ps text tot = Some v ->
  tot = Some v \/
  exists p m, In p ps /\ re_search flag_IM p text = Some m /\ accepted_amount m = Some v.
Proof.
  induction ps as [| p ps IH]; simpl; intros H.
  - left; exact H.
  - destruct (re_search flag_IM p text) as [m |] eqn:M.
    + destruct (accepted_amount m) as [w |] eqn:A.
      * inversion H; subst. right. exists p, m. auto.
      * destruct (IH H) as [E | (q & m' & I & M' & A')]; [left; exact E |].
        right. exists q, m'. auto.
    + destruct (IH H) as [E | (q & m' & I & M' & A')]; [left; exact E |].
      right. exists q, m'. auto.
Qed.

(** Whatever [find_total] returns was accepted by the threshold test. *)
Lemma find_total_gt (text : pystr) (lines : list pystr) (v : float) :
  find_total text lines = Some v -> float_gtb v twenty = true.
Proof.
  unfold find_total.
  destruct (scan_totals (rev lines) None) as [w |] eqn:S.
  - destruct (scan_totals_inv _ S) as (l & p & m & _ & _ & _ & A).
    apply accepted_amount_spec in A. destruct A as [_ G].
    cbn [float_opt_truthy]. rewrite (gt_twenty_truthy _ G). cbn [negb].
    intros E; inversion E; subst; exact G.
  - cbn [float_opt_truthy negb]. intros H.
    destruct (search_totals_inv _ _ _ H) as [E | (p & m & _ & _ & A)].
    + discriminate.
    + apply accepted_amount_spec in A. tauto.
Qed.

Lemma search_totals_none (ps : list regex) (text : pystr) :
  (forall p, In p ps -> re_search flag_IM p text = None) ->
  search_totals ps text None = None.
Proof.
  induction ps as [| p ps IH]; simpl; intros H; [reflexivity |].
  rewrite (H p (or_introl eq_refl)). apply IH. intros q I. apply H. right; exact I.
Qed.

(** No total is found when no stripped line and no place of the text
    matches a total pattern. *)
Lemma find_total_none (text : pystr) (lines : list pystr) :
  (forall l p, In l lines -> In p total_patterns ->
               re_match flag_I p (strip l) = None) ->
  (forall p, In p total_patterns -> re_search flag_IM p text = None) ->
  find_total text lines = None.
Proof.
  intros Hl Hs. unfold find_total. cbv zeta.
  assert (S : scan_totals (rev lines) None = None).
  { rewrite <- (app_nil_r (rev lines)). rewrite scan_totals_skip; [reflexivity |].
    intros l I p m Ip M. apply in_rev in I. rewrite (Hl l p I Ip) in M. discriminate. }
  rewrite S. cbn [float_opt_truthy negb]. apply search_totals_none. exact Hs.
Qed.

End OrdersFacts.

(* ===================================================================== *)
(** ** The completeness gate *)
(* ===================================================================== *)

Lemma truthy_some (o : option pystr) :
  truthy o = true -> exists s, o = Some s /\ s <> [].
Proof.
  destruct o as [[| c s] |]; simpl; try discriminate.
  intros _. exists (c :: s). split; [reflexivity | discriminate].
Qed.

Lemma complete_fields (data : Orders.order_data) :
  Orders.complete data = true ->
  truthy (Orders.date data) = true
  /\ truthy (Orders.restaurant_name data) = true
  /\ Orders.float_opt_truthy (Orders.total data) = true.
Proof.
  unfold Orders.complete. intros H.
  apply andb_prop in H. destruct H as [H T].
  apply andb_prop in H. destruct H as [D R]. auto.
Qed.

Lemma extract_order_text_inv (pdf_path text : pystr) (data : Orders.order_data) :
  Orders.extract_order_text pdf_path text = Some data ->
  data = Orders.build_order pdf_path text /\ Orders.complete data = true.
Proof.
  unfold Orders.extract_order_text.
  destruct (negb (nonempty text)); [discriminate |].
  destruct (Orders.complete (Orders.build_order pdf_path text)) eqn:C; [| discriminate].
  intros E; inversion E; subst. auto.
Qed.

Lemma extract_order_data_inv (pdf_path : pystr) (pdf : pdf_file) (data : Orders.order_data) :
  Orders.extract_order_data pdf_path pdf = Some data ->
  exists pages text,
    pdf = Pages pages /\ Orders.read_pages pages [] = Some text
    /\ data = Orders.build_order pdf_path text /\ Orders.complete data = true.
Proof.
  destruct pdf as [| pages]; simpl; [discriminate |].
  destruct (Orders.read_pages pages []) as [text |] eqn:R; [| discriminate].
  intros H. apply extract_order_text_inv in H. destruct H as [E C].
  exists pages, text. auto.
Qed.

(** C1 (as amended).  The strict parser [extract_order_data] returns
    [None] for every document whose text has no match of the date
    pattern, or none of the merchant pattern, or none of the total
    patterns (on any stripped line or anywhere in the text), and every
    record it returns carries a non-empty date, a non-empty merchant
    name and a total.  The sheet-oriented parser [extract_invoice_data]
    makes no such test: it returns a record for every document it can
    open. *)
Theorem completeness_gate (pdf_path : pystr) (pages : list (option pystr)) :
  (forall text,
      Orders.read_pages pages [] = Some text ->
      re_search no_flags Orders.date_re text = None
      \/ re_search no_flags Orders.restaurant_re text = None
      \/ ((forall l p, In l (split_on NL text) -> In p Orders.total_patterns ->
                       re_match flag_I p (strip l) = None)
          /\ (forall p, In p Orders.total_patterns -> re_search flag_IM p text = None)) ->
      Orders.extract_order_data pdf_path (Pages pages) = None)
  /\ (forall data,
         Orders.extract_order_data pdf_path (Pages pages) = Some data ->
         (exists d, Orders.date data = Some d /\ d <> [])
         /\ (exists r, Orders.restaurant_name data = Some r /\ r <> [])
         /\ (exists v, Orders.total data = Some v))
  /\ (exists r, Sheets.extract_invoice_data pdf_path (Pages pages) = Some r).
Proof.
  split; [| split].
  - intros text R H.
    destruct (Orders.extract_order_data pdf_path (Pages pages)) as [data |] eqn:E;
      [| reflexivity].
    exfalso. apply extract_order_data_inv in E.
    destruct E as (pages' & text' & P & R' & B & C).
    inversion P; subst pages'. rewrite R in R'. inversion R'; subst text'.
    apply complete_fields in C. destruct C as (D & Rn & T). subst data.
    unfold Orders.build_order in D, Rn, T. cbn [Orders.date Orders.restaurant_name Orders.total] in D, Rn, T.
    destruct H as [H | [H | H]].
    + unfold Orders.find_date in D. rewrite H in D. discriminate.
    + unfold Orders.find_restaurant in Rn. rewrite H in Rn. discriminate.
    + destruct H as [Hl Hs].
      rewrite (OrdersFacts.find_total_none text (split_on NL text) Hl Hs) in T.
      discriminate.
  - intros data E. apply extract_order_data_inv in E.
    destruct E as (pages' & text & _ & _ & _ & C).
    apply complete_fields in C. destruct C as (D & Rn & T).
    split; [apply truthy_some; exact D |].
    split; [apply truthy_some; exact Rn |].
    destruct (Orders.total data) as [v |]; [exists v; reflexivity | discriminate].
  - eexists. reflexivity.
Qed.

(** A text without any label is refused by the strict parser. *)
Lemma completeness_gate_witness :
  Orders.extract_order_data Samples.invoice_path (Pages [Some Samples.letter]) = None.
Proof.
  refine (proj1 (completeness_gate Samples.invoice_path [Some Samples.letter])
                 (Samples.letter ++ [NL]) _ _).
  - vm_compute. reflexivity.
  - left. vm_compute. reflexivity.
Defined.

(** C1, the claim as stated, fails on the sheet-oriented parser: for the
    same text it returns a record whose date, merchant and amount are
    all empty. *)
Lemma sheet_parser_keeps_partial_record :
  exists r,
    Sheets.extract_invoice_data Samples.invoice_path (Pages [Some Samples.letter]) = Some r
    /\ Sheets.date r = [] /\ Sheets.restaurant r = [] /\ Sheets.amount r = [].
Proof.
  eexists. split; [reflexivity |]. vm_compute. auto.
Qed.

(* ===================================================================== *)
(** ** The threshold on the total *)
(* ===================================================================== *)

(** C10.  Every record the strict parser returns has a total, and the
    total is greater than 20 by the comparison of floats the code makes. *)
Theorem accepted_total_above_twenty
        (pdf_path : pystr) (pdf : pdf_file) (data : Orders.order_data) :
  Orders.extract_order_data pdf_path pdf = Some data ->
  exists v, Orders.total data = Some v /\ float_gtb v twenty = true.
Proof.
  intros E. apply extract_order_data_inv in E.
  destruct E as (pages & text & _ & _ & B & C).
  apply complete_fields in C. destruct C as (_ & _ & T).
  destruct (Orders.total data) as [v |] eqn:V; [| discriminate].
  exists v. split; [reflexivity |].
  subst data. unfold Orders.build_order in V. cbn [Orders.total] in V.
  exact (OrdersFacts.find_total_gt _ _ V).
Qed.

Lemma accepted_total_above_twenty_witness :
  exists data,
    Orders.extract_order_data Samples.invoice_path (Pages [Some Samples.invoice]) = Some data
    /\ exists v, Orders.total data = Some v /\ float_gtb v twenty = true.
Proof.
  eexists. split; [vm_compute; reflexivity |].
  apply (@accepted_total_above_twenty Samples.invoice_path (Pages [Some Samples.invoice])).
  vm_compute. reflexivity.
Defined.

(* ===================================================================== *)
(** ** Which total line is taken *)
(* ===================================================================== *)

Lemma no_total_on_low (l : pystr) :
  (forall v, Orders.total_line l v -> float_gtb v twenty = false) ->
  Orders.no_total_on l.
Proof.
  intros H p m I M. apply OrdersFacts.accepted_amount_none.
  intros v F. apply H. exists p, m. auto.
Qed.

Lemma total_line_not_blank (line : pystr) (v : float) :
  Orders.total_line line v -> nonempty (strip line) = true.
Proof.
  intros (p & m & I & M & _).
  destruct (strip line) as [| c t] eqn:S; [| reflexivity].
  rewrite (OrdersFacts.total_patterns_need_text I) in M. discriminate.
Qed.

(** C2 (as amended), for the strict parser.  When the text has a line
    that a total pattern matches with an amount above 20, and no line
    below it does, the total of the record is an amount above 20 read on
    that line: lines below with 20 or less are passed over, lines above
    are never reached. *)
Theorem bottommost_total_wins
        (pdf_path text : pystr) (above below : list pystr) (line : pystr) :
  split_on NL text = above ++ line :: below ->
  (exists v, Orders.total_line line v /\ float_gtb v twenty = true) ->
  (forall l v, In l below -> Orders.total_line l v -> float_gtb v twenty = false) ->
  exists v,
    Orders.total_line line v /\ float_gtb v twenty = true
    /\ Orders.total (Orders.build_order pdf_path text) = Some v.
Proof.
  intros L (v & TL & G) Low.
  unfold Orders.build_order. cbn [Orders.total].
  unfold Orders.find_total. cbv zeta. rewrite L.
  rewrite rev_app_distr. cbn [rev]. rewrite <- app_assoc. cbn [app].
  rewrite OrdersFacts.scan_totals_skip.
  2:{ intros l I. apply no_total_on_low. intros w. apply Low. apply in_rev. exact I. }
  rewrite OrdersFacts.scan_totals_cons.
  rewrite (total_line_not_blank TL). cbn [negb]. cbv zeta.
  destruct TL as (p & m & I & M & F).
  destruct (@OrdersFacts.try_patterns_hit Orders.total_patterns (strip line)) as [w T].
  { exists p, m, v. split; [exact I |]. split; [exact M |].
    apply OrdersFacts.accepted_amount_spec. auto. }
  rewrite T.
  destruct (OrdersFacts.try_patterns_inv _ _ _ T) as [E | (q & m' & I' & M' & A')];
    [discriminate |].
  apply OrdersFacts.accepted_amount_spec in A'. destruct A' as [F' G'].
  assert (TT : Orders.float_opt_truthy (Some w) = true)
    by (cbn [Orders.float_opt_truthy]; apply gt_twenty_truthy; exact G').
  rewrite TT. cbv iota. rewrite TT. cbn [negb].
  exists w. split; [exists q, m'; repeat split; assumption |].
  split; [assumption | reflexivity].
Qed.

Ltac total_line_cases H :=
  let p := fresh "p" in
  let m := fresh "m" in
  let I := fresh "I" in
  let M := fresh "M" in
  let F := fresh "F" in
  destruct H as (p & m & I & M & F);
  repeat (destruct I as [I | I]; [subst p |]); try contradiction;
  vm_compute in M; try discriminate;
  inversion M; subst m; vm_compute in F; inversion F; subst; vm_compute; reflexivity.

(** On the sample invoice the last total line reads 15 and is passed
    over; the line above it, 1,074.75, is the one taken. *)
Lemma bottommost_total_wins_witness :
  exists v,
    Orders.total_line (u "Total ₹1,074.75") v /\ float_gtb v twenty = true
    /\ Orders.total (Orders.build_order Samples.invoice_path Samples.invoice) = Some v.
Proof.
  refine (@bottommost_total_wins Samples.invoice_path Samples.invoice
            (firstn 10 (split_on NL Samples.invoice))
            (skipn 11 (split_on NL Samples.invoice))
            (u "Total ₹1,074.75") _ _ _).
  - vm_compute. reflexivity.
  - eexists. split.
    + eexists. eexists. split; [left; reflexivity |].
      split; vm_compute; reflexivity.
    + vm_compute. reflexivity.
  - intros l v I H. vm_compute in I.
    destruct I as [<- | [<- | []]]; total_line_cases H.
Defined.

(** C2, the claim as stated, fails on the sheet-oriented parser: of two
    total lines reading 100 and 500 it keeps the upper one. *)
Lemma sheet_parser_takes_topmost_total :
  exists r,
    Sheets.extract_invoice_data Samples.invoice_path (Pages [Some Samples.two_totals]) = Some r
    /\ Sheets.amount r = u "₹100"
    /\ nth_error (split_on NL Samples.two_totals) 2 = Some (u "Total ₹500").
Proof.
  eexists. split; [reflexivity |]. vm_compute. auto.
Qed.

(* ===================================================================== *)
(** ** The order time *)
(* ===================================================================== *)

Lemma is_digit_digit_chr (z : Z) : is_digit (digit_chr z) = true.
Proof.
  unfold is_digit, digit_chr.
  pose proof (Z.mod_pos_bound z 10 ltac:(lia)) as B.
  apply andb_true_intro. split; apply N.leb_le; lia.
Qed.

Lemma strftime_not_empty (d : date_t) : strftime_Ymd d <> [].
Proof.
  unfold strftime_Ymd, year_text.
  destruct (d_year d <? 10)%Z; [discriminate |].
  destruct (d_year d <? 100)%Z; [discriminate |].
  destruct (d_year d <? 1000)%Z; discriminate.
Qed.

(** The stored form is YYYY-MM-DD exactly from the year 1000 on. *)
Lemma strftime_shape (d : date_t) :
  iso_date_shape (strftime_Ymd d) = true <-> (1000 <= d_year d)%Z.
Proof.
  unfold strftime_Ymd, year_text.
  destruct (d_year d <? 10)%Z eqn:A; [| destruct (d_year d <? 100)%Z eqn:B;
    [| destruct (d_year d <? 1000)%Z eqn:C]];
    unfold pad4, pad2; change (u "-") with [45%N]; cbn [app]; unfold iso_date_shape.
  - apply Z.ltb_lt in A. split; [discriminate | lia].
  - apply Z.ltb_lt in B. split; [discriminate | lia].
  - apply Z.ltb_lt in C. split; [discriminate | lia].
  - apply Z.ltb_ge in C. rewrite !is_digit_digit_chr. split; [lia | reflexivity].
Qed.

Lemma strptime_checked (months : list pystr) (fmt : string) (s : pystr) (d : date_t) :
  strptime months fmt s = Some d ->
  check_date_fields (d_year d) (d_month d) (d_day d) = true.
Proof.
  unfold strptime.
  destruct (re_match flag_I _ s) as [m |]; [| discriminate].
  destruct (m_rest (m_end m)); [| discriminate].
  destruct (index_of _ months 1) as [mo |]; [| discriminate].
  destruct (check_date_fields _ mo _) eqn:C; [| discriminate].
  intros E; inversion E; subst d. exact C.
Qed.

Lemma digit_not_space (c : N) : is_digit c = true -> is_space c = false.
Proof.
  unfold is_digit. intros H. apply andb_prop in H. destruct H as [L U].
  apply N.leb_le in L. apply N.leb_le in U.
  assert (E : (c = 48 \/ c = 49 \/ c = 50 \/ c = 51 \/ c = 52 \/ c = 53 \/ c = 54
               \/ c = 55 \/ c = 56 \/ c = 57)%N) by lia.
  repeat (destruct E as [-> | E]; [reflexivity |]). subst c. reflexivity.
Qed.

(** The date pattern captures at least one character. *)
Lemma date_capture_not_empty (text : pystr) (m : rmatch) :
  re_search no_flags Orders.date_re text = Some m -> group 1 m <> [].
Proof.
  intros H. unfold re_search in H. apply search_from_inv in H.
  destruct H as (prev & R). apply run_tail in R. destruct R as (st' & R).
  assert (T : exists body, tail_of Orders.date_re = RGrp 1 body /\ 1 <= min_len body).
  { eexists. split; [reflexivity | vm_compute; lia]. }
  destruct T as (body & T & L). rewrite T in R.
  apply group_capture in R. destruct R as (v & A & Lv).
  unfold group. rewrite A. intros ->. simpl in Lv. lia.
Qed.

(** *** The matcher and the list of its successes *)

Lemma first_some_app (k : mstate -> option mstate) (l1 l2 : list mstate) :
  first_some k (l1 ++ l2)
  = match first_some k l1 with Some r => Some r | None => first_some k l2 end.
Proof.
  induction l1 as [| x t IH]; [reflexivity |]. cbn [app first_some].
  destruct (k x); [reflexivity | exact IH].
Qed.

Lemma first_some_flat_map (k : mstate -> option mstate) (g : mstate -> list mstate)
      (l : list mstate) :
  first_some k (flat_map g l) = first_some (fun x => first_some k (g x)) l.
Proof.
  induction l as [| x t IH]; [reflexivity |]. cbn [flat_map first_some].
  rewrite first_some_app, IH. reflexivity.
Qed.

Lemma first_some_map (k : mstate -> option mstate) (g : mstate -> mstate)
      (l : list mstate) :
  first_some k (map g l) = first_some (fun x => k (g x)) l.
Proof.
  induction l as [| x t IH]; [reflexivity |]. cbn [map first_some].
  rewrite IH. reflexivity.
Qed.

Lemma first_some_ext (k k' : mstate -> option mstate) (l : list mstate) :
  (forall x, k x = k' x) -> first_some k l = first_some k' l.
Proof.
  intros E. induction l as [| x t IH]; [reflexivity |]. cbn [first_some].
  rewrite E, IH. reflexivity.
Qed.

Section AllWays.
Variable f : flags.

Lemma rep_all_cons (g : bool) (s : cset) (lo : nat) (hi : option nat) (prev : option N)
      (c : N) (t : pystr) :
  rep_all f g s lo hi prev (c :: t) =
  let stop := match lo with 0 => [(prev, c :: t)] | S _ => [] end in
  let more :=
    if hi_open hi && cset_has f s c
    then rep_all f g s (pred lo) (hi_pred hi) (Some c) t
    else [] in
  if g then more ++ stop else stop ++ more.
Proof. reflexivity. Qed.

Lemma rep_all_nil (g : bool) (s : cset) (lo : nat) (hi : option nat) (prev : option N) :
  rep_all f g s lo hi prev [] = match lo with 0 => [(prev, [])] | S _ => [] end.
Proof. destruct g; simpl; [reflexivity | apply app_nil_r]. Qed.

(** A repetition tries its continuation on the stopping places of
    [rep_all], in their order. *)
Lemma rep_is_first (g : bool) (s : cset) (caps : list (nat * pystr))
      (k : mstate -> option mstate) (inp : pystr) :
  forall (lo : nat) (hi : option nat) (prev : option N),
    rep f g s lo hi prev inp (fun p t => k (MState p t caps))
    = first_some k (map (fun pt => MState (fst pt) (snd pt) caps)
                        (rep_all f g s lo hi prev inp)).
Proof.
  induction inp as [| c t IH]; intros lo hi prev.
  - rewrite rep_nil, rep_all_nil. destruct lo; [| reflexivity].
    cbn [map first_some fst snd]. destruct (k _); reflexivity.
  - rewrite rep_cons, rep_all_cons. cbv zeta.
    destruct (hi_open hi && cset_has f s c).
    + rewrite IH. destruct g; rewrite map_app, first_some_app;
        destruct lo; cbn [map first_some fst snd];
        repeat match goal with
               | |- context [k ?x] => destruct (k x)
               end; reflexivity.
    + destruct g; cbn [app]; rewrite ?app_nil_r;
        destruct lo; cbn [map first_some fst snd];
        repeat match goal with
               | |- context [k ?x] => destruct (k x)
               end; reflexivity.
Qed.

(** The matcher returns what its continuation gives on the first of
    the ways of [all_ways] that the continuation accepts. *)
Theorem run_is_first (r : regex) :
  forall (st : mstate) (k : mstate -> option mstate),
    run f r st k = first_some k (all_ways f r st).
Proof.
  induction r as [| | s | a IHa b IHb | a IHa b IHb | g lo hi s | n a IHa];
    intros st k; cbn [run all_ways].
  - cbn [first_some]. destruct (k st); reflexivity.
  - destruct (at_bol f st); [| reflexivity].
    cbn [first_some]. destruct (k st); reflexivity.
  - destruct (m_rest st) as [| c t]; [reflexivity |].
    destruct (cset_has f s c); [| reflexivity].
    cbn [first_some]. destruct (k _); reflexivity.
  - rewrite IHa, first_some_flat_map. apply first_some_ext. intros x. apply IHb.
  - rewrite IHa, IHb, first_some_app. reflexivity.
  - apply rep_is_first.
  - rewrite IHa, first_some_map. reflexivity.
Qed.

(** [re.match] takes the first of the ways. *)
Lemma re_match_first (r : regex) (s : pystr) :
  re_match f r s
  = match all_ways f r (MState None s []) with
    | e :: _ => Some (RMatch s e)
    | [] => None
    end.
Proof.
  unfold re_match, match_at. rewrite run_is_first.
  destruct (all_ways f r (MState None s [])); reflexivity.
Qed.

(** Every stopping place of a repetition lies after a run of the class. *)
Lemma rep_all_sound (g : bool) (s : cset) (inp : pystr) :
  forall (lo : nat) (hi : option nat) (prev p : option N) (t : pystr),
    In (p, t) (rep_all f g s lo hi prev inp) ->
    exists w, inp = w ++ t /\ forallb (cset_has f s) w = true
              /\ lo <= List.length w /\ hi_allows hi (List.length w).
Proof.
  induction inp as [| c rest IH]; intros lo hi prev p t I.
  - rewrite rep_all_nil in I. destruct lo; [| destruct I].
    destruct I as [E | []]. inversion E; subst. exists []. simpl.
    repeat split; auto. destruct hi; simpl; lia.
  - rewrite rep_all_cons in I. cbv zeta in I.
    assert (Stop : In (p, t) (match lo with 0 => [(prev, c :: rest)] | S _ => [] end) ->
                   exists w, c :: rest = w ++ t /\ forallb (cset_has f s) w = true
                             /\ lo <= List.length w /\ hi_allows hi (List.length w)).
    { destruct lo; [| intros []]. intros [E | []]. inversion E; subst.
      exists []. simpl. repeat split; auto. destruct hi; simpl; lia. }
    assert (More : In (p, t) (if hi_open hi && cset_has f s c
                              then rep_all f g s (pred lo) (hi_pred hi) (Some c) rest
                              else []) ->
                   exists w, c :: rest = w ++ t /\ forallb (cset_has f s) w = true
                             /\ lo <= List.length w /\ hi_allows hi (List.length w)).
    { destruct (hi_open hi && cset_has f s c) eqn:C; [| intros []].
      apply andb_prop in C. destruct C as [O C]. intros J.
      destruct (IH _ _ _ _ _ J) as (w & E & A & L & B).
      exists (c :: w). simpl. rewrite C, A, E. repeat split; auto; [lia |].
      destruct hi as [[| h] |]; simpl in *; try discriminate; lia. }
    destruct g; apply in_app_or in I; destruct I; auto.
Qed.

(** Every way of [all_ways] took a word of the expression and closed
    its groups. *)
Theorem all_ways_sound (r : regex) :
  forall (st st' : mstate),
    In st' (all_ways f r st) ->
    exists w caps,
      m_rest st = w ++ m_rest st' /\ m_caps st' = caps ++ m_caps st
      /\ parses f r w caps.
Proof.
  induction r as [| | s | a IHa b IHb | a IHa b IHb | g lo hi s | n a IHa];
    intros st st' I; cbn [all_ways] in I.
  - destruct I as [<- | []]. exists [], []. simpl. repeat split; auto.
  - destruct (at_bol f st); [| destruct I]. destruct I as [<- | []].
    exists [], []. simpl. repeat split; auto.
  - destruct (m_rest st) as [| c t] eqn:R; [destruct I |].
    destruct (cset_has f s c) eqn:C; [| destruct I]. destruct I as [<- | []].
    exists [c], []. cbn [m_rest m_caps app parses]. repeat split; auto.
    exists c. auto.
  - apply in_flat_map in I. destruct I as (st1 & I1 & I2).
    destruct (IHa _ _ I1) as (w1 & c1 & E1 & K1 & P1).
    destruct (IHb _ _ I2) as (w2 & c2 & E2 & K2 & P2).
    exists (w1 ++ w2), (c2 ++ c1). rewrite E1, E2, K2, K1, !app_assoc.
    repeat split; auto. cbn [parses]. exists w1, w2, c1, c2. auto.
  - apply in_app_or in I. destruct I as [I | I].
    + destruct (IHa _ _ I) as (w & c & E & K & P). exists w, c. cbn [parses]. auto.
    + destruct (IHb _ _ I) as (w & c & E & K & P). exists w, c. cbn [parses]. auto.
  - apply in_map_iff in I. destruct I as ([p t] & <- & I).
    destruct (rep_all_sound _ _ _ _ _ _ _ _ I) as (w & E & A & L & B).
    exists w, []. cbn [m_rest m_caps fst snd app parses]. repeat split; auto.
  - apply in_map_iff in I. destruct I as (st1 & <- & I).
    destruct (IHa _ _ I) as (w & c & E & K & P).
    exists w, ((n, w) :: c). cbn [m_rest m_caps parses].
    rewrite E, taken_app, K. repeat split; auto. exists c. auto.
Qed.

(** The groups a parse closes are groups of the expression. *)
Lemma parses_groups (r : regex) :
  forall (w : pystr) (caps : list (nat * pystr)),
    parses f r w caps -> forall n v, In (n, v) caps -> In n (group_numbers r).
Proof.
  induction r as [| | s | a IHa b IHb | a IHa b IHb | g lo hi s | n a IHa];
    intros w caps P m v I; cbn [parses group_numbers] in *.
  - destruct P as [_ ->]. destruct I.
  - destruct P as [_ ->]. destruct I.
  - destruct P as [_ ->]. destruct I.
  - destruct P as (w1 & w2 & c1 & c2 & _ & -> & P1 & P2).
    apply in_or_app. apply in_app_or in I. destruct I as [I | I]; eauto.
  - apply in_or_app. destruct P as [P | P]; eauto.
  - destruct P as [_ ->]. destruct I.
  - destruct P as (c & P & ->). destruct I as [E | I]; [inversion E; left; reflexivity |].
    right. eauto.
Qed.

End AllWays.

(** *** The parts of a format on the parts of an order time *)

Lemma format_full :
  compile_text (time_pattern false (u "%d %B %Y %I:%M %p")) = format_re full_month_alts.
Proof. vm_compute. reflexivity. Qed.

Lemma format_short :
  compile_text (time_pattern false (u "%d %b %Y %I:%M %p")) = format_re short_month_alts.
Proof. vm_compute. reflexivity. Qed.

Lemma taken_same (s : pystr) : taken s s = [].
Proof. unfold taken. rewrite Nat.sub_diag. reflexivity. Qed.

Lemma flat_map_dead (A B : Type) (g : A -> list B) (l : list A) :
  Forall (fun x => g x = []) l -> flat_map g l = [].
Proof.
  induction 1 as [| x t E _ IH]; [reflexivity |]. cbn [flat_map]. rewrite E, IH. reflexivity.
Qed.

Section Ways.
Variable f : flags.

Lemma ways_cat (a b : regex) (st : mstate) :
  all_ways f (RCat a b) st = flat_map (all_ways f b) (all_ways f a st).
Proof. reflexivity. Qed.

Lemma ways_grp (n : nat) (a : regex) (st : mstate) :
  all_ways f (RGrp n a) st
  = map (fun st' => MState (m_prev st') (m_rest st')
                           ((n, taken (m_rest st) (m_rest st')) :: m_caps st'))
        (all_ways f a st).
Proof. reflexivity. Qed.

(** When only the first way of [a] lets [b] go on, the ways of [a]
    followed by [b] are those of [b] from there. *)
Lemma ways_step (a b : regex) (st st1 : mstate) (others : list mstate) :
  all_ways f a st = st1 :: others ->
  Forall (fun x => all_ways f b x = []) others ->
  all_ways f (RCat a b) st = all_ways f b st1.
Proof.
  intros E D. rewrite ways_cat, E. cbn [flat_map].
  rewrite (flat_map_dead _ D), app_nil_r. reflexivity.
Qed.

Lemma ways_dead (a b : regex) (st : mstate) :
  Forall (fun x => all_ways f b x = []) (all_ways f a st) ->
  all_ways f (RCat a b) st = [].
Proof. intros D. rewrite ways_cat. apply flat_map_dead. exact D. Qed.

Lemma dead_cat (a b : regex) (l : list mstate) :
  Forall (fun x => all_ways f a x = []) l ->
  Forall (fun x => all_ways f (RCat a b) x = []) l.
Proof.
  intros D. rewrite Forall_forall in *. intros x I.
  rewrite ways_cat, (D x I). reflexivity.
Qed.

End Ways.

Ltac text_values :=
  repeat match goal with
         | |- context [numeral ?z] =>
             let t := eval vm_compute in (numeral z) in change (numeral z) with t
         | |- context [pad2 ?z] =>
             let t := eval vm_compute in (pad2 z) in change (pad2 z) with t
         end.

(** The ways of a group around alternatives, on a text whose beginning
    is known: the alternatives are run, and the captures written out. *)
Ltac group_ways :=
  rewrite ways_grp;
  match goal with
  | |- context [all_ways ?f ?a ?st] =>
      let t := eval vm_compute in (all_ways f a st) in
      change (all_ways f a st) with t
  end;
  cbn [map m_prev m_rest m_caps].

Lemma day_cases (d : Z) :
  (1 <= d <= 31)%Z ->
  (d = 1 \/ d = 2 \/ d = 3 \/ d = 4 \/ d = 5 \/ d = 6 \/ d = 7 \/ d = 8 \/ d = 9 \/ d = 10
   \/ d = 11 \/ d = 12 \/ d = 13 \/ d = 14 \/ d = 15 \/ d = 16 \/ d = 17 \/ d = 18
   \/ d = 19 \/ d = 20 \/ d = 21 \/ d = 22 \/ d = 23 \/ d = 24 \/ d = 25 \/ d = 26
   \/ d = 27 \/ d = 28 \/ d = 29 \/ d = 30 \/ d = 31)%Z.
Proof. lia. Qed.

(** The day: the numeral is taken whole, and the ways that take less of
    it stop before a digit, where no blank can follow. *)
Lemma day_ways (d : Z) (dtext : pystr) (p : option N) (rest : pystr)
      (cs : list (nat * pystr)) :
  (1 <= d <= 31)%Z -> dtext = numeral d \/ dtext = pad2 d ->
  exists lc others,
    all_ways flag_I (RGrp 1 day_alts) (MState p (dtext ++ 32%N :: rest) cs)
    = MState (Some lc) (32%N :: rest) ((1, dtext) :: cs) :: others
    /\ Forall (fun x => all_ways flag_I blanks x = []) others
    /\ py_int dtext = d.
Proof.
  intros B T. apply day_cases in B.
  repeat (destruct B as [-> | B]); try subst d;
    destruct T as [-> | ->]; text_values; group_ways; rewrite taken_app;
    (eexists; eexists; split; [reflexivity |]);
    (split; [repeat constructor | vm_compute; reflexivity]).
Qed.

Lemma hour_cases (h : Z) :
  (1 <= h <= 12)%Z ->
  (h = 1 \/ h = 2 \/ h = 3 \/ h = 4 \/ h = 5 \/ h = 6 \/ h = 7 \/ h = 8 \/ h = 9 \/ h = 10
   \/ h = 11 \/ h = 12)%Z.
Proof. lia. Qed.

(** The hour, before the colon. *)
Lemma hour_ways (h : Z) (htext : pystr) (p : option N) (rest : pystr)
      (cs : list (nat * pystr)) :
  (1 <= h <= 12)%Z -> htext = numeral h \/ htext = pad2 h ->
  exists lc others,
    all_ways flag_I (RGrp 4 hour_alts) (MState p (htext ++ 58%N :: rest) cs)
    = MState (Some lc) (58%N :: rest) ((4, htext) :: cs) :: others
    /\ Forall (fun x => all_ways flag_I (RSet (CIn [CChar 58])) x = []) others.
Proof.
  intros B T. apply hour_cases in B.
  repeat (destruct B as [-> | B]); try subst h;
    destruct T as [-> | ->]; text_values; group_ways; rewrite taken_app;
    (eexists; eexists; split; [reflexivity |]); repeat constructor.
Qed.

Lemma digit_chr_cases (z : Z) :
  (digit_chr z = 48 \/ digit_chr z = 49 \/ digit_chr z = 50 \/ digit_chr z = 51
   \/ digit_chr z = 52 \/ digit_chr z = 53 \/ digit_chr z = 54 \/ digit_chr z = 55
   \/ digit_chr z = 56 \/ digit_chr z = 57)%N.
Proof.
  unfold digit_chr. pose proof (Z.mod_pos_bound z 10 ltac:(lia)) as B.
  assert (C : (z mod 10 = 0 \/ z mod 10 = 1 \/ z mod 10 = 2 \/ z mod 10 = 3 \/ z mod 10 = 4
               \/ z mod 10 = 5 \/ z mod 10 = 6 \/ z mod 10 = 7 \/ z mod 10 = 8
               \/ z mod 10 = 9)%Z) by lia.
  repeat (destruct C as [-> | C]; [tauto |]). rewrite C. tauto.
Qed.

Lemma digit_chr_in_class (z : Z) : cset_has flag_I (CIn [CDigit]) (digit_chr z) = true.
Proof.
  pose proof (digit_chr_cases z) as C.
  repeat (destruct C as [-> | C]; [reflexivity |]). rewrite C. reflexivity.
Qed.

Lemma digit_chr_not_blank (z : Z) : cset_has flag_I (CIn [CSpace]) (digit_chr z) = false.
Proof.
  pose proof (digit_chr_cases z) as C.
  repeat (destruct C as [-> | C]; [reflexivity |]). rewrite C. reflexivity.
Qed.

(** The year: four digits, one way. *)
Lemma year_ways (y : Z) (p : option N) (rest : pystr) (cs : list (nat * pystr)) :
  all_ways flag_I (RGrp 3 year_seq) (MState p (pad4 y ++ rest) cs)
  = [MState (Some (digit_chr y)) rest ((3, pad4 y) :: cs)].
Proof.
  rewrite ways_grp. unfold year_seq, pad4.
  cbn [all_ways flat_map app m_rest m_prev m_caps map].
  do 4 (rewrite digit_chr_in_class; cbn [all_ways flat_map app m_rest m_prev m_caps map]).
  change (digit_chr (y / 1000) :: digit_chr (y / 100) :: digit_chr (y / 10) :: digit_chr y :: rest)
    with ([digit_chr (y / 1000); digit_chr (y / 100); digit_chr (y / 10); digit_chr y] ++ rest).
  rewrite taken_app. reflexivity.
Qed.

(** One blank before a character that is none. *)
Lemma blanks_ways (p : option N) (c : N) (rest : pystr) (cs : list (nat * pystr)) :
  cset_has flag_I (CIn [CSpace]) c = false ->
  all_ways flag_I blanks (MState p (32%N :: c :: rest) cs)
  = [MState (Some 32%N) (c :: rest) cs].
Proof.
  intros H. unfold blanks. cbn [all_ways m_prev m_rest m_caps].
  rewrite rep_all_cons. cbv zeta.
  change (hi_open None && cset_has flag_I (CIn [CSpace]) 32) with true. cbv iota.
  cbn [pred hi_pred]. rewrite rep_all_cons. cbv zeta. rewrite H.
  rewrite andb_false_r. reflexivity.
Qed.

Lemma minute_cases (mi : Z) :
  (0 <= mi <= 59)%Z ->
  (mi = 0 \/ mi = 1 \/ mi = 2 \/ mi = 3 \/ mi = 4 \/ mi = 5 \/ mi = 6 \/ mi = 7 \/ mi = 8
   \/ mi = 9 \/ mi = 10 \/ mi = 11 \/ mi = 12 \/ mi = 13 \/ mi = 14 \/ mi = 15 \/ mi = 16
   \/ mi = 17 \/ mi = 18 \/ mi = 19 \/ mi = 20 \/ mi = 21 \/ mi = 22 \/ mi = 23 \/ mi = 24
   \/ mi = 25 \/ mi = 26 \/ mi = 27 \/ mi = 28 \/ mi = 29 \/ mi = 30 \/ mi = 31 \/ mi = 32
   \/ mi = 33 \/ mi = 34 \/ mi = 35 \/ mi = 36 \/ mi = 37 \/ mi = 38 \/ mi = 39 \/ mi = 40
   \/ mi = 41 \/ mi = 42 \/ mi = 43 \/ mi = 44 \/ mi = 45 \/ mi = 46 \/ mi = 47 \/ mi = 48
   \/ mi = 49 \/ mi = 50 \/ mi = 51 \/ mi = 52 \/ mi = 53 \/ mi = 54 \/ mi = 55 \/ mi = 56
   \/ mi = 57 \/ mi = 58 \/ mi = 59)%Z.
Proof. lia. Qed.

(** The minute, of two digits, before a blank. *)
Lemma minute_ways (mi : Z) (p : option N) (rest : pystr) (cs : list (nat * pystr)) :
  (0 <= mi <= 59)%Z ->
  exists lc others,
    all_ways flag_I (RGrp 5 minute_alts) (MState p (pad2 mi ++ 32%N :: rest) cs)
    = MState (Some lc) (32%N :: rest) ((5, pad2 mi) :: cs) :: others
    /\ Forall (fun x => all_ways flag_I blanks x = []) others.
Proof.
  intros B. apply minute_cases in B.
  repeat (destruct B as [-> | B]); try subst mi;
    text_values; group_ways; rewrite taken_app;
    (eexists; eexists; split; [reflexivity |]); repeat constructor.
Qed.

(** AM or PM, at the end of the text. *)
Lemma ampm_ways (pm : bool) (p : option N) (cs : list (nat * pystr)) :
  exists lc,
    all_ways flag_I (RGrp 6 ampm_alts) (MState p (if pm then u "PM" else u "AM") cs)
    = [MState (Some lc) [] ((6, if pm then u "PM" else u "AM") :: cs)].
Proof.
  destruct pm; eexists; rewrite ways_grp;
    match goal with
    | |- context [all_ways ?f ?a ?st] =>
        let t := eval vm_compute in (all_ways f a st) in
        change (all_ways f a st) with t
    end;
    cbn [map m_prev m_rest m_caps]; rewrite <- (app_nil_r (u _)) at 1;
    rewrite taken_app; reflexivity.
Qed.

Lemma colon_ways (p : option N) (rest : pystr) (cs : list (nat * pystr)) :
  all_ways flag_I (RSet (CIn [CChar 58])) (MState p (58%N :: rest) cs)
  = [MState (Some 58%N) rest cs].
Proof. reflexivity. Qed.

(** *** A format on the whole order time *)

(** The text begins with a character that is no blank. *)
Lemma blanks_before (p : option N) (w : pystr) (cs : list (nat * pystr)) :
  (exists c t, w = c :: t /\ cset_has flag_I (CIn [CSpace]) c = false) ->
  all_ways flag_I blanks (MState p (32%N :: w) cs) = [MState (Some 32%N) w cs].
Proof. intros (c & t & -> & H). apply blanks_ways. exact H. Qed.

Lemma numeral_head (z : Z) (text rest : pystr) :
  text = numeral z \/ text = pad2 z ->
  exists c t, text ++ rest = c :: t /\ cset_has flag_I (CIn [CSpace]) c = false.
Proof.
  intros [-> | ->]; unfold numeral, pad2; [destruct (z <? 10)%Z |];
    cbn [app]; eexists; eexists; (split; [reflexivity | apply digit_chr_not_blank]).
Qed.

Lemma pad4_head (y : Z) (rest : pystr) :
  exists c t, pad4 y ++ rest = c :: t /\ cset_has flag_I (CIn [CSpace]) c = false.
Proof.
  unfold pad4. cbn [app]. eexists; eexists. split; [reflexivity | apply digit_chr_not_blank].
Qed.

Lemma head_app (w rest : pystr) :
  (exists c t, w = c :: t /\ cset_has flag_I (CIn [CSpace]) c = false) ->
  exists c t, w ++ rest = c :: t /\ cset_has flag_I (CIn [CSpace]) c = false.
Proof. intros (c & t & -> & H). exists c, (t ++ rest). auto. Qed.

Section Format.
Variable M : regex.
Variables (d y h mi : Z) (dtext mtext htext : pystr) (pm : bool).
Hypothesis Bd : (1 <= d <= 31)%Z.
Hypothesis Bh : (1 <= h <= 12)%Z.
Hypothesis Bmi : (0 <= mi <= 59)%Z.
Hypothesis Td : dtext = numeral d \/ dtext = pad2 d.
Hypothesis Th : htext = numeral h \/ htext = pad2 h.
Hypothesis Hhead :
  exists c t, mtext = c :: t /\ cset_has flag_I (CIn [CSpace]) c = false.

Lemma order_time_text_eq :
  order_time_text dtext mtext y htext mi pm
  = dtext ++ 32%N :: (mtext ++ 32%N :: (pad4 y ++ 32%N :: (htext ++ 58%N ::
      (pad2 mi ++ 32%N :: (if pm then u "PM" else u "AM"))))).
Proof. reflexivity. Qed.

(** Up to the month: the day and the blank after it. *)
Lemma format_ways_start :
  exists lc,
    all_ways flag_I (format_re M) (MState None (order_time_text dtext mtext y htext mi pm) [])
    = all_ways flag_I
        (RCat (RGrp 2 M)
          (RCat blanks
            (RCat (RGrp 3 year_seq)
              (RCat blanks
                (RCat (RGrp 4 hour_alts)
                  (RCat (RSet (CIn [CChar 58]))
                    (RCat (RGrp 5 minute_alts)
                      (RCat blanks (RGrp 6 ampm_alts)))))))))
        (MState (Some 32%N)
                (mtext ++ 32%N :: (pad4 y ++ 32%N :: (htext ++ 58%N ::
                   (pad2 mi ++ 32%N :: (if pm then u "PM" else u "AM")))))
                [(1, dtext)])
    /\ lc = 32%N.
Proof.
  exists 32%N. split; [| reflexivity].
  rewrite order_time_text_eq. unfold format_re.
  destruct (@day_ways d dtext None
              (mtext ++ 32%N :: (pad4 y ++ 32%N :: (htext ++ 58%N ::
                 (pad2 mi ++ 32%N :: (if pm then u "PM" else u "AM")))))
              [] Bd Td) as (lc1 & o1 & E1 & D1 & _).
  rewrite (@ways_step flag_I _ _ _ _ _ E1 (@dead_cat flag_I _ _ _ D1)).
  rewrite ways_cat, blanks_before by (apply head_app; exact Hhead).
  cbn [flat_map]. rewrite app_nil_r. reflexivity.
Qed.

(** The month is taken whole, in one way. *)
Hypothesis Hok :
  forall p rest cs,
  exists lc,
    all_ways flag_I (RGrp 2 M) (MState p (mtext ++ 32%N :: rest) cs)
    = [MState (Some lc) (32%N :: rest) ((2, mtext) :: cs)].

(** The expression takes the whole text, in one way, and its groups
    hold the parts. *)
Lemma format_ways :
  exists lc,
    all_ways flag_I (format_re M) (MState None (order_time_text dtext mtext y htext mi pm) [])
    = [MState (Some lc) []
              [(6, if pm then u "PM" else u "AM"); (5, pad2 mi); (4, htext);
               (3, pad4 y); (2, mtext); (1, dtext)]].
Proof.
  destruct format_ways_start as (lc0 & E0 & _). rewrite E0. clear E0.
  rewrite ways_cat.
  destruct (Hok (Some 32%N) (pad4 y ++ 32%N :: (htext ++ 58%N ::
                   (pad2 mi ++ 32%N :: (if pm then u "PM" else u "AM"))))
                [(1, dtext)]) as (lc2 & E2).
  rewrite E2. cbn [flat_map]. rewrite app_nil_r.
  rewrite ways_cat, blanks_before by apply pad4_head.
  cbn [flat_map]. rewrite app_nil_r.
  rewrite ways_cat, year_ways. cbn [flat_map]. rewrite app_nil_r.
  rewrite ways_cat, blanks_before by (apply numeral_head with (z := h); exact Th).
  cbn [flat_map]. rewrite app_nil_r.
  destruct (@hour_ways h htext (Some 32%N)
              (pad2 mi ++ 32%N :: (if pm then u "PM" else u "AM"))
              [(3, pad4 y); (2, mtext); (1, dtext)] Bh Th) as (lc4 & o4 & E4 & D4).
  rewrite (@ways_step flag_I _ _ _ _ _ E4 (@dead_cat flag_I _ _ _ D4)).
  rewrite ways_cat, colon_ways. cbn [flat_map]. rewrite app_nil_r.
  destruct (@minute_ways mi (Some 58%N) (if pm then u "PM" else u "AM")
              [(4, htext); (3, pad4 y); (2, mtext); (1, dtext)] Bmi)
    as (lc5 & o5 & E5 & D5).
  rewrite (@ways_step flag_I _ _ _ _ _ E5 (@dead_cat flag_I _ _ _ D5)).
  rewrite ways_cat, blanks_before
    by (destruct pm; eexists; eexists; split; reflexivity).
  cbn [flat_map]. rewrite app_nil_r.
  destruct (ampm_ways pm (Some 32%N) [(5, pad2 mi); (4, htext); (3, pad4 y); (2, mtext);
                                     (1, dtext)]) as (lc6 & E6).
  rewrite E6. exists lc6. reflexivity.
Qed.

End Format.

Section FormatDead.
Variable M : regex.
Variables (d y h mi : Z) (dtext mtext htext : pystr) (pm : bool).
Hypothesis Bd : (1 <= d <= 31)%Z.
Hypothesis Td : dtext = numeral d \/ dtext = pad2 d.
Hypothesis Hhead :
  exists c t, mtext = c :: t /\ cset_has flag_I (CIn [CSpace]) c = false.

(** The month is not taken, or no blank follows what is taken of it. *)
Hypothesis Hdead :
  forall p rest cs,
    Forall (fun x => all_ways flag_I blanks x = [])
           (all_ways flag_I (RGrp 2 M) (MState p (mtext ++ 32%N :: rest) cs)).

Lemma format_ways_dead :
  all_ways flag_I (format_re M) (MState None (order_time_text dtext mtext y htext mi pm) [])
  = [].
Proof.
  destruct (@format_ways_start M d y mi dtext mtext htext pm Bd Td Hhead) as (lc0 & E0 & _).
  rewrite E0. apply ways_dead. apply dead_cat. apply Hdead.
Qed.

End FormatDead.

(** *** The numbers read back *)

Lemma py_int_pad4 (y : Z) : (0 <= y <= 9999)%Z -> py_int (pad4 y) = y.
Proof.
  intros B. unfold py_int, pad4.
  assert (L : lstrip [digit_chr (y / 1000); digit_chr (y / 100); digit_chr (y / 10);
                      digit_chr y]
              = [digit_chr (y / 1000); digit_chr (y / 100); digit_chr (y / 10);
                 digit_chr y]).
  { cbn [lstrip]. rewrite (digit_not_space _ (is_digit_digit_chr _)). reflexivity. }
  rewrite L. cbn [read_digits]. rewrite !is_digit_digit_chr.
  unfold digit_chr.
  replace (48 + Z.to_N ((y / 1000) mod 10) - 48)%N with (Z.to_N ((y / 1000) mod 10)) by lia.
  replace (48 + Z.to_N ((y / 100) mod 10) - 48)%N with (Z.to_N ((y / 100) mod 10)) by lia.
  replace (48 + Z.to_N ((y / 10) mod 10) - 48)%N with (Z.to_N ((y / 10) mod 10)) by lia.
  replace (48 + Z.to_N (y mod 10) - 48)%N with (Z.to_N (y mod 10)) by lia.
  pose proof (Z.mod_pos_bound (y / 1000) 10 ltac:(lia)).
  pose proof (Z.mod_pos_bound (y / 100) 10 ltac:(lia)).
  pose proof (Z.mod_pos_bound (y / 10) 10 ltac:(lia)).
  pose proof (Z.mod_pos_bound y 10 ltac:(lia)).
  rewrite !Z2N.id by lia.
  Z.div_mod_to_equations. lia.
Qed.

Lemma vendor_date_checked (y mo d : Z) :
  (1 <= y <= 9999)%Z -> (1 <= mo <= 12)%Z -> (1 <= d <= 31)%Z ->
  check_date_fields y mo d = (d <=? days_in_month y mo)%Z.
Proof.
  intros By Bm Bd. unfold check_date_fields.
  destruct (Z.leb_spec 1 y); [| lia]. destruct (Z.leb_spec y 9999); [| lia].
  destruct (Z.leb_spec 1 mo); [| lia]. destruct (Z.leb_spec mo 12); [| lia].
  destruct (Z.leb_spec 1 d); [| lia]. reflexivity.
Qed.

(** *** The two formats on the vendor's text *)

Section Strptime.
Variables (months : list pystr) (fmt : string) (M : regex).
Variables (d mo y h mi : Z) (dtext mtext htext : pystr) (pm : bool).
Hypothesis FE : compile_text (time_pattern false (u fmt)) = format_re M.
Hypothesis Bd : (1 <= d <= 31)%Z.
Hypothesis Bmo : (1 <= mo <= 12)%Z.
Hypothesis By : (1 <= y <= 9999)%Z.
Hypothesis Bh : (1 <= h <= 12)%Z.
Hypothesis Bmi : (0 <= mi <= 59)%Z.
Hypothesis Td : dtext = numeral d \/ dtext = pad2 d.
Hypothesis Th : htext = numeral h \/ htext = pad2 h.
Hypothesis Hhead :
  exists c t, mtext = c :: t /\ cset_has flag_I (CIn [CSpace]) c = false.

Lemma py_int_day : py_int dtext = d.
Proof.
  destruct (@day_ways d dtext None [] [] Bd Td) as (_ & _ & _ & _ & E). exact E.
Qed.

(** The format whose month names the text uses reads the date, and
    gives it when the calendar has the day. *)
Lemma strptime_reads :
  (forall p rest cs,
      exists lc,
        all_ways flag_I (RGrp 2 M) (MState p (mtext ++ 32%N :: rest) cs)
        = [MState (Some lc) (32%N :: rest) ((2, mtext) :: cs)]) ->
  index_of (lower mtext) months 1 = Some mo ->
  strptime months fmt (order_time_text dtext mtext y htext mi pm)
  = if (d <=? days_in_month y mo)%Z then Some (Date y mo d) else None.
Proof.
  intros Hok Ix. unfold strptime. rewrite FE, re_match_first.
  destruct (@format_ways M d y h mi dtext mtext htext pm Bd Bh Bmi Td Th Hhead Hok)
    as (lc & E).
  rewrite E. cbn [m_end m_rest]. unfold group. cbn [m_end m_caps assoc Nat.eqb].
  rewrite Ix, py_int_pad4 by lia. rewrite py_int_day.
  rewrite (vendor_date_checked By Bmo Bd). reflexivity.
Qed.

(** The other format does not read it. *)
Lemma strptime_refuses :
  (forall p rest cs,
      Forall (fun x => all_ways flag_I blanks x = [])
             (all_ways flag_I (RGrp 2 M) (MState p (mtext ++ 32%N :: rest) cs))) ->
  strptime months fmt (order_time_text dtext mtext y htext mi pm) = None.
Proof.
  intros Hdead. unfold strptime. rewrite FE, re_match_first.
  rewrite (@format_ways_dead M d y mi dtext mtext htext pm Bd Td Hhead Hdead).
  reflexivity.
Qed.

End Strptime.

(** *** The month names *)

Lemma month_cases (mo : Z) :
  (1 <= mo <= 12)%Z ->
  (mo = 1 \/ mo = 2 \/ mo = 3 \/ mo = 4 \/ mo = 5 \/ mo = 6 \/ mo = 7 \/ mo = 8 \/ mo = 9
   \/ mo = 10 \/ mo = 11 \/ mo = 12)%Z.
Proof. lia. Qed.

Ltac month_text :=
  match goal with
  | |- context [nth ?i ?l []] =>
      let t := eval vm_compute in (nth i l []) in change (nth i l []) with t
  end.

Lemma month_head (names : list pystr) (mo : Z) :
  names = month_names \/ names = month_abbrs -> (1 <= mo <= 12)%Z ->
  exists c t, nth (Z.to_nat (mo - 1)) names [] = c :: t
              /\ cset_has flag_I (CIn [CSpace]) c = false.
Proof.
  intros N B. apply month_cases in B.
  destruct N as [-> | ->]; repeat (destruct B as [-> | B]); try subst mo;
    month_text; eexists; eexists; split; reflexivity.
Qed.

Lemma full_name_index (mo : Z) :
  (1 <= mo <= 12)%Z ->
  index_of (lower (nth (Z.to_nat (mo - 1)) month_names [])) full_months 1 = Some mo.
Proof.
  intros B. apply month_cases in B.
  repeat (destruct B as [-> | B]); try subst mo; vm_compute; reflexivity.
Qed.

Lemma abbr_index (mo : Z) :
  (1 <= mo <= 12)%Z ->
  index_of (lower (nth (Z.to_nat (mo - 1)) month_abbrs [])) short_months 1 = Some mo.
Proof.
  intros B. apply month_cases in B.
  repeat (destruct B as [-> | B]); try subst mo; vm_compute; reflexivity.
Qed.

(** A full name is taken whole by the alternatives of [%B]. *)
Lemma full_name_taken (mo : Z) (p : option N) (rest : pystr) (cs : list (nat * pystr)) :
  (1 <= mo <= 12)%Z ->
  exists lc,
    all_ways flag_I (RGrp 2 full_month_alts)
             (MState p (nth (Z.to_nat (mo - 1)) month_names [] ++ 32%N :: rest) cs)
    = [MState (Some lc) (32%N :: rest)
              ((2, nth (Z.to_nat (mo - 1)) month_names []) :: cs)].
Proof.
  intros B. apply month_cases in B.
  repeat (destruct B as [-> | B]); try subst mo;
    month_text; group_ways; rewrite taken_app; eexists; reflexivity.
Qed.

(** An abbreviated name is taken whole by the alternatives of [%b]. *)
Lemma abbr_taken (mo : Z) (p : option N) (rest : pystr) (cs : list (nat * pystr)) :
  (1 <= mo <= 12)%Z ->
  exists lc,
    all_ways flag_I (RGrp 2 short_month_alts)
             (MState p (nth (Z.to_nat (mo - 1)) month_abbrs [] ++ 32%N :: rest) cs)
    = [MState (Some lc) (32%N :: rest)
              ((2, nth (Z.to_nat (mo - 1)) month_abbrs []) :: cs)].
Proof.
  intros B. apply month_cases in B.
  repeat (destruct B as [-> | B]); try subst mo;
    month_text; group_ways; rewrite taken_app; eexists; reflexivity.
Qed.

(** An abbreviated name other than May is not taken by the alternatives
    of [%B]. *)
Lemma abbr_not_full (mo : Z) (p : option N) (rest : pystr) (cs : list (nat * pystr)) :
  (1 <= mo <= 12)%Z -> mo <> 5%Z ->
  Forall (fun x => all_ways flag_I blanks x = [])
         (all_ways flag_I (RGrp 2 full_month_alts)
                   (MState p (nth (Z.to_nat (mo - 1)) month_abbrs [] ++ 32%N :: rest) cs)).
Proof.
  intros B N. apply month_cases in B.
  repeat (destruct B as [-> | B]); try subst mo; try congruence;
    month_text; group_ways; repeat constructor.
Qed.

(** Of a full name other than May the alternatives of [%b] take the
    first three letters, and no blank follows. *)
Lemma full_not_abbr (mo : Z) (p : option N) (rest : pystr) (cs : list (nat * pystr)) :
  (1 <= mo <= 12)%Z -> mo <> 5%Z ->
  Forall (fun x => all_ways flag_I blanks x = [])
         (all_ways flag_I (RGrp 2 short_month_alts)
                   (MState p (nth (Z.to_nat (mo - 1)) month_names [] ++ 32%N :: rest) cs)).
Proof.
  intros B N. apply month_cases in B.
  repeat (destruct B as [-> | B]); try subst mo; try congruence;
    month_text; group_ways; repeat constructor.
Qed.

(** *** What [strftime] writes *)

Lemma digit_chr_zero (z : Z) : (0 <= z < 10)%Z -> z <> 0%Z -> digit_chr z <> 48%N.
Proof.
  intros B N. unfold digit_chr. rewrite Z.mod_small by lia. lia.
Qed.

(** The stored text is the year without the zeros its four digits
    begin with, then the month and the day. *)
Lemma strftime_stored (y mo d : Z) :
  (1 <= y <= 9999)%Z -> stored_as y mo d (strftime_Ymd (Date y mo d)).
Proof.
  intros B. unfold stored_as, strftime_Ymd, year_text. cbn [d_year d_month d_day].
  destruct (Z.ltb_spec y 10) as [A | A];
    [| destruct (Z.ltb_spec y 100) as [A1 | A1];
       [| destruct (Z.ltb_spec y 1000) as [A2 | A2]]].
  - exists [48; 48; 48]%N, [digit_chr y]. unfold pad4.
    rewrite (Z.div_small y 1000), (Z.div_small y 100), (Z.div_small y 10) by lia.
    split; [reflexivity |]. split; [repeat constructor |]. split; [| reflexivity].
    intros t E. inversion E as [[E1 E2]]. revert E1. apply digit_chr_zero; lia.
  - exists [48; 48]%N, (pad2 y). unfold pad4, pad2.
    rewrite (Z.div_small y 1000), (Z.div_small y 100) by lia.
    split; [reflexivity |]. split; [repeat constructor |]. split; [| reflexivity].
    intros t E. inversion E as [[E1 E2]]. revert E1.
    apply digit_chr_zero; [| apply Z.neq_sym, Z.lt_neq]; Z.div_mod_to_equations; lia.
  - exists [48]%N, [digit_chr (y / 100); digit_chr (y / 10); digit_chr y]. unfold pad4.
    rewrite (Z.div_small y 1000) by lia.
    split; [reflexivity |]. split; [repeat constructor |]. split; [| reflexivity].
    intros t E. inversion E as [[E1 E2]]. revert E1.
    apply digit_chr_zero; [| apply Z.neq_sym, Z.lt_neq]; Z.div_mod_to_equations; lia.
  - exists [], (pad4 y).
    split; [reflexivity |]. split; [constructor |]. split; [| reflexivity].
    unfold pad4. intros t E. inversion E as [[E1 E2]]. revert E1.
    apply digit_chr_zero; [| apply Z.neq_sym, Z.lt_neq]; Z.div_mod_to_equations; lia.
Qed.

(** *** The order time of the vendor, through both formats *)

Lemma may_is_may : nth (Z.to_nat (5 - 1)) month_abbrs [] = nth (Z.to_nat (5 - 1)) month_names [].
Proof. reflexivity. Qed.

Lemma normalize_vendor_text (date_str : pystr) (names : list pystr)
      (d mo y h mi : Z) (dtext htext : pystr) (pm : bool) :
  names = month_names \/ names = month_abbrs ->
  (1 <= d <= 31)%Z -> (1 <= mo <= 12)%Z -> (1 <= y <= 9999)%Z ->
  (1 <= h <= 12)%Z -> (0 <= mi <= 59)%Z ->
  dtext = numeral d \/ dtext = pad2 d ->
  htext = numeral h \/ htext = pad2 h ->
  remove_commas date_str
  = order_time_text dtext (nth (Z.to_nat (mo - 1)) names []) y htext mi pm ->
  Orders.normalize_date date_str
  = if (d <=? days_in_month y mo)%Z then strftime_Ymd (Date y mo d) else date_str.
Proof.
  intros Nm Bd Bmo By Bh Bmi Td Th E.
  pose proof (month_head Nm Bmo) as Hh.
  assert (Full : forall mo', (1 <= mo' <= 12)%Z ->
            nth (Z.to_nat (mo - 1)) names [] = nth (Z.to_nat (mo' - 1)) month_names [] ->
            mo' = mo ->
            strptime full_months "%d %B %Y %I:%M %p" (remove_commas date_str)
            = if (d <=? days_in_month y mo)%Z then Some (Date y mo d) else None).
  { intros mo' B' En <-. rewrite E.
    apply (@strptime_reads full_months "%d %B %Y %I:%M %p" full_month_alts
             d mo' y h mi dtext _ htext pm format_full Bd B' By Bh Bmi Td Th Hh).
    - intros p rest cs. rewrite En. apply full_name_taken. exact B'.
    - rewrite En. apply full_name_index. exact B'. }
  assert (Abbr : forall mo', (1 <= mo' <= 12)%Z ->
            nth (Z.to_nat (mo - 1)) names [] = nth (Z.to_nat (mo' - 1)) month_abbrs [] ->
            mo' = mo ->
            strptime short_months "%d %b %Y %I:%M %p" (remove_commas date_str)
            = if (d <=? days_in_month y mo)%Z then Some (Date y mo d) else None).
  { intros mo' B' En <-. rewrite E.
    apply (@strptime_reads short_months "%d %b %Y %I:%M %p" short_month_alts
             d mo' y h mi dtext _ htext pm format_short Bd B' By Bh Bmi Td Th Hh).
    - intros p rest cs. rewrite En. apply abbr_taken. exact B'.
    - rewrite En. apply abbr_index. exact B'. }
  unfold Orders.normalize_date. cbv zeta.
  destruct Nm as [-> | ->].
  - rewrite (Full mo Bmo eq_refl eq_refl).
    destruct (d <=? days_in_month y mo)%Z; [reflexivity |].
    destruct (Z.eq_dec mo 5) as [-> | N5].
    + rewrite (Abbr 5%Z Bmo (eq_sym may_is_may) eq_refl).
      destruct (31 <=? days_in_month y 5)%Z; reflexivity.
    + rewrite E.
      rewrite (@strptime_refuses short_months "%d %b %Y %I:%M %p" short_month_alts
                 d y mi dtext _ htext pm format_short Bd Td Hh); [reflexivity |].
      intros p rest cs. apply full_not_abbr; assumption.
  - destruct (Z.eq_dec mo 5) as [-> | N5].
    + rewrite (Full 5%Z Bmo may_is_may eq_refl).
      destruct (d <=? days_in_month y 5)%Z; [reflexivity |].
      rewrite (Abbr 5%Z Bmo eq_refl eq_refl). reflexivity.
    + replace (strptime full_months "%d %B %Y %I:%M %p" (remove_commas date_str))
        with (@None date_t).
      * rewrite (Abbr mo Bmo eq_refl eq_refl).
        destruct (d <=? days_in_month y mo)%Z; reflexivity.
      * symmetry. rewrite E.
        apply (@strptime_refuses full_months "%d %B %Y %I:%M %p" full_month_alts
                 d y mi dtext _ htext pm format_full Bd Td Hh).
        intros p rest cs. apply abbr_not_full; assumption.
Qed.

(** *** What a format reads *)

Lemma no_groups_no_captures (f : flags) (r : regex) (w : pystr) (caps : list (nat * pystr)) :
  group_numbers r = [] -> parses f r w caps -> caps = [].
Proof.
  intros G P. destruct caps as [| [n v] t]; [reflexivity |].
  pose proof (@parses_groups f r w _ P n v (or_introl eq_refl)) as I.
  rewrite G in I. destruct I.
Qed.

Lemma parses_spans (f : flags) (r : regex) :
  forall (w : pystr) (caps : list (nat * pystr)), parses f r w caps -> spans f r w.
Proof.
  induction r as [| | s | a IHa b IHb | a IHa b IHb | g lo hi s | n a IHa];
    intros w caps P; cbn [parses spans] in *.
  - apply P.
  - apply P.
  - apply P.
  - destruct P as (w1 & w2 & c1 & c2 & E & _ & P1 & P2). exists w1, w2. eauto.
  - destruct P as [P | P]; eauto.
  - apply P.
  - destruct P as (c & P & _). eauto.
Qed.

Lemma colon_only (c : N) : cset_has flag_I (CIn [CChar 58]) c = true -> c = 58%N.
Proof.
  unfold cset_has, items_have, citem_has, lower_c, upper_c, is_upper, is_lower.
  cbn [existsb IGNORECASE flag_I andb]. rewrite orb_false_r.
  intros H. apply orb_true_iff in H. destruct H as [H | H];
    [apply N.eqb_eq in H; exact H |].
  apply orb_true_iff in H. destruct H as [H | H].
  - destruct ((65 <=? c) && (c <=? 90))%N eqn:U; apply N.eqb_eq in H; [| exact H].
    apply andb_true_iff in U. destruct U as [U1 U2]. apply N.leb_le in U1. lia.
  - destruct ((97 <=? c) && (c <=? 122))%N eqn:U; apply N.eqb_eq in H; [| exact H].
    apply andb_true_iff in U. destruct U as [U1 U2]. apply N.leb_le in U1. lia.
Qed.

Section FormatReads.
Variables (months : list pystr) (fmt : string) (M : regex).
Hypothesis FE : compile_text (time_pattern false (u fmt)) = format_re M.
Hypothesis NG : group_numbers M = [].

(** A text a format reads is a day, a month name of the format and a
    year with blanks between them, then the time; the date is made of
    the numbers of the day and the year and of the place of the name
    among the months. *)
Lemma strptime_sound (s : pystr) (dt : date_t) :
  strptime months fmt s = Some dt ->
  exists day b1 month b2 year b3 hour minute b4 ampm mo,
    s = day ++ b1 ++ month ++ b2 ++ year ++ b3 ++ hour ++ [58%N] ++ minute ++ b4 ++ ampm
    /\ spans flag_I day_alts day /\ spans flag_I blanks b1
    /\ spans flag_I M month /\ spans flag_I blanks b2
    /\ spans flag_I year_seq year /\ spans flag_I blanks b3
    /\ spans flag_I hour_alts hour /\ spans flag_I minute_alts minute
    /\ spans flag_I blanks b4 /\ spans flag_I ampm_alts ampm
    /\ index_of (lower month) months 1 = Some mo
    /\ check_date_fields (py_int year) mo (py_int day) = true
    /\ dt = Date (py_int year) mo (py_int day).
Proof.
  unfold strptime. rewrite FE, re_match_first.
  destruct (all_ways flag_I (format_re M) (MState None s [])) as [| e l] eqn:W;
    [discriminate |].
  cbn [m_end]. destruct (m_rest e) eqn:R; [| discriminate].
  assert (I : In e (all_ways flag_I (format_re M) (MState None s []))).
  { rewrite W. left. reflexivity. }
  apply all_ways_sound in I. destruct I as (w & caps & Ew & Ec & P).
  cbn [m_rest m_caps] in Ew, Ec. rewrite R, app_nil_r in Ew. subst w.
  rewrite app_nil_r in Ec.
  unfold format_re in P. cbn [parses] in P.
  destruct P as (day & r1 & c1 & k1 & E1 & K1 & (cd & Pd & ->) & P).
  destruct P as (b1 & r2 & c2 & k2 & E2 & K2 & Pb1 & P).
  destruct P as (month & r3 & c3 & k3 & E3 & K3 & (cm & Pm & ->) & P).
  destruct P as (b2 & r4 & c4 & k4 & E4 & K4 & Pb2 & P).
  destruct P as (year & r5 & c5 & k5 & E5 & K5 & (cy & Py & ->) & P).
  destruct P as (b3 & r6 & c6 & k6 & E6 & K6 & Pb3 & P).
  destruct P as (hour & r7 & c7 & k7 & E7 & K7 & (ch & Ph & ->) & P).
  destruct P as (colon & r8 & c8 & k8 & E8 & K8 & ((c & -> & Cc) & ->) & P).
  destruct P as (minute & r9 & c9 & k9 & E9 & K9 & (cmi & Pmi & ->) & P).
  destruct P as (b4 & ampm & c10 & k10 & E10 & K10 & Pb4 & (ca & Pa & ->)).
  pose proof (@no_groups_no_captures flag_I day_alts _ _ eq_refl Pd) as Hd.
  pose proof (@no_groups_no_captures flag_I M _ _ NG Pm) as Hm.
  pose proof (@no_groups_no_captures flag_I year_seq _ _ eq_refl Py) as Hy.
  pose proof (@no_groups_no_captures flag_I hour_alts _ _ eq_refl Ph) as Hh.
  pose proof (@no_groups_no_captures flag_I minute_alts _ _ eq_refl Pmi) as Hmi.
  pose proof (@no_groups_no_captures flag_I ampm_alts _ _ eq_refl Pa) as Ha.
  pose proof (@no_groups_no_captures flag_I blanks _ _ eq_refl Pb1) as H1.
  pose proof (@no_groups_no_captures flag_I blanks _ _ eq_refl Pb2) as H2.
  pose proof (@no_groups_no_captures flag_I blanks _ _ eq_refl Pb3) as H3.
  pose proof (@no_groups_no_captures flag_I blanks _ _ eq_refl Pb4) as H4.
  subst cd cm cy ch cmi ca c2 c4 c6 c10.
  subst k9 k8 k7 k6 k5 k4 k3 k2 k1. rewrite K1 in Ec. cbn [app] in Ec.
  unfold group. cbn [m_end]. rewrite Ec. cbn [assoc Nat.eqb].
  destruct (index_of (lower month) months 1) as [mo |] eqn:Ix; [| discriminate].
  destruct (check_date_fields (py_int year) mo (py_int day)) eqn:Ck; [| discriminate].
  intros Edt. inversion Edt as [Ed]. clear Edt.
  apply colon_only in Cc. subst c.
  exists day, b1, month, b2, year, b3, hour, minute, b4, ampm, mo.
  subst s r1 r2 r3 r4 r5 r6 r7 r8 r9.
  repeat match goal with |- _ /\ _ => split end;
    try reflexivity; try assumption; try (eapply parses_spans; eassumption).
Qed.

End FormatReads.

Lemma checked_year (y mo d : Z) :
  check_date_fields y mo d = true -> (1 <= y <= 9999)%Z.
Proof.
  unfold check_date_fields. intros H.
  repeat (apply andb_true_iff in H; destruct H as [H ?]).
  apply Z.leb_le in H. lia.
Qed.

(** What replaces the matched text is a date one of the two formats
    read in it. *)
Lemma normalize_date_sound (date_str : pystr) :
  Orders.normalize_date date_str = date_str
  \/ exists day b1 month b2 year b3 hour minute b4 ampm mo,
       remove_commas date_str
       = day ++ b1 ++ month ++ b2 ++ year ++ b3 ++ hour ++ [58%N] ++ minute ++ b4 ++ ampm
       /\ spans flag_I day_alts day /\ spans flag_I blanks b1
       /\ spans flag_I blanks b2 /\ spans flag_I year_seq year
       /\ spans flag_I blanks b3 /\ spans flag_I hour_alts hour
       /\ spans flag_I minute_alts minute /\ spans flag_I blanks b4
       /\ spans flag_I ampm_alts ampm
       /\ (index_of (lower month) full_months 1 = Some mo
           \/ index_of (lower month) short_months 1 = Some mo)
       /\ check_date_fields (py_int year) mo (py_int day) = true
       /\ stored_as (py_int year) mo (py_int day) (Orders.normalize_date date_str).
Proof.
  unfold Orders.normalize_date. cbv zeta.
  destruct (strptime full_months _ _) as [dt |] eqn:F.
  - right.
    apply (@strptime_sound full_months "%d %B %Y %I:%M %p" full_month_alts
             format_full eq_refl) in F.
    destruct F as (day & b1 & month & b2 & year & b3 & hour & minute & b4 & ampm & mo
                   & E & S1 & S2 & _ & S4 & S5 & S6 & S7 & S8 & S9 & S10 & Ix & Ck & ->).
    exists day, b1, month, b2, year, b3, hour, minute, b4, ampm, mo.
    repeat match goal with |- _ /\ _ => split end; try assumption.
    + left. exact Ix.
    + apply strftime_stored. exact (@checked_year _ _ _ Ck).
  - destruct (strptime short_months _ _) as [dt |] eqn:A; [| left; reflexivity].
    right.
    apply (@strptime_sound short_months "%d %b %Y %I:%M %p" short_month_alts
             format_short eq_refl) in A.
    destruct A as (day & b1 & month & b2 & year & b3 & hour & minute & b4 & ampm & mo
                   & E & S1 & S2 & _ & S4 & S5 & S6 & S7 & S8 & S9 & S10 & Ix & Ck & ->).
    exists day, b1, month, b2, year, b3, hour, minute, b4, ampm, mo.
    repeat match goal with |- _ /\ _ => split end; try assumption.
    + right. exact Ix.
    + apply strftime_stored. exact (@checked_year _ _ _ Ck).
Qed.

Lemma normalize_date_not_empty (date_str : pystr) :
  date_str <> [] -> Orders.normalize_date date_str <> [].
Proof.
  intros N. unfold Orders.normalize_date. cbv zeta.
  destruct (strptime full_months _ _) as [d |]; [apply strftime_not_empty |].
  destruct (strptime short_months _ _) as [d |]; [apply strftime_not_empty | exact N].
Qed.




(** The stored texts of the sample invoices. *)
Example order_time_full_name :
  Orders.date (Orders.build_order Samples.invoice_path Samples.invoice)
  = Some (u "2026-01-31").
Proof. vm_compute. reflexivity. Qed.

Example order_time_no_such_day :
  Orders.date (Orders.build_order Samples.invoice_path Samples.invoice_no_such_day)
  = Some (u "31 February 2026, 12:52 PM").
Proof. vm_compute. reflexivity. Qed.

(** An abbreviated month is read by the second format, and a month no
    calendar knows leaves the matched text in place. *)
Example order_time_abbreviated :
  Orders.normalize_date (u "3 Feb 2026, 9:05 AM") = u "2026-02-03".
Proof. vm_compute. reflexivity. Qed.

Example order_time_unparsed :
  Orders.date (Orders.build_order Samples.invoice_path Samples.invoice_odd_date)
  = Some (u "31 Foo 2026, 12:52 PM").
Proof. vm_compute. reflexivity. Qed.

(* ===================================================================== *)
(** ** The merchant name *)
(* ===================================================================== *)

Lemma close_then_blanks_here (p : option N) (t : pystr) :
  exists r, Sheets.close_then_blanks p (41%N :: t) = Some r
            /\ List.length (m_rest r) <= List.length t.
Proof.
  unfold Sheets.close_then_blanks. cbn [run m_rest m_caps m_prev].
  change (cset_has no_flags (CIn [CChar 41]) 41) with true. cbv iota.
  apply greedy_star_total. reflexivity.
Qed.

Lemma close_then_blanks_later (p : option N) (c : N) (t : pystr) :
  c <> 41%N -> Sheets.close_then_blanks p (c :: t) = None.
Proof.
  intros Hc. unfold Sheets.close_then_blanks. cbn [run m_rest m_caps m_prev].
  replace (cset_has no_flags (CIn [CChar 41]) c) with false; [reflexivity |].
  cbn. apply N.eqb_neq in Hc. rewrite Hc. reflexivity.
Qed.

(** The lazy [.*?] reaches the first closing parenthesis of the line. *)
Lemma lazy_any_finds_close (t : pystr) :
  forall p : option N,
    In 41%N t -> ~ In NL t ->
    exists r, rep no_flags false CAny 0 None p t Sheets.close_then_blanks = Some r
              /\ List.length (m_rest r) < List.length t.
Proof.
  induction t as [| c t IH]; intros p I NoNL; [destruct I |].
  rewrite rep_cons. cbv zeta.
  destruct (N.eq_dec c 41) as [-> | Hc].
  - destruct (close_then_blanks_here p t) as (r & R & L). rewrite R.
    exists r. split; [reflexivity | simpl; lia].
  - rewrite (close_then_blanks_later p t Hc).
    cbn [hi_open hi_pred pred andb cset_has].
    assert (Hn : (c =? NL)%N = false).
    { apply N.eqb_neq. intros ->. apply NoNL. left; reflexivity. }
    rewrite Hn. cbn [negb].
    destruct (IH (Some c)) as (r & R & L).
    + destruct I as [E | I]; [congruence | exact I].
    + intros X. apply NoNL. right; exact X.
    + rewrite R. exists r. split; [reflexivity | simpl; lia].
Qed.

(** At an opening parenthesis with a closing one further on the line,
    the parenthetical pattern matches and takes at least one character. *)
Lemma parenthetical_matches (prev : option N) (t : pystr) :
  In 41%N t -> ~ In NL t ->
  exists m, match_at no_flags Sheets.parenthetical_re prev (40%N :: t) = Some m
            /\ List.length (m_rest (m_end m)) < List.length (40%N :: t).
Proof.
  intros I NoNL. unfold match_at, Sheets.parenthetical_re.
  cbn [run m_rest m_caps m_prev].
  rewrite rep_cons. cbv zeta.
  change (cset_has no_flags (CIn [CSpace]) 40) with false.
  cbn [hi_open andb]. cbv iota.
  change (cset_has no_flags (CIn [CChar 40]) 40) with true. cbv iota.
  cbn [m_rest m_caps m_prev].
  destruct (@lazy_any_finds_close t (Some 40%N) I NoNL) as (r & R & L).
  unfold Sheets.close_then_blanks in R. cbn [run m_rest m_caps m_prev] in R.
  rewrite R. exists (RMatch (40%N :: t) r). split; [reflexivity |].
  cbn [m_end List.length]. lia.
Qed.

Lemma existsb_incl (A : Type) (g : A -> bool) (l l' : list A) :
  (forall x, In x l -> In x l') -> existsb g l' = false -> existsb g l = false.
Proof.
  intros Inc H. destruct (existsb g l) eqn:E; [| reflexivity].
  apply existsb_exists in E. destruct E as (x & I & G).
  assert (X : existsb g l' = true) by (apply existsb_exists; exists x; auto).
  congruence.
Qed.

(** After the deletion no opening parenthesis is followed by a closing
    one, on a text of one line. *)
Lemma sub_del_no_parenthetical (s : pystr) :
  forall (prev : option N) (skip : nat),
    ~ In NL s ->
    has_parenthetical (sub_del no_flags Sheets.parenthetical_re prev s skip) = false.
Proof.
  induction s as [| c t IH]; intros prev skip NoNL; [reflexivity |].
  assert (NoNL' : ~ In NL t) by (intros X; apply NoNL; right; exact X).
  rewrite sub_del_cons.
  assert (Keep : (match_at no_flags Sheets.parenthetical_re prev (c :: t) = None
                  \/ exists m, match_at no_flags Sheets.parenthetical_re prev (c :: t) = Some m
                               /\ List.length (c :: t) - List.length (m_rest (m_end m)) = 0) ->
                 has_parenthetical
                   (c :: sub_del no_flags Sheets.parenthetical_re (Some c) t 0) = false).
  { intros Hm. cbn [has_parenthetical]. rewrite IH by exact NoNL'.
    rewrite orb_false_r.
    destruct (c =? 40)%N eqn:C; [| reflexivity]. apply N.eqb_eq in C. subst c.
    cbn [andb].
    apply existsb_incl with (l' := t);
      [intros x; apply sub_del_incl |].
    destruct (existsb (N.eqb 41) t) eqn:E; [| reflexivity].
    exfalso. apply existsb_exists in E. destruct E as (x & I & X).
    apply N.eqb_eq in X. subst x.
    destruct (@parenthetical_matches prev t I NoNL') as (m & M & L).
    destruct Hm as [Hm | (m' & Hm & Z)]; [congruence |].
    rewrite M in Hm. inversion Hm; subst m'. lia. }
  destruct skip as [| n]; [| apply IH; exact NoNL'].
  destruct (match_at no_flags Sheets.parenthetical_re prev (c :: t)) as [m |] eqn:M.
  - destruct (List.length (c :: t) - List.length (m_rest (m_end m))) as [| n] eqn:Z.
    + apply Keep. right. exists m. auto.
    + apply IH; exact NoNL'.
  - apply Keep. left. reflexivity.
Qed.

Lemma has_parenthetical_firstn (s : pystr) :
  forall n : nat, has_parenthetical s = false -> has_parenthetical (firstn n s) = false.
Proof.
  induction s as [| c t IH]; intros n H; [destruct n; reflexivity |].
  destruct n as [| n]; [reflexivity |].
  cbn [firstn has_parenthetical] in *.
  apply orb_false_elim in H. destruct H as [H1 H2].
  rewrite (IH n H2), orb_false_r.
  destruct (c =? 40)%N; [| reflexivity]. cbn [andb] in *.
  apply existsb_incl with (l' := t); [| exact H1].
  intros x I. revert I. clear. revert n.
  induction t as [| y t IHt]; intros [| n]; simpl; try tauto.
  intros [-> | I]; [left; reflexivity | right; apply (IHt n); exact I].
Qed.

Lemma first_search_inv (f : flags) (ps : list regex) (text : pystr) (m : rmatch) :
  Sheets.first_search f ps text = Some m ->
  exists p, In p ps /\ re_search f p text = Some m.
Proof.
  induction ps as [| p ps IH]; simpl; [discriminate |].
  destruct (re_search f p text) as [m' |] eqn:S.
  - intros E; inversion E; subst m'. exists p. auto.
  - intros H. destruct (IH H) as (q & I & R). exists q. auto.
Qed.

(** The merchant patterns capture text of one line. *)
Lemma merchant_capture_one_line (text : pystr) (m : rmatch) :
  Sheets.first_search flag_I Sheets.restaurant_patterns text = Some m ->
  ~ In NL (group 1 m).
Proof.
  intros H. apply first_search_inv in H. destruct H as (p & I & S).
  unfold re_search in S. apply search_from_inv in S. destruct S as (prev & R).
  apply run_tail in R. destruct R as (st' & R).
  assert (T : tail_of p = RGrp 1 (RRep true 1 None (CNot [CChar NL]))).
  { destruct I as [<- | [<- | [<- | []]]]; reflexivity. }
  rewrite T in R. apply group_of_class in R. destruct R as (v & A & F).
  unfold group. rewrite A. intros X.
  rewrite forallb_forall in F. specialize (F NL X). vm_compute in F. discriminate.
Qed.

(** C4 (as amended), for the sheet-oriented parser.  When a merchant
    pattern matches, the name kept is the captured text, stripped, with
    every parenthetical deleted and cut to 100 characters: it has at
    most 100 characters and no opening parenthesis followed by a closing
    one.  The capture "P.F. Chang's (Sector 18)" gives "P.F. Chang's". *)
Theorem sheet_merchant_cleaned (pdf_path text : pystr) (m : rmatch) :
  Sheets.first_search flag_I Sheets.restaurant_patterns text = Some m ->
  let name := Sheets.restaurant (Sheets.parse_invoice_text pdf_path text) in
  name = firstn 100 (re_sub_del no_flags Sheets.parenthetical_re (strip (group 1 m)))
  /\ List.length name <= 100
  /\ has_parenthetical name = false
  /\ (group 1 m = u "P.F. Chang's (Sector 18)" -> name = u "P.F. Chang's").
Proof.
  intros H name.
  assert (E : name = firstn 100 (re_sub_del no_flags Sheets.parenthetical_re
                                            (strip (group 1 m)))).
  { unfold name, Sheets.parse_invoice_text. cbn [Sheets.restaurant].
    unfold Sheets.find_restaurant. rewrite H. reflexivity. }
  split; [exact E |]. rewrite E.
  split; [apply firstn_le_length |].
  split.
  - apply has_parenthetical_firstn. unfold re_sub_del.
    apply sub_del_no_parenthetical.
    intros X. apply strip_incl in X. exact (merchant_capture_one_line _ H X).
  - intros ->. vm_compute. reflexivity.
Qed.

Lemma sheet_merchant_cleaned_witness :
  Sheets.restaurant (Sheets.parse_invoice_text Samples.invoice_path Samples.invoice)
  = u "P.F. Chang's".
Proof.
  refine (proj2 (proj2 (proj2
            (@sheet_merchant_cleaned Samples.invoice_path Samples.invoice
               Samples.invoice_merchant_match _))) _).
  - vm_compute. reflexivity.
  - vm_compute. reflexivity.
Defined.

(** C4, the claim as stated, fails on the strict parser, which only
    trims the captured name: the parenthetical stays. *)
Lemma strict_parser_keeps_parenthetical :
  exists data,
    Orders.extract_order_data Samples.invoice_path (Pages [Some Samples.invoice]) = Some data
    /\ Orders.restaurant_name data = Some (u "P.F. Chang's (Sector 18)").
Proof.
  eexists. split; vm_compute; reflexivity.
Qed.

(* ===================================================================== *)
(** ** The item table *)
(* ===================================================================== *)

(** A line the item pattern matches has a digit, so it is not blank. *)
Lemma item_line_not_blank (line : pystr) (m : rmatch) :
  re_match no_flags Orders.item_re line = Some m -> nonempty (strip line) = true.
Proof.
  unfold re_match, match_at.
  destruct (run no_flags Orders.item_re (MState None line []) Some) as [e |] eqn:R;
    [| discriminate].
  intros _. unfold Orders.item_re in R.
  apply run_cat_inv in R. destruct R as (st1 & R & p1 & E1).
  apply run_cat_inv in R. destruct R as (st2 & R & p2 & E2).
  apply run_cat_inv in R. destruct R as (st3 & R & p3 & E3).
  cbn [run] in R.
  apply rep_inv in R. destruct R as (pre & post & p & E & A & L & _).
  destruct pre as [| d pre]; [simpl in L; lia |].
  cbn [forallb] in A. apply andb_prop in A. destruct A as [D _].
  assert (Dg : is_digit d = true).
  { revert D. cbn. rewrite !orb_false_r. tauto. }
  apply strip_keeps with (c := d); [| apply digit_not_space; exact Dg].
  cbn [m_rest] in E1. rewrite E1, E2, E3, E.
  do 3 (apply in_or_app; right). apply in_or_app. left. left. reflexivity.
Qed.

Lemma is_charge_line_keyword (line keyword : pystr) :
  In keyword Orders.charge_keywords ->
  contains keyword (lower line) = true -> Orders.is_charge_line line = true.
Proof.
  intros I C. unfold Orders.is_charge_line. apply existsb_exists.
  exists keyword. auto.
Qed.

Lemma scan_line_unfold (items_section : bool) (items_list : list pystr) (line : pystr) :
  Orders.scan_line (items_section, items_list) line =
  if Orders.is_table_header line then (true, items_list)
  else if items_section then
    if Orders.is_price_header line then (items_section, items_list)
    else if Orders.is_charge_line line then (false, items_list)
    else if Orders.is_terms_line line then (false, items_list)
    else if items_section && nonempty (strip line) then
      match re_match no_flags Orders.item_re line with
      | Some m => (items_section, items_list ++ [Orders.item_entry m])
      | None => (items_section, items_list)
      end
    else (items_section, items_list)
  else (items_section, items_list).
Proof. reflexivity. Qed.

(** C5 (as amended).  A line read as a header (it has "Item",
    "Quantity" and "Price", as "Item Quantity Unit Price Total Price"
    does, or in lower case "total price" with "quantity" or "unit")
    leaves the section active.  Any other line that in lower case
    contains a trailer keyword closes the section and adds no item;
    "Delivery Charge ₹30" is such a line. *)
Theorem header_keeps_trailer_closes :
  (forall st,
      Orders.scan_line st (u "Item Quantity Unit Price Total Price") = (true, snd st))
  /\ (forall st line,
         Orders.is_table_header line = true -> Orders.scan_line st line = (true, snd st))
  /\ (forall items_list line,
         Orders.is_table_header line = false -> Orders.is_price_header line = true ->
         Orders.scan_line (true, items_list) line = (true, items_list))
  /\ (forall items_list line keyword,
         In keyword Orders.trailer_keywords ->
         contains keyword (lower line) = true ->
         Orders.is_table_header line = false -> Orders.is_price_header line = false ->
         Orders.scan_line (true, items_list) line = (false, items_list))
  /\ (forall items_list,
         Orders.scan_line (true, items_list) (u "Delivery Charge ₹30") = (false, items_list)).
Proof.
  assert (Hd : forall st line,
             Orders.is_table_header line = true ->
             Orders.scan_line st line = (true, snd st)).
  { intros [sec acc] line H. rewrite scan_line_unfold, H. reflexivity. }
  assert (Tr : forall items_list line keyword,
             In keyword Orders.trailer_keywords ->
             contains keyword (lower line) = true ->
             Orders.is_table_header line = false -> Orders.is_price_header line = false ->
             Orders.scan_line (true, items_list) line = (false, items_list)).
  { intros acc line keyword I C H P. rewrite scan_line_unfold, H, P.
    unfold Orders.trailer_keywords in I. apply in_app_or in I.
    destruct I as [I | I].
    - rewrite (is_charge_line_keyword line I C). reflexivity.
    - destruct (Orders.is_charge_line line); [reflexivity |].
      replace (Orders.is_terms_line line) with true; [reflexivity |].
      unfold Orders.is_terms_line. symmetry. apply orb_true_iff.
      destruct I as [<- | [<- | []]]; [left | right]; exact C. }
  split; [intros st; apply Hd; vm_compute; reflexivity |].
  split; [exact Hd |].
  split; [intros acc line H P; rewrite scan_line_unfold, H, P; reflexivity |].
  split; [exact Tr |].
  intros acc. apply Tr with (keyword := u "delivery"); vm_compute; auto.
Qed.

(** On the sample invoice: the table is open after its header, and the
    line "Taxes ₹49.75" closes it. *)
Lemma header_keeps_trailer_closes_witness :
  Orders.scan_line (false, []) (u "Item Quantity Unit Price Total Price") = (true, [])
  /\ Orders.scan_line (true, []) (u "Taxes ₹49.75") = (false, []).
Proof.
  split.
  - exact (proj1 header_keeps_trailer_closes (false, [])).
  - refine (proj1 (proj2 (proj2 (proj2 header_keeps_trailer_closes)))
                  [] (u "Taxes ₹49.75") (u "taxes") _ _ _ _);
      vm_compute; auto.
Defined.

(** C5, the claim as stated, fails on a line that contains a trailer
    keyword and is itself read as a header: the section stays active and
    the item line after it is still collected. *)
Lemma header_with_charge_keeps_table_open :
  contains (u "delivery") (lower (u "Item Quantity Price (excl. Delivery Charge)")) = true
  /\ Orders.scan_line (true, []) (u "Item Quantity Price (excl. Delivery Charge)") = (true, [])
  /\ Orders.scan_table (split_on NL Samples.charge_in_header)
     = (true, [u "Paneer Tikka (Qty: 2, ₹500)"]).
Proof. vm_compute. auto. Qed.

Lemma scan_line_keeps (st : bool * list pystr) (line e : pystr) :
  In e (snd st) -> In e (snd (Orders.scan_line st line)).
Proof.
  destruct st as [sec acc]. rewrite scan_line_unfold. cbn [snd]. intros I.
  repeat match goal with
         | |- context [if ?b then _ else _] => destruct b
         | |- context [match ?o with Some _ => _ | None => _ end] => destruct o
         end; cbn [snd]; try exact I.
  apply in_or_app. left. exact I.
Qed.

Lemma scan_lines_keep (lines : list pystr) :
  forall (st : bool * list pystr) (e : pystr),
    In e (snd st) -> In e (snd (fold_left Orders.scan_line lines st)).
Proof.
  induction lines as [| l lines IH]; intros st e I; [exact I |].
  cbn [fold_left]. apply IH. apply scan_line_keeps. exact I.
Qed.

(** C6 (as amended).  Inside a detected table, a line the item pattern
    matches and that is read neither as a header nor as a trailer adds
    the entry made of the trimmed name, the quantity and the second
    amount without commas, and the entry is among the items of the
    record.  For "Paneer Tikka 2 ₹250 ₹500" these are "Paneer Tikka",
    "2" and "500". *)
Theorem table_item_recorded
        (pdf_path text : pystr) (before after : list pystr) (line : pystr) (m : rmatch) :
  split_on NL text = before ++ line :: after ->
  fst (Orders.scan_table before) = true ->
  re_match no_flags Orders.item_re line = Some m ->
  Orders.is_table_header line = false -> Orders.is_price_header line = false ->
  Orders.is_charge_line line = false -> Orders.is_terms_line line = false ->
  let entry := strip (group 1 m) ++ u " (Qty: " ++ group 2 m
               ++ u ", ₹" ++ remove_commas (group 4 m) ++ u ")" in
  Orders.scan_line (Orders.scan_table before) line
  = (true, snd (Orders.scan_table before) ++ [entry])
  /\ In entry (Orders.items (Orders.build_order pdf_path text))
  /\ (line = u "Paneer Tikka 2 ₹250 ₹500" ->
      strip (group 1 m) = u "Paneer Tikka" /\ group 2 m = u "2"
      /\ remove_commas (group 4 m) = u "500").
Proof.
  intros L Sec M H P C T entry.
  assert (Step : Orders.scan_line (Orders.scan_table before) line
                 = (true, snd (Orders.scan_table before) ++ [entry])).
  { destruct (Orders.scan_table before) as [sec acc]. cbn [fst snd] in *. subst sec.
    rewrite scan_line_unfold, H, P, C, T, (item_line_not_blank _ M), M. reflexivity. }
  split; [exact Step |]. split.
  - unfold Orders.build_order. cbn [Orders.items]. unfold Orders.find_items.
    assert (I : In entry (snd (Orders.scan_table (split_on NL text)))).
    { rewrite L. unfold Orders.scan_table. rewrite fold_left_app. cbn [fold_left].
      apply scan_lines_keep. fold (Orders.scan_table before). rewrite Step.
      cbn [snd]. apply in_or_app. right. left. reflexivity. }
    destruct (snd (Orders.scan_table (split_on NL text))); [destruct I | exact I].
  - intros ->. vm_compute in M. inversion M; subst m. vm_compute. auto.
Qed.

Lemma table_item_recorded_witness :
  In (u "Paneer Tikka (Qty: 2, ₹500)")
     (Orders.items (Orders.build_order Samples.invoice_path Samples.invoice)).
Proof.
  refine (proj1 (proj2
            (@table_item_recorded Samples.invoice_path Samples.invoice
               (firstn 5 (split_on NL Samples.invoice))
               (skipn 6 (split_on NL Samples.invoice))
               (u "Paneer Tikka 2 ₹250 ₹500")
               (match re_match no_flags Orders.item_re (u "Paneer Tikka 2 ₹250 ₹500") with
                | Some m => m
                | None => RMatch [] (MState None [] [])
                end)
               _ _ _ _ _ _ _)));
    vm_compute; reflexivity.
Defined.

(** C6, the claim as stated, fails on an item whose name carries a
    charge keyword: the line has the shape of an item and stands inside
    the table, yet it closes the table and no entry is recorded. *)
Lemma item_named_delivery_is_dropped :
  (exists m, re_match no_flags Orders.item_re (u "Delivery Fries 2 ₹250 ₹500") = Some m
             /\ strip (group 1 m) = u "Delivery Fries" /\ group 2 m = u "2"
             /\ group 4 m = u "500")
  /\ nth_error (split_on NL Samples.delivery_item) 1 = Some (u "Delivery Fries 2 ₹250 ₹500")
  /\ Orders.scan_table (firstn 1 (split_on NL Samples.delivery_item)) = (true, [])
  /\ Orders.scan_line (true, []) (u "Delivery Fries 2 ₹250 ₹500") = (false, [])
  /\ Orders.items (Orders.build_order Samples.invoice_path Samples.delivery_item) = [].
Proof.
  split; [eexists; vm_compute; auto |]. vm_compute. auto.
Qed.

(* ===================================================================== *)
(** ** The batch sorted by date *)
(* ===================================================================== *)

Section SortFacts.
Variable A : Type.
Variable key : A -> pystr.

Lemma str_ltb_empty_l (b : pystr) : str_ltb [] b = nonempty b.
Proof. destruct b; reflexivity. Qed.

Lemma str_ltb_empty_r (a : pystr) : str_ltb a [] = false.
Proof. destruct a; reflexivity. Qed.

Lemma str_ltb_asym (a : pystr) : forall b, str_ltb a b = true -> str_ltb b a = false.
Proof.
  induction a as [| x a IH]; intros [| y b]; simpl; try reflexivity; try discriminate.
  destruct (N.ltb_spec x y), (N.ltb_spec y x); try reflexivity; try discriminate; try lia.
  apply IH.
Qed.

Lemma str_ltb_trans (a : pystr) :
  forall b c, str_ltb a b = true -> str_ltb b c = true -> str_ltb a c = true.
Proof.
  induction a as [| x a IH]; intros [| y b] [| z c]; simpl; try reflexivity; try discriminate.
  destruct (N.ltb_spec x y), (N.ltb_spec y x), (N.ltb_spec y z), (N.ltb_spec z y),
    (N.ltb_spec x z), (N.ltb_spec z x);
    try reflexivity; try discriminate; try lia.
  apply IH.
Qed.

Lemma insert_by_in (x z : A) (l : list A) : In z (insert_by key x l) -> z = x \/ In z l.
Proof.
  induction l as [| y t IH]; simpl.
  - intros [<- | []]; left; reflexivity.
  - destruct (str_ltb (key x) (key y)).
    + intros [<- | I]; [left; reflexivity | right; exact I].
    + intros [<- | I]; [right; left; reflexivity |].
      destruct (IH I) as [-> | I']; [left; reflexivity | right; right; exact I'].
Qed.

Lemma insert_by_sorted (x : A) (l : list A) :
  StronglySorted (key_le key) l -> StronglySorted (key_le key) (insert_by key x l).
Proof.
  induction 1 as [| y t St IH Fa]; simpl.
  - constructor; constructor.
  - destruct (str_ltb (key x) (key y)) eqn:Lt.
    + constructor; [constructor; assumption |].
      constructor; [apply str_ltb_asym; exact Lt |].
      rewrite Forall_forall in *. intros z I. specialize (Fa z I).
      unfold key_le in *. destruct (str_ltb (key z) (key x)) eqn:Zx; [| reflexivity].
      rewrite (str_ltb_trans _ _ _ Zx Lt) in Fa. discriminate.
    + constructor; [exact IH |].
      rewrite Forall_forall in *. intros z I.
      destruct (insert_by_in _ _ _ I) as [-> | I']; [exact Lt | apply Fa; exact I'].
Qed.

Lemma sort_by_sorted (l : list A) : StronglySorted (key_le key) (sort_by key l).
Proof.
  unfold sort_by.
  assert (G : forall acc, StronglySorted (key_le key) acc ->
                          StronglySorted (key_le key)
                            (fold_left (fun acc x => insert_by key x acc) l acc)).
  { induction l as [| x t IH]; intros acc H; simpl; [exact H |].
    apply IH. apply insert_by_sorted. exact H. }
  apply G. constructor.
Qed.

Lemma insert_by_perm (x : A) (l : list A) : Permutation (x :: l) (insert_by key x l).
Proof.
  induction l as [| y t IH]; simpl; [apply Permutation_refl |].
  destruct (str_ltb (key x) (key y)); [apply Permutation_refl |].
  eapply Permutation_trans; [apply perm_swap |]. apply perm_skip. exact IH.
Qed.

Lemma fold_insert_perm (l : list A) :
  forall acc, Permutation (l ++ acc) (fold_left (fun acc x => insert_by key x acc) l acc).
Proof.
  induction l as [| x t IH]; intros acc; simpl; [apply Permutation_refl |].
  eapply Permutation_trans; [| apply IH].
  eapply Permutation_trans; [apply Permutation_middle |].
  apply Permutation_app_head. apply insert_by_perm.
Qed.

Lemma sort_by_perm (l : list A) : Permutation l (sort_by key l).
Proof.
  unfold sort_by. rewrite <- (app_nil_r l) at 1. apply fold_insert_perm.
Qed.

Lemma insert_all_keyed (x : A) (l : list A) :
  nonempty (key x) = true ->
  forallb (fun y => nonempty (key y)) l = true ->
  forallb (fun y => nonempty (key y)) (insert_by key x l) = true.
Proof.
  intros Hx. induction l as [| y t IH]; simpl; [rewrite Hx; reflexivity |].
  intros H. apply andb_prop in H. destruct H as [Hy Ht].
  destruct (str_ltb (key x) (key y)); simpl; rewrite ?Hx, ?Hy, ?Ht; auto.
Qed.

Lemma insert_empty_keys_first (x : A) (l : list A) :
  empty_keys_first key l = true -> empty_keys_first key (insert_by key x l) = true.
Proof.
  induction l as [| y t IH]; simpl.
  - intros _. destruct (nonempty (key x)); reflexivity.
  - destruct (nonempty (key y)) eqn:Ny; intros H.
    + destruct (str_ltb (key x) (key y)) eqn:Lt; simpl.
      * rewrite Ny, H. destruct (nonempty (key x)); reflexivity.
      * rewrite Ny. apply insert_all_keyed; [| exact H].
        destruct (key x) as [| c kx]; [| reflexivity].
        rewrite str_ltb_empty_l, Ny in Lt. discriminate.
    + destruct (key y) as [| c ky] eqn:Ky; [| discriminate].
      rewrite str_ltb_empty_r. simpl. rewrite Ky. simpl. apply IH. exact H.
Qed.

Lemma sort_by_empty_keys_first (l : list A) : empty_keys_first key (sort_by key l) = true.
Proof.
  unfold sort_by.
  assert (G : forall acc, empty_keys_first key acc = true ->
                          empty_keys_first key
                            (fold_left (fun acc x => insert_by key x acc) l acc) = true).
  { induction l as [| x t IH]; intros acc H; simpl; [exact H |].
    apply IH. apply insert_empty_keys_first. exact H. }
  apply G. reflexivity.
Qed.

Lemma empty_keys_first_positions (l : list A) :
  empty_keys_first key l = true ->
  forall i j a b,
    nth_error l i = Some a -> nth_error l j = Some b ->
    key a = [] -> key b <> [] -> i < j.
Proof.
  induction l as [| x t IH]; intros H i j a b Ha Hb Ka Kb.
  - destruct i; discriminate.
  - simpl in H. destruct i as [| i]; destruct j as [| j]; simpl in Ha, Hb.
    + inversion Ha; inversion Hb; subst. congruence.
    + lia.
    + exfalso. inversion Hb; subst x.
      destruct (key b) as [| c kb] eqn:K; [congruence |]. simpl in H.
      rewrite forallb_forall in H. apply nth_error_In in Ha.
      specialize (H a Ha). rewrite Ka in H. discriminate.
    + apply -> Nat.succ_lt_mono.
      destruct (nonempty (key x)) eqn:N.
      * exfalso. rewrite forallb_forall in H. apply nth_error_In in Ha.
        specialize (H a Ha). rewrite Ka in H. discriminate.
      * eapply IH; eauto.
Qed.

End SortFacts.

(** C7 (as amended).  The batch sorted by date holds the same records
    in ascending order of their keys, the keys being compared as plain
    strings.  A record whose date is absent (its key is the empty
    string) would stand before every record that has a date; but the
    batch the program sorts, the one [process_all_pdfs] returns, holds
    no such record: every key is the date text itself, normalized or
    raw, and it is the comparison of these texts that places a record. *)
Theorem absent_dates_sort_first (all_data : list Orders.order_data) :
  Permutation all_data (Orders.sort_by_date all_data)
  /\ StronglySorted (fun x y => str_ltb (Orders.date_key y) (Orders.date_key x) = false)
                    (Orders.sort_by_date all_data)
  /\ (forall i j a b,
         nth_error (Orders.sort_by_date all_data) i = Some a ->
         nth_error (Orders.sort_by_date all_data) j = Some b ->
         Orders.date_key a = [] -> Orders.date_key b <> [] -> i < j)
  /\ (forall folder_path listing,
         all_data = Orders.process_all_pdfs folder_path listing ->
         forall x, In x (Orders.sort_by_date all_data) ->
                   Orders.date_key x <> [] /\ Orders.date x = Some (Orders.date_key x)).
Proof.
  split; [apply sort_by_perm |].
  split; [apply (sort_by_sorted Orders.date_key) |].
  split.
  - intros i j a b Ha Hb Ka Kb.
    exact (empty_keys_first_positions Orders.date_key _
             (sort_by_empty_keys_first Orders.date_key all_data) i j Ha Hb Ka Kb).
  - intros folder_path listing -> x I.
    unfold Orders.sort_by_date in I.
    apply (Permutation_in _ (Permutation_sym (sort_by_perm Orders.date_key _))) in I.
    unfold Orders.process_all_pdfs in I. cbv zeta in I.
    apply in_flat_map in I. destruct I as ([path pdf] & _ & Id). cbn [fst snd] in Id.
    destruct (Orders.extract_order_data path pdf) as [d |] eqn:X; [| destruct Id].
    destruct Id as [<- | []].
    destruct (@extract_order_data_inv _ _ _ X) as (pages & text & _ & _ & _ & C).
    apply complete_fields in C. destruct C as (D & _ & _).
    unfold Orders.date_key.
    destruct (Orders.date d) as [[| c s] |]; try discriminate.
    split; [discriminate | reflexivity].
Qed.

(** The batch read from the sample folder: its two records are placed
    by the comparison of their date texts, the raw one last. *)
Lemma absent_dates_sort_first_witness :
  StronglySorted (fun x y => str_ltb (Orders.date_key y) (Orders.date_key x) = false)
    (Orders.sort_by_date (Orders.process_all_pdfs Samples.folder_path Samples.listing))
  /\ map Orders.date_key
         (Orders.sort_by_date (Orders.process_all_pdfs Samples.folder_path Samples.listing))
     = [u "2026-01-31"; u "31 Foo 2026, 12:52 PM"].
Proof.
  split; [| vm_compute; reflexivity].
  exact (proj1 (proj2 (absent_dates_sort_first
                         (Orders.process_all_pdfs Samples.folder_path Samples.listing)))).
Defined.

(** C7, the claim as stated, fails for an unparsed date: the record that
    kept the text "31 Foo 2026, 12:52 PM" is sorted after the record
    dated "2026-01-31". *)
Lemma unparsed_date_sorts_after_normalized :
  exists a b,
    Orders.sort_by_date (Orders.process_all_pdfs Samples.folder_path Samples.listing)
    = [a; b]
    /\ Orders.date a = Some (u "2026-01-31")
    /\ Orders.date b = Some (u "31 Foo 2026, 12:52 PM").
Proof.
  eexists. eexists. split; [vm_compute; reflexivity |].
  split; vm_compute; reflexivity.
Qed.

(* ===================================================================== *)
(** ** The items of the sheet-oriented parser *)
(* ===================================================================== *)

(** C9.  The record of the sheet-oriented parser keeps the first ten of
    the items found in the text, so never more than ten. *)
Theorem sheet_items_capped
        (pdf_path : pystr) (pdf : pdf_file) (r : Sheets.invoice_data) :
  Sheets.extract_invoice_data pdf_path pdf = Some r ->
  List.length (Sheets.items r) <= 10
  /\ exists pages,
       pdf = Pages pages
       /\ Sheets.items r = firstn 10 (Sheets.find_items (Sheets.read_pages pages [])).
Proof.
  destruct pdf as [| pages]; simpl; [discriminate |].
  intros E; inversion E; subst r. cbn [Sheets.items Sheets.parse_invoice_text].
  split; [apply firstn_le_length |].
  exists pages. split; reflexivity.
Qed.

(** Twelve item lines are found in the sample, ten are kept. *)
Lemma sheet_items_capped_witness :
  List.length (Sheets.find_items Samples.long_order) = 12
  /\ exists r,
       Sheets.extract_invoice_data Samples.invoice_path (Pages [Some Samples.long_order])
       = Some r
       /\ List.length (Sheets.items r) <= 10.
Proof.
  split; [vm_compute; reflexivity |].
  eexists. split; [reflexivity |].
  refine (proj1 (@sheet_items_capped Samples.invoice_path
                   (Pages [Some Samples.long_order]) _ _)).
  reflexivity.
Defined.

(* ===================================================================== *)
(** * Beyond the claims *)
(* ===================================================================== *)

(* ===================================================================== *)
(** ** Pages without text *)
(* ===================================================================== *)

Lemma strict_read_pages_none (pages : list (option pystr)) :
  In None pages -> forall text, Orders.read_pages pages text = None.
Proof.
  induction pages as [| [p |] rest IH]; intros I text; simpl.
  - destruct I.
  - destruct I as [E | I]; [discriminate | apply IH; exact I].
  - reflexivity.
Qed.

(** X1.  In the strict parser one page for which [extract_text] gives
    [None] loses the whole document, whatever the other pages hold. *)
Theorem page_without_text_discards_order (pdf_path : pystr) (pages : list (option pystr)) :
  In None pages -> Orders.extract_order_data pdf_path (Pages pages) = None.
Proof.
  intros I. simpl. rewrite (strict_read_pages_none pages I). reflexivity.
Qed.

Lemma page_without_text_discards_order_witness :
  (exists data,
      Orders.extract_order_data Samples.invoice_path (Pages [Some Samples.invoice]) = Some data)
  /\ Orders.extract_order_data Samples.invoice_path (Pages [Some Samples.invoice; None]) = None.
Proof.
  split; [eexists; vm_compute; reflexivity |].
  apply (@page_without_text_discards_order Samples.invoice_path [Some Samples.invoice; None]).
  right. left. reflexivity.
Defined.

Lemma sheet_read_pages_joined (pages : list (option pystr)) :
  forall text, Sheets.read_pages pages text = text ++ Sheets.joined_pages pages.
Proof.
  unfold Sheets.joined_pages.
  induction pages as [| [p |] rest IH]; intros text; simpl.
  - symmetry. apply app_nil_r.
  - rewrite IH, app_assoc. reflexivity.
  - apply IH.
Qed.

(** X2.  In the sheet-oriented parser the record depends only on the
    texts of the pages laid end to end: a page without text is skipped
    and nothing separates one page from the next. *)
Theorem sheet_record_of_joined_pages (pdf_path : pystr) (pages : list (option pystr)) :
  Sheets.extract_invoice_data pdf_path (Pages pages)
  = Some (Sheets.parse_invoice_text pdf_path (Sheets.joined_pages pages))
  /\ forall before after,
      pages = before ++ None :: after ->
      Sheets.extract_invoice_data pdf_path (Pages pages)
      = Sheets.extract_invoice_data pdf_path (Pages (before ++ after)).
Proof.
  assert (J : forall ps, Sheets.extract_invoice_data pdf_path (Pages ps)
                         = Some (Sheets.parse_invoice_text pdf_path (Sheets.joined_pages ps))).
  { intros ps. cbn [Sheets.extract_invoice_data]. rewrite sheet_read_pages_joined. reflexivity. }
  split; [apply J |].
  intros before after ->. rewrite !J. f_equal. f_equal.
  unfold Sheets.joined_pages. rewrite !map_app, !concat_app. reflexivity.
Qed.

(** A total line cut by a page break is read as one line. *)
Lemma sheet_record_of_joined_pages_witness :
  Sheets.extract_invoice_data Samples.invoice_path
    (Pages [Some (u "Restaurant Name: Biryani House"); None; Some [NL];
            Some (u "Total "); Some (u "₹450")])
  = Sheets.extract_invoice_data Samples.invoice_path
      (Pages ([Some (u "Restaurant Name: Biryani House")]
                ++ [Some [NL]; Some (u "Total "); Some (u "₹450")]))
  /\ option_map Sheets.amount
       (Sheets.extract_invoice_data Samples.invoice_path
          (Pages [Some (u "Restaurant Name: Biryani House"); None; Some [NL];
                  Some (u "Total "); Some (u "₹450")]))
     = Some (u "₹450").
Proof.
  split; [| vm_compute; reflexivity].
  apply (proj2 (sheet_record_of_joined_pages Samples.invoice_path
                  [Some (u "Restaurant Name: Biryani House"); None; Some [NL];
                   Some (u "Total "); Some (u "₹450")])
               [Some (u "Restaurant Name: Biryani House")]
               [Some [NL]; Some (u "Total "); Some (u "₹450")]).
  reflexivity.
Defined.

(* ===================================================================== *)
(** ** The batch of the strict parser *)
(* ===================================================================== *)

Lemma split_on_app_sep (sep : N) (a b : pystr) :
  exists l, l <> [] /\ split_on sep (a ++ sep :: b) = l ++ split_on sep b.
Proof.
  induction a as [| x a IH]; simpl.
  - rewrite N.eqb_refl. exists [[]]. split; [discriminate | reflexivity].
  - destruct IH as (l & Hl & E). rewrite E.
    destruct (x =? sep)%N.
    + exists ([] :: l). split; [discriminate | reflexivity].
    + destruct l as [| h l']; [congruence |]. simpl.
      exists ((x :: h) :: l'). split; [discriminate | reflexivity].
Qed.

Lemma split_on_absent (sep : N) (b : pystr) : ~ In sep b -> split_on sep b = [b].
Proof.
  induction b as [| x b IH]; simpl; intros H; [reflexivity |].
  destruct (N.eqb_spec x sep) as [-> | _]; [exfalso; apply H; left; reflexivity |].
  rewrite IH by (intros X; apply H; right; exact X). reflexivity.
Qed.

Lemma last_app_cons (A : Type) (l : list A) (x : A) (t : list A) (d : A) :
  last (l ++ x :: t) d = last (x :: t) d.
Proof.
  induction l as [| y l IH]; [reflexivity |].
  cbn [app]. rewrite <- IH. destruct l; reflexivity.
Qed.

(** The last component of a path that ends in [/name] is [name]. *)
Lemma basename_after_slash (a name : pystr) :
  ~ In (chr "/") name -> basename (a ++ chr "/" :: name) = name.
Proof.
  intros H. unfold basename.
  destruct (split_on_app_sep (chr "/") a name) as (l & _ & E).
  rewrite E, (@split_on_absent _ _ H). apply last_app_cons.
Qed.

Lemma startswith_app (p s : pystr) : startswith p s = true -> exists t, s = p ++ t.
Proof.
  revert s. induction p as [| x p IH]; intros s; simpl.
  - intros _. exists s. reflexivity.
  - destruct s as [| y s]; [discriminate |].
    intros H. apply andb_prop in H. destruct H as [E H].
    apply N.eqb_eq in E. subst y. destruct (IH s H) as (t & ->).
    exists t. reflexivity.
Qed.

(** Joining a folder and a plain file name, then taking the last
    component, gives the file name back. *)
Lemma basename_path_join (folder_path name : pystr) :
  ~ In (chr "/") name -> basename (Orders.path_join folder_path name) = name.
Proof.
  intros H. unfold Orders.path_join.
  destruct (Orders.endswith (u "/") folder_path) eqn:E; cbn [orb].
  - unfold Orders.endswith in E. apply startswith_app in E. destruct E as (t & E).
    assert (F : folder_path = rev t ++ [chr "/"]).
    { rewrite <- (rev_involutive folder_path), E. rewrite rev_app_distr. reflexivity. }
    rewrite F, <- app_assoc. apply basename_after_slash. exact H.
  - destruct (nonempty folder_path) eqn:Ne; cbn [negb].
    + change (u "/") with [chr "/"]. cbn [app]. apply basename_after_slash. exact H.
    + destruct folder_path; [| discriminate]. cbn [app].
      unfold basename. rewrite (@split_on_absent _ _ H). reflexivity.
Qed.

Lemma sort_by_in (A : Type) (key : A -> pystr) (l : list A) (x : A) :
  In x (sort_by key l) <-> In x l.
Proof.
  split; intros H.
  - eapply Permutation_in; [apply Permutation_sym; apply sort_by_perm | exact H].
  - eapply Permutation_in; [apply sort_by_perm | exact H].
Qed.

(** X3.  Every record the batch holds comes from a listed file whose
    name ends in [.pdf] and does not contain [User_Charge_Invoice]; it
    is a complete record of that file and carries the file's name.  The
    batch is never longer than the listing.  File names are those of
    [os.listdir], which have no slash. *)
Theorem batch_records_come_from_order_files
        (folder_path : pystr) (listing : list (pystr * pdf_file)) (data : Orders.order_data) :
  (forall e, In e listing -> ~ In (chr "/") (fst e)) ->
  In data (Orders.process_all_pdfs folder_path listing) ->
  (exists name pdf,
      In (name, pdf) listing
      /\ Orders.endswith (u ".pdf") name = true
      /\ contains (u "User_Charge_Invoice") name = false
      /\ Orders.extract_order_data (Orders.path_join folder_path name) pdf = Some data
      /\ Orders.file_name data = name
      /\ Orders.complete data = true)
  /\ List.length (Orders.process_all_pdfs folder_path listing) <= List.length listing.
Proof.
  intros Names I. split.
  - unfold Orders.process_all_pdfs in I. cbv zeta in I.
    apply in_flat_map in I. destruct I as ([path pdf] & Ip & Id).
    apply sort_by_in in Ip. apply in_map_iff in Ip.
    destruct Ip as ([name pdf'] & E & If). cbn [fst snd] in E.
    inversion E; subst path pdf'. clear E.
    apply filter_In in If. destruct If as [Il F]. cbn [fst] in F.
    apply andb_prop in F. destruct F as [Fp Fu].
    cbn [fst snd] in Id.
    destruct (Orders.extract_order_data (Orders.path_join folder_path name) pdf)
      as [d |] eqn:X; [| destruct Id].
    destruct Id as [<- | []].
    exists name, pdf. split; [exact Il |]. split; [exact Fp |].
    split; [destruct (contains _ name); [discriminate | reflexivity] |].
    split; [exact X |].
    destruct (@extract_order_data_inv _ _ _ X) as (pages & text & _ & _ & B & C).
    split; [| exact C].
    rewrite B. unfold Orders.build_order. cbn [Orders.file_name].
    apply basename_path_join. exact (Names _ Il).
  - unfold Orders.process_all_pdfs. cbv zeta.
    set (files := map _ (filter _ listing)).
    assert (L1 : forall l : list (pystr * pdf_file),
               List.length
                 (flat_map (fun e => match Orders.extract_order_data (fst e) (snd e) with
                                     | Some d => [d]
                                     | None => []
                                     end) l)
               <= List.length l).
    { induction l as [| e l IH]; simpl; [lia |].
      destruct (Orders.extract_order_data (fst e) (snd e)); simpl; lia. }
    eapply Nat.le_trans; [apply L1 |].
    rewrite <- (Permutation_length (sort_by_perm (fun e : pystr * pdf_file => fst e) files)).
    unfold files. rewrite length_map. apply filter_length_le.
Qed.

Lemma batch_records_come_from_order_files_witness :
  (exists name pdf,
      In (name, pdf) Samples.listing
      /\ Orders.endswith (u ".pdf") name = true
      /\ contains (u "User_Charge_Invoice") name = false
      /\ Orders.extract_order_data (Orders.path_join Samples.folder_path name) pdf
         = Some Samples.dated_in_folder
      /\ Orders.file_name Samples.dated_in_folder = name
      /\ Orders.complete Samples.dated_in_folder = true)
  /\ List.length (Orders.process_all_pdfs Samples.folder_path Samples.listing)
     <= List.length Samples.listing.
Proof.
  apply (@batch_records_come_from_order_files Samples.folder_path Samples.listing
           Samples.dated_in_folder).
  - intros e He. vm_compute in He.
    destruct He as [<- | [<- | [<- | []]]]; vm_compute; intuition discriminate.
  - vm_compute. auto.
Defined.

Lemma batch_record_extracted
      (folder_path : pystr) (listing : list (pystr * pdf_file)) (data : Orders.order_data) :
  In data (Orders.process_all_pdfs folder_path listing) ->
  exists path pdf, Orders.extract_order_data path pdf = Some data.
Proof.
  unfold Orders.process_all_pdfs. cbv zeta. intros I.
  apply in_flat_map in I. destruct I as ([path pdf] & _ & Id). cbn [fst snd] in Id.
  destruct (Orders.extract_order_data path pdf) as [d |] eqn:X; [| destruct Id].
  destruct Id as [<- | []]. exists path, pdf. exact X.
Qed.

(** X4.  In the main block every record that reaches the sort has a
    date, so its sort key is the date itself and the empty placeholder
    of [x['date'] or ''] is never used; it also has a merchant name and
    a total above 20. *)
Theorem sorted_batch_has_dates
        (folder_path : pystr) (listing : list (pystr * pdf_file)) (data : Orders.order_data) :
  In data (Orders.sort_by_date (Orders.process_all_pdfs folder_path listing)) ->
  Orders.date_key data <> []
  /\ Orders.date data = Some (Orders.date_key data)
  /\ truthy (Orders.restaurant_name data) = true
  /\ exists v, Orders.total data = Some v /\ float_gtb v twenty = true.
Proof.
  intros I. unfold Orders.sort_by_date in I. apply sort_by_in in I.
  apply batch_record_extracted in I. destruct I as (path & pdf & X).
  destruct (@extract_order_data_inv _ _ _ X) as (pages & text & _ & _ & B & C).
  apply complete_fields in C. destruct C as (D & R & T).
  unfold Orders.date_key.
  destruct (Orders.date data) as [[| c d] |]; try discriminate.
  split; [discriminate |]. split; [reflexivity |]. split; [exact R |].
  destruct (Orders.total data) as [v |] eqn:V; [| discriminate].
  exists v. split; [reflexivity |].
  subst data. unfold Orders.build_order in V. cbn [Orders.total] in V.
  exact (OrdersFacts.find_total_gt _ _ V).
Qed.

Lemma sorted_batch_has_dates_witness :
  Orders.date_key Samples.dated_in_folder <> []
  /\ Orders.date Samples.dated_in_folder = Some (Orders.date_key Samples.dated_in_folder)
  /\ truthy (Orders.restaurant_name Samples.dated_in_folder) = true
  /\ exists v, Orders.total Samples.dated_in_folder = Some v /\ float_gtb v twenty = true.
Proof.
  apply (@sorted_batch_has_dates Samples.folder_path Samples.listing).
  vm_compute. auto.
Defined.

(* ===================================================================== *)
(** ** Normalized dates in the sorted batch *)
(* ===================================================================== *)

Lemma str_ltb_app_digits (a b : N) (s t : pystr) :
  str_ltb (a :: s) (b :: t)
  = if (a <? b)%N then true else if (b <? a)%N then false else str_ltb s t.
Proof. reflexivity. Qed.

Ltac digit_cases :=
  repeat match goal with
         | |- context [(?a <? ?b)%N] => destruct (N.ltb_spec a b)
         | |- context [(?a <? ?b)%Z] => destruct (Z.ltb_spec a b)
         end;
  try reflexivity; exfalso; zify; Z.div_mod_to_equations; lia.

Lemma pad2_order (x y : Z) (s t : pystr) :
  (0 <= x < 100)%Z -> (0 <= y < 100)%Z ->
  str_ltb (pad2 x ++ s) (pad2 y ++ t)
  = if (x <? y)%Z then true else if (y <? x)%Z then false else str_ltb s t.
Proof.
  intros Hx Hy. unfold pad2, digit_chr. cbn [app]. rewrite !str_ltb_app_digits.
  destruct (str_ltb s t); digit_cases.
Qed.

Lemma pad4_order (x y : Z) (s t : pystr) :
  (0 <= x < 10000)%Z -> (0 <= y < 10000)%Z ->
  str_ltb (pad4 x ++ s) (pad4 y ++ t)
  = if (x <? y)%Z then true else if (y <? x)%Z then false else str_ltb s t.
Proof.
  intros Hx Hy. unfold pad4, digit_chr. cbn [app]. rewrite !str_ltb_app_digits.
  destruct (str_ltb s t); digit_cases.
Qed.

Lemma check_date_fields_bounds (y m d : Z) :
  check_date_fields y m d = true ->
  (0 <= y < 10000 /\ 0 <= m < 100 /\ 0 <= d < 100)%Z.
Proof.
  unfold check_date_fields, days_in_month. intros H.
  repeat (apply andb_prop in H; destruct H as [H ?]).
  repeat match goal with
         | X : (_ <=? _)%Z = true |- _ => apply Z.leb_le in X
         end.
  assert (d <= 31)%Z.
  { destruct (m =? 2)%Z; [destruct (is_leap y); lia |].
    destruct ((m =? 4) || (m =? 6) || (m =? 9) || (m =? 11))%Z; lia. }
  lia.
Qed.

Lemma year_text_four (y : Z) : (1000 <= y)%Z -> year_text y = pad4 y.
Proof.
  intros H. unfold year_text.
  destruct (Z.ltb_spec y 10); [lia |]. destruct (Z.ltb_spec y 100); [lia |].
  destruct (Z.ltb_spec y 1000); [lia | reflexivity].
Qed.

(** On dates written YYYY-MM-DD the order of strings is the order of
    the calendar. *)
Lemma strftime_order (a b : date_t) :
  (1000 <= d_year a)%Z -> (1000 <= d_year b)%Z ->
  check_date_fields (d_year a) (d_month a) (d_day a) = true ->
  check_date_fields (d_year b) (d_month b) (d_day b) = true ->
  str_ltb (strftime_Ymd a) (strftime_Ymd b) = date_ltb a b.
Proof.
  intros Fa Fb Ha Hb.
  apply check_date_fields_bounds in Ha. apply check_date_fields_bounds in Hb.
  destruct Ha as (Ya & Ma & Da). destruct Hb as (Yb & Mb & Db).
  unfold strftime_Ymd. rewrite (year_text_four Fa), (year_text_four Fb).
  change (u "-") with [45%N].
  rewrite (pad4_order _ _ Ya Yb). cbn [app]. rewrite str_ltb_app_digits.
  change (45 <? 45)%N with false. cbv iota.
  rewrite (pad2_order _ _ Ma Mb). cbn [app]. rewrite str_ltb_app_digits.
  change (45 <? 45)%N with false. cbv iota.
  rewrite <- (app_nil_r (pad2 (d_day a))), <- (app_nil_r (pad2 (d_day b))).
  rewrite (pad2_order _ _ Da Db). cbn [str_ltb].
  unfold date_ltb.
  repeat match goal with
         | |- context [(?x <? ?y)%Z] => destruct (Z.ltb_spec x y)
         | |- context [(?x =? ?y)%Z] => destruct (Z.eqb_spec x y)
         end; cbn; try reflexivity; exfalso; lia.
Qed.

Lemma strongly_sorted_nth (A : Type) (R : A -> A -> Prop) (l : list A) :
  StronglySorted R l ->
  forall i j a b, i < j -> nth_error l i = Some a -> nth_error l j = Some b -> R a b.
Proof.
  induction 1 as [| x t St IH Fa]; intros i j a b Lt Ha Hb.
  - destruct i; discriminate.
  - destruct j as [| j]; [lia |]. cbn [nth_error] in Hb.
    destruct i as [| i]; cbn [nth_error] in Ha.
    + inversion Ha; subst x. rewrite Forall_forall in Fa. apply Fa.
      eapply nth_error_In. exact Hb.
    + apply (IH i j); [lia | assumption | assumption].
Qed.

(** X5.  Records whose dates were normalized, for years from 1000 on,
    stand in the sorted batch in the order of the calendar: of two such
    records the one placed first has the earlier date, or the same
    date.  (Below the year 1000 the year is written with fewer digits
    and the order of strings is no longer that of the calendar.) *)
Theorem normalized_dates_sort_chronologically
        (all_data : list Orders.order_data) (i j : nat)
        (a b : Orders.order_data) (da db : date_t) :
  i < j ->
  nth_error (Orders.sort_by_date all_data) i = Some a ->
  nth_error (Orders.sort_by_date all_data) j = Some b ->
  Orders.date a = Some (strftime_Ymd da) ->
  Orders.date b = Some (strftime_Ymd db) ->
  check_date_fields (d_year da) (d_month da) (d_day da) = true ->
  check_date_fields (d_year db) (d_month db) (d_day db) = true ->
  (1000 <= d_year da)%Z ->
  (1000 <= d_year db)%Z ->
  date_ltb db da = false.
Proof.
  intros Lt Ha Hb Da Db Ca Cb Ya Yb.
  pose proof (@strongly_sorted_nth _ _ _
                (sort_by_sorted Orders.date_key all_data) i j a b Lt Ha Hb) as K.
  unfold key_le, Orders.date_key in K. rewrite Da, Db in K.
  rewrite (@strftime_order db da Yb Ya Cb Ca) in K. exact K.
Qed.

Lemma normalized_dates_sort_chronologically_witness :
  Orders.sort_by_date [Samples.dated; Samples.dated_earlier]
  = [Samples.dated_earlier; Samples.dated]
  /\ date_ltb (Date 2026 1 31) (Date 2025 12 9) = false.
Proof.
  split; [vm_compute; reflexivity |].
  apply (@normalized_dates_sort_chronologically
           [Samples.dated; Samples.dated_earlier] 0 1
           Samples.dated_earlier Samples.dated (Date 2025 12 9) (Date 2026 1 31));
    try (vm_compute; reflexivity); vm_compute; discriminate.
Defined.

(** Below the year 1000 the order of the stored texts is not that of
    the calendar: the year 999 stands after the year 2026. *)
Example early_year_sorts_late :
  strftime_Ymd (Date 999 1 31) = u "999-01-31"
  /\ str_ltb (u "2026-01-31") (strftime_Ymd (Date 999 1 31)) = true
  /\ date_ltb (Date 999 1 31) (Date 2026 1 31) = true.
Proof. repeat split; vm_compute; reflexivity. Qed.

(* ===================================================================== *)
(** ** The order id and the merchant name of the strict parser *)
(* ===================================================================== *)

Lemma digit_class (f : flags) (v : pystr) :
  forallb (cset_has f (CIn [CDigit])) v = true -> forallb is_digit v = true.
Proof.
  rewrite !forallb_forall. intros H c I. specialize (H c I).
  unfold cset_has, items_have in H. cbn [existsb citem_has] in H.
  rewrite orb_false_r in H.
  destruct (is_digit c) eqn:D; [reflexivity |].
  cbn [orb] in H. apply andb_prop in H. destruct H as [_ H].
  unfold lower_c, upper_c in H.
  destruct (is_upper c) eqn:U; destruct (is_lower c) eqn:L;
    rewrite ?D in H; cbn [orb] in H; try discriminate;
    unfold is_digit, is_upper, is_lower in *;
    repeat match goal with
           | X : (_ && _) = true |- _ => apply andb_prop in X; destruct X
           | X : (_ <=? _)%N = true |- _ => apply N.leb_le in X
           | X : (_ || _) = true |- _ => apply orb_prop in X; destruct X
           end; lia.
Qed.

(** X6.  The order id of the strict parser is absent exactly when the
    label with its digits is nowhere in the text; otherwise it is a
    non-empty run of decimal digits. *)
Theorem order_id_is_digits (pdf_path text : pystr) :
  match Orders.order_id (Orders.build_order pdf_path text) with
  | Some id => id <> [] /\ forallb is_digit id = true
  | None => re_search no_flags Orders.order_id_re text = None
  end.
Proof.
  unfold Orders.build_order. cbn [Orders.order_id]. unfold Orders.find_order_id.
  destruct (re_search no_flags Orders.order_id_re text) as [m |] eqn:S; [| reflexivity].
  unfold re_search in S. apply search_from_inv in S. destruct S as (prev & R).
  apply run_tail in R. destruct R as (st' & R).
  change (tail_of Orders.order_id_re) with (RGrp 1 (RRep true 1 None (CIn [CDigit]))) in R.
  pose proof R as R'. apply group_capture in R. destruct R as (v & A & L).
  apply group_of_class in R'. destruct R' as (v' & A' & F).
  rewrite A in A'. inversion A'; subst v'.
  unfold group. rewrite A. split.
  - intros ->. simpl in L. lia.
  - exact (@digit_class _ _ F).
Qed.

Lemma lstrip_not_blank (s : pystr) : starts_blank (lstrip s) = false.
Proof.
  induction s as [| c t IH]; [reflexivity |]. simpl.
  destruct (is_space c) eqn:E; [exact IH | simpl; exact E].
Qed.

Lemma lstrip_keeps_last (l : pystr) (c : N) :
  is_space c = false -> exists l', lstrip (l ++ [c]) = l' ++ [c].
Proof.
  intros E. induction l as [| x l IH]; simpl.
  - rewrite E. exists []. reflexivity.
  - destruct (is_space x); [exact IH | exists (x :: l); reflexivity].
Qed.

Lemma rstrip_keeps_start (s : pystr) : starts_blank s = false -> starts_blank (rstrip s) = false.
Proof.
  destruct s as [| c t]; [reflexivity |]. cbn [starts_blank]. intros E.
  unfold rstrip. cbn [rev].
  destruct (@lstrip_keeps_last (rev t) c E) as (l' & ->).
  rewrite rev_app_distr. simpl. exact E.
Qed.

(** [strip] leaves no white space at either end. *)
Lemma strip_trimmed (s : pystr) :
  starts_blank (strip s) = false /\ ends_blank (strip s) = false.
Proof.
  unfold strip. split.
  - apply rstrip_keeps_start. apply lstrip_not_blank.
  - unfold ends_blank, rstrip. rewrite rev_involutive. apply lstrip_not_blank.
Qed.

Lemma strict_merchant_capture_one_line (text : pystr) (m : rmatch) :
  re_search no_flags Orders.restaurant_re text = Some m -> ~ In NL (group 1 m).
Proof.
  intros S. unfold re_search in S. apply search_from_inv in S. destruct S as (prev & R).
  apply run_tail in R. destruct R as (st' & R).
  change (tail_of Orders.restaurant_re)
    with (RGrp 1 (RRep true 1 None (CNot [CChar NL]))) in R.
  apply group_of_class in R. destruct R as (v & A & F).
  unfold group. rewrite A. intros X.
  rewrite forallb_forall in F. specialize (F NL X). vm_compute in F. discriminate.
Qed.

(** X7.  The merchant name the strict parser stores lies on one line and
    has no white space at its beginning or at its end. *)
Theorem strict_merchant_is_trimmed (pdf_path text name : pystr) :
  Orders.restaurant_name (Orders.build_order pdf_path text) = Some name ->
  ~ In NL name /\ starts_blank name = false /\ ends_blank name = false.
Proof.
  unfold Orders.build_order. cbn [Orders.restaurant_name]. unfold Orders.find_restaurant.
  destruct (re_search no_flags Orders.restaurant_re text) as [m |] eqn:S; [| discriminate].
  intros E. inversion E; subst name. split.
  - intros X. apply strip_incl in X. exact (@strict_merchant_capture_one_line text m S X).
  - apply strip_trimmed.
Qed.

Lemma strict_merchant_is_trimmed_witness :
  ~ In NL (u "Biryani House")
  /\ starts_blank (u "Biryani House") = false /\ ends_blank (u "Biryani House") = false.
Proof.
  apply (@strict_merchant_is_trimmed Samples.invoice_path
           (u "Restaurant Name:   Biryani House   
Total ₹450") (u "Biryani House")).
  vm_compute. reflexivity.
Defined.

(* ===================================================================== *)
(** ** Where the items of a record come from *)
(* ===================================================================== *)


Lemma scan_line_origin (st : bool * list pystr) (line e : pystr) :
  In e (snd (Orders.scan_line st line)) ->
  In e (snd st) \/ Orders.table_origin line e.
Proof.
  destruct st as [sec acc]. rewrite scan_line_unfold. cbn [snd].
  destruct (Orders.is_table_header line); [cbn [snd]; auto |].
  destruct sec; [| cbn [snd]; auto].
  destruct (Orders.is_price_header line); [cbn [snd]; auto |].
  destruct (Orders.is_charge_line line) eqn:C; [cbn [snd]; auto |].
  destruct (Orders.is_terms_line line); [cbn [snd]; auto |].
  destruct (true && nonempty (strip line)); [| cbn [snd]; auto].
  destruct (re_match no_flags Orders.item_re line) as [m |] eqn:M; [| cbn [snd]; auto].
  cbn [snd]. intros I. apply in_app_or in I. destruct I as [I | [<- | []]]; [auto |].
  right. exists m. auto.
Qed.

Lemma scan_lines_origin (lines : list pystr) :
  forall (st : bool * list pystr) (e : pystr),
    In e (snd (fold_left Orders.scan_line lines st)) ->
    In e (snd st) \/ exists line, In line lines /\ Orders.table_origin line e.
Proof.
  induction lines as [| l lines IH]; intros st e I; [left; exact I |].
  cbn [fold_left] in I. destruct (IH _ _ I) as [I' | (line & Il & O)].
  - destruct (@scan_line_origin _ _ _ I') as [I'' | O]; [left; exact I'' |].
    right. exists l. split; [left; reflexivity | exact O].
  - right. exists line. split; [right; exact Il | exact O].
Qed.

Lemma loose_line_origin (acc : list pystr) (line e : pystr) :
  In e (Orders.loose_line acc line) -> In e acc \/ Orders.loose_origin line e.
Proof.
  unfold Orders.loose_line.
  destruct (contains [RUPEE] line); cbn [andb]; [| auto].
  destruct (existsb _ Orders.loose_keywords) eqn:K; cbn [negb]; [auto |].
  destruct (2 <=? _); [| auto].
  destruct (nonempty _); cbn [andb]; [| auto].
  destruct (3 <? _) eqn:L; [| auto].
  destruct (re_search no_flags Orders.price_re line) as [m |] eqn:M; [| auto].
  intros I. apply in_app_or in I. destruct I as [I | [<- | []]]; [auto |].
  right. exists m. split; [exact M |]. split; [reflexivity |].
  split; [apply Nat.ltb_lt; exact L | exact K].
Qed.

Lemma loose_lines_origin (lines : list pystr) :
  forall (acc : list pystr) (e : pystr),
    In e (fold_left Orders.loose_line lines acc) ->
    In e acc \/ exists line, In line lines /\ Orders.loose_origin line e.
Proof.
  induction lines as [| l lines IH]; intros acc e I; [left; exact I |].
  cbn [fold_left] in I. destruct (IH _ _ I) as [I' | (line & Il & O)].
  - destruct (@loose_line_origin _ _ _ I') as [I'' | O]; [left; exact I'' |].
    right. exists l. split; [left; reflexivity | exact O].
  - right. exists line. split; [right; exact Il | exact O].
Qed.

Lemma existsb_sub (A : Type) (g : A -> bool) (small big : list A) :
  (forall x, In x small -> In x big) -> existsb g big = false -> existsb g small = false.
Proof. apply existsb_incl. Qed.

(** X8.  Every item of a record of the strict parser was read on one
    line of the text, by the table tier or by the tier outside a table,
    and that line mentions neither delivery nor platform nor packaging,
    in any letter case: charges never become items. *)
Theorem items_come_from_item_lines (pdf_path text entry : pystr) :
  In entry (Orders.items (Orders.build_order pdf_path text)) ->
  exists line,
    In line (split_on NL text)
    /\ (Orders.table_origin line entry \/ Orders.loose_origin line entry)
    /\ forall keyword, In keyword Orders.never_item_keywords ->
                       contains keyword (lower line) = false.
Proof.
  unfold Orders.build_order. cbn [Orders.items]. unfold Orders.find_items.
  intros I.
  assert (O : exists line, In line (split_on NL text)
                           /\ (Orders.table_origin line entry
                               \/ Orders.loose_origin line entry)).
  { destruct (snd (Orders.scan_table (split_on NL text))) as [| x l] eqn:T.
    - destruct (@loose_lines_origin _ _ _ I) as [[] | (line & Il & O)].
      exists line. auto.
    - rewrite <- T in I. unfold Orders.scan_table in I.
      destruct (@scan_lines_origin _ _ _ I) as [[] | (line & Il & O)].
      exists line. auto. }
  destruct O as (line & Il & O). exists line. split; [exact Il |]. split; [exact O |].
  intros keyword Ik.
  assert (Both : existsb (fun k => contains k (lower line)) Orders.never_item_keywords = false).
  { destruct O as [(m & _ & _ & C) | (m & _ & _ & _ & K)].
    - apply existsb_sub with (big := Orders.charge_keywords); [| exact C].
      intros x Hx. vm_compute in Hx. vm_compute. tauto.
    - apply existsb_sub with (big := Orders.loose_keywords); [| exact K].
      intros x Hx. vm_compute in Hx. vm_compute. tauto. }
  destruct (contains keyword (lower line)) eqn:C; [| reflexivity].
  assert (X : existsb (fun k => contains k (lower line)) Orders.never_item_keywords = true)
    by (apply existsb_exists; exists keyword; auto).
  congruence.
Qed.

Lemma items_come_from_item_lines_witness :
  exists line,
    In line (split_on NL Samples.invoice)
    /\ (Orders.table_origin line (u "Paneer Tikka (Qty: 2, ₹500)")
        \/ Orders.loose_origin line (u "Paneer Tikka (Qty: 2, ₹500)"))
    /\ forall keyword, In keyword Orders.never_item_keywords ->
                       contains keyword (lower line) = false.
Proof.
  apply (@items_come_from_item_lines Samples.invoice_path Samples.invoice).
  vm_compute. auto.
Defined.

(* ===================================================================== *)
(** ** [analyze_data]: counts per restaurant *)
(* ===================================================================== *)

Lemma str_eqb_eq (a b : pystr) : str_eqb a b = true <-> a = b.
Proof.
  revert b. induction a as [| x a IH]; intros [| y b]; simpl;
    try (split; [discriminate | discriminate]); [tauto |].
  rewrite andb_true_iff, N.eqb_eq, IH. split.
  - intros [-> ->]. reflexivity.
  - intros E. inversion E. auto.
Qed.

Lemma okey_eqb_eq (a b : Orders.okey) : Orders.okey_eqb a b = true <-> a = b.
Proof.
  destruct a as [x |], b as [y |]; simpl;
    try (split; [discriminate | discriminate]); [| tauto].
  rewrite str_eqb_eq. split; [intros ->; reflexivity | intros E; inversion E; reflexivity].
Qed.

Lemma okey_eqb_spec (a b : Orders.okey) : reflect (a = b) (Orders.okey_eqb a b).
Proof.
  destruct (Orders.okey_eqb a b) eqn:E; constructor.
  - apply okey_eqb_eq. exact E.
  - intros X. apply okey_eqb_eq in X. congruence.
Qed.

Section DictFacts.
Variable V : Type.

(** Reading a key after a write: the value written at that key, the old
    value at any other. *)
Lemma dict_get_set (d : list (Orders.okey * V)) (k k' : Orders.okey) (v default : V) :
  Orders.dict_get (Orders.dict_set d k' v) k default
  = if Orders.okey_eqb k k' then v else Orders.dict_get d k default.
Proof.
  induction d as [| [k1 v1] t IH]; simpl.
  - destruct (Orders.okey_eqb k k'); reflexivity.
  - destruct (okey_eqb_spec k' k1) as [-> | N1]; simpl.
    + destruct (Orders.okey_eqb k k1); reflexivity.
    + rewrite IH. destruct (okey_eqb_spec k k1) as [-> | N2].
      * destruct (okey_eqb_spec k1 k') as [E | _]; [congruence | reflexivity].
      * reflexivity.
Qed.

Lemma dict_set_keys (d : list (Orders.okey * V)) (k : Orders.okey) (v : V) :
  map fst (Orders.dict_set d k v)
  = if existsb (Orders.okey_eqb k) (map fst d) then map fst d else map fst d ++ [k].
Proof.
  induction d as [| [k1 v1] t IH]; simpl; [reflexivity |].
  destruct (Orders.okey_eqb k k1); simpl; [reflexivity |].
  rewrite IH. destruct (existsb (Orders.okey_eqb k) (map fst t)); reflexivity.
Qed.

Lemma dict_set_nodup (d : list (Orders.okey * V)) (k : Orders.okey) (v : V) :
  NoDup (map fst d) -> NoDup (map fst (Orders.dict_set d k v)).
Proof.
  intros H. rewrite dict_set_keys.
  destruct (existsb (Orders.okey_eqb k) (map fst d)) eqn:E; [exact H |].
  apply NoDup_app; [exact H | constructor; [intros [] | constructor] |].
  intros x I [Ek | []]. subst x.
  assert (X : existsb (Orders.okey_eqb k) (map fst d) = true).
  { apply existsb_exists. exists k. split; [exact I | apply okey_eqb_eq; reflexivity]. }
  congruence.
Qed.
End DictFacts.

Lemma dict_set_bump_sum (d : list (Orders.okey * Z)) (k : Orders.okey) :
  Orders.sum_counts (Orders.dict_set d k (Orders.dict_get d k 0 + 1))%Z
  = (Orders.sum_counts d + 1)%Z.
Proof.
  unfold Orders.sum_counts. induction d as [| [k1 v1] t IH]; simpl; [reflexivity |].
  destruct (Orders.okey_eqb k k1); simpl; [lia | rewrite IH; lia].
Qed.

Lemma restaurant_counts_from (data : list Orders.order_data) :
  forall (d : list (Orders.okey * Z)) (k : Orders.okey),
    Orders.dict_get (fold_left Orders.count_restaurant data d) k 0%Z
    = (Orders.dict_get d k 0 + Z.of_nat (Orders.orders_from k data))%Z
    /\ (NoDup (map fst d) -> NoDup (map fst (fold_left Orders.count_restaurant data d)))
    /\ Orders.sum_counts (fold_left Orders.count_restaurant data d)
       = (Orders.sum_counts d + Z.of_nat (List.length data))%Z.
Proof.
  unfold Orders.orders_from.
  induction data as [| row data IH]; intros d k; cbn [fold_left filter List.length].
  - split; [lia | split; [auto | lia]].
  - destruct (IH (Orders.count_restaurant d row) k) as (G & N & S).
    unfold Orders.count_restaurant in *. split; [| split].
    + rewrite G, dict_get_set.
      destruct (okey_eqb_spec k (Orders.restaurant_name row)) as [-> | Ne].
      * destruct (okey_eqb_spec (Orders.restaurant_name row) (Orders.restaurant_name row))
          as [_ | X]; [| congruence].
        cbn [List.length]. lia.
      * destruct (okey_eqb_spec (Orders.restaurant_name row) k) as [X | _]; [congruence |].
        lia.
    + intros H. apply N. apply dict_set_nodup. exact H.
    + rewrite S, dict_set_bump_sum. lia.
Qed.

(** X9.  [restaurant_counts] holds for each restaurant the number of
    rows that name it, each restaurant once, and the counts add up to
    the number of orders. *)
Theorem restaurant_counts_exact (data : list Orders.order_data) (k : Orders.okey) :
  Orders.dict_get (Orders.restaurant_counts data) k 0%Z
  = Z.of_nat (Orders.orders_from k data)
  /\ NoDup (map fst (Orders.restaurant_counts data))
  /\ Orders.sum_counts (Orders.restaurant_counts data) = Z.of_nat (List.length data).
Proof.
  unfold Orders.restaurant_counts.
  destruct (restaurant_counts_from data [] k) as (G & N & S).
  split; [exact G |]. split; [apply N; constructor | exact S].
Qed.

(* ===================================================================== *)
(** ** [analyze_data]: the ten restaurants shown *)
(* ===================================================================== *)

Lemma insert_desc_perm (x : Orders.okey * Z) (l : list (Orders.okey * Z)) :
  Permutation (x :: l) (Orders.insert_desc x l).
Proof.
  induction l as [| y t IH]; simpl; [apply Permutation_refl |].
  destruct (snd y <? snd x)%Z; [apply Permutation_refl |].
  eapply Permutation_trans; [apply perm_swap |]. apply perm_skip. exact IH.
Qed.

Lemma insert_desc_sorted (x : Orders.okey * Z) (l : list (Orders.okey * Z)) :
  StronglySorted Orders.count_ge l -> StronglySorted Orders.count_ge (Orders.insert_desc x l).
Proof.
  induction 1 as [| y t St IH Fa]; simpl.
  - constructor; constructor.
  - destruct (Z.ltb_spec (snd y) (snd x)) as [Lt | Ge].
    + constructor; [constructor; assumption |].
      constructor; [unfold Orders.count_ge; lia |].
      rewrite Forall_forall in *. intros z I. specialize (Fa z I).
      unfold Orders.count_ge in *. lia.
    + constructor; [exact IH |].
      rewrite Forall_forall in *. intros z I.
      apply (Permutation_in _ (Permutation_sym (insert_desc_perm x t))) in I.
      destruct I as [<- | I]; [exact Ge | apply Fa; exact I].
Qed.

Lemma sorted_desc_spec (items : list (Orders.okey * Z)) :
  Permutation items (Orders.sorted_desc items)
  /\ StronglySorted Orders.count_ge (Orders.sorted_desc items).
Proof.
  unfold Orders.sorted_desc.
  assert (G : forall acc,
             StronglySorted Orders.count_ge acc ->
             Permutation (items ++ acc)
                         (fold_left (fun acc x => Orders.insert_desc x acc) items acc)
             /\ StronglySorted Orders.count_ge
                  (fold_left (fun acc x => Orders.insert_desc x acc) items acc)).
  { induction items as [| x t IH]; intros acc H; simpl.
    - split; [apply Permutation_refl | exact H].
    - destruct (IH (Orders.insert_desc x acc) (insert_desc_sorted x H)) as [P S].
      split; [| exact S].
      eapply Permutation_trans; [| exact P].
      eapply Permutation_trans; [apply Permutation_middle |].
      apply Permutation_app_head. apply insert_desc_perm. }
  destruct (G [] (SSorted_nil _)) as [P S]. rewrite app_nil_r in P. auto.
Qed.

Lemma strongly_sorted_app (A : Type) (R : A -> A -> Prop) (l1 l2 : list A) :
  StronglySorted R (l1 ++ l2) ->
  StronglySorted R l1 /\ forall a b, In a l1 -> In b l2 -> R a b.
Proof.
  induction l1 as [| x l1 IH]; cbn [app]; intros H.
  - split; [constructor | intros a b []].
  - inversion H as [| ? ? St Fa]; subst. destruct (IH St) as [S1 Cross].
    rewrite Forall_forall in Fa. split.
    + constructor; [exact S1 |]. rewrite Forall_forall. intros z I.
      apply Fa. apply in_or_app. left. exact I.
    + intros a b [<- | Ia] Ib; [apply Fa; apply in_or_app; right; exact Ib |].
      apply Cross; assumption.
Qed.

(** X10.  The list of restaurants shown by order count has at most ten
    entries of [restaurant_counts], the greater count first, and no
    restaurant left out has more orders than one that is shown. *)
Theorem shown_restaurants_are_the_most_ordered (data : list Orders.order_data) :
  List.length (Orders.sorted_restaurants data) <= 10
  /\ StronglySorted Orders.count_ge (Orders.sorted_restaurants data)
  /\ (forall e, In e (Orders.sorted_restaurants data) ->
                In e (Orders.restaurant_counts data))
  /\ (forall e e',
         In e (Orders.restaurant_counts data) ->
         ~ In e (Orders.sorted_restaurants data) ->
         In e' (Orders.sorted_restaurants data) ->
         (snd e <= snd e')%Z).
Proof.
  unfold Orders.sorted_restaurants.
  destruct (sorted_desc_spec (Orders.restaurant_counts data)) as [P S].
  set (L := Orders.sorted_desc (Orders.restaurant_counts data)) in *.
  rewrite <- (firstn_skipn 10 L) in S.
  apply strongly_sorted_app in S. destruct S as [S1 Cross].
  split; [apply firstn_le_length |]. split; [exact S1 |]. split.
  - intros e I. apply (Permutation_in _ (Permutation_sym P)).
    rewrite <- (firstn_skipn 10 L). apply in_or_app. left. exact I.
  - intros e e' I Out I'.
    apply (Permutation_in _ P) in I. rewrite <- (firstn_skipn 10 L) in I.
    apply in_app_or in I. destruct I as [I | I]; [contradiction |].
    exact (Cross e' e I' I).
Qed.

(* ===================================================================== *)
(** ** [analyze_data]: the highest and the lowest order *)
(* ===================================================================== *)

Lemma z_compare_cases (a b : Z) :
  CompareSpec (a = b) (a < b)%Z (b < a)%Z (IntDef.Z.compare a b).
Proof. exact (Z.compare_spec a b). Qed.

Lemma pos_compare_cases (a b : positive) :
  CompareSpec (a = b) (a < b)%positive (b < a)%positive (PosDef.Pos.compare_cont Eq a b).
Proof. exact (Pos.compare_spec a b). Qed.

Ltac cmp_cases :=
  repeat match goal with
         | H : context [IntDef.Z.compare ?a ?b] |- _ => destruct (z_compare_cases a b)
         | |- context [IntDef.Z.compare ?a ?b] => destruct (z_compare_cases a b)
         | H : context [PosDef.Pos.compare_cont Eq ?a ?b] |- _ =>
             destruct (pos_compare_cases a b)
         | |- context [PosDef.Pos.compare_cont Eq ?a ?b] => destruct (pos_compare_cases a b)
         end;
  cbn in *; try discriminate; try reflexivity; try lia.

Lemma SFltb_irrefl (x : float) : SFltb x x = false.
Proof.
  unfold SFltb. destruct x as [s | s | | s m e]; cbn [SFcompare];
    try destruct s; cmp_cases.
Qed.

Lemma SFltb_trans (x y z : float) :
  SFltb x y = true -> SFltb y z = true -> SFltb x z = true.
Proof.
  unfold SFltb.
  destruct x as [sx | sx | | sx mx ex], y as [sy | sy | | sy my ey],
           z as [sz | sz | | sz mz ez];
    cbn [SFcompare];
    try destruct sx; try destruct sy; try destruct sz;
    try discriminate; try reflexivity; intros H1 H2; cmp_cases.
Qed.

Lemma SFeqb_ltb_l (a b x : float) : SFeqb a b = true -> SFltb a x = SFltb b x.
Proof.
  unfold SFeqb, SFltb.
  destruct a as [sa | sa | | sa ma ea], b as [sb | sb | | sb mb eb],
           x as [sx | sx | | sx mx ex];
    cbn [SFcompare];
    try destruct sa; try destruct sb; try destruct sx;
    try discriminate; try reflexivity; intros H1; cmp_cases.
Qed.

Lemma SFeqb_ltb_r (a b x : float) : SFeqb a b = true -> SFltb x a = SFltb x b.
Proof.
  unfold SFeqb, SFltb.
  destruct a as [sa | sa | | sa ma ea], b as [sb | sb | | sb mb eb],
           x as [sx | sx | | sx mx ex];
    cbn [SFcompare];
    try destruct sa; try destruct sb; try destruct sx;
    try discriminate; try reflexivity; intros H1; cmp_cases.
Qed.

Lemma gt_twenty_eq_self (v : float) : float_gtb v twenty = true -> SFeqb v v = true.
Proof.
  unfold float_gtb, SFltb, SFeqb. rewrite twenty_eq.
  destruct v as [s | s | | s m e]; cbn [SFcompare]; try destruct s;
    try discriminate; try reflexivity; intros _; cmp_cases.
Qed.

Lemma SFltb_between (a b c : float) :
  SFltb a b = true -> SFeqb c c = true -> SFltb a c = true \/ SFltb c b = true.
Proof.
  unfold SFeqb, SFltb.
  destruct a as [sa | sa | | sa ma ea], b as [sb | sb | | sb mb eb],
           c as [sc | sc | | sc mc ec];
    cbn [SFcompare];
    try destruct sa; try destruct sb; try destruct sc;
    try discriminate; auto; intros H1 H2; cmp_cases; auto;
    try (left; reflexivity); try (right; reflexivity).
Qed.

(** [max_from] returns an element, and none compares greater, when the
    numbers are comparable (none is a NaN). *)
Lemma max_from_spec (l : list float) :
  forall m,
    (forall x, In x (m :: l) -> SFeqb x x = true) ->
    In (Orders.max_from m l) (m :: l)
    /\ forall x, In x (m :: l) -> float_gtb x (Orders.max_from m l) = false.
Proof.
  unfold float_gtb.
  induction l as [| y l IH]; intros m Ok; cbn [Orders.max_from]; unfold float_gtb.
  - split; [left; reflexivity |]. intros x [E | []]. subst x. apply SFltb_irrefl.
  - assert (Ok' : forall x, In x ((if SFltb m y then y else m) :: l) -> SFeqb x x = true).
    { intros x [E | I]; [| apply Ok; right; right; exact I].
      subst x. destruct (SFltb m y); apply Ok; [right; left | left]; reflexivity. }
    destruct (IH _ Ok') as [I B]. split.
    + destruct I as [E | I]; [| right; right; exact I].
      rewrite <- E. destruct (SFltb m y); [right; left | left]; reflexivity.
    + intros x Ix.
      destruct (SFltb (Orders.max_from (if SFltb m y then y else m) l) x) eqn:X;
        [exfalso | reflexivity].
      destruct Ix as [E | [E | Ix]].
      * subst x. destruct (SFltb m y) eqn:G.
        -- pose proof (B y (or_introl eq_refl)) as By.
           rewrite (@SFltb_trans _ _ _ X G) in By. discriminate.
        -- pose proof (B m (or_introl eq_refl)) as Bm. congruence.
      * subst x. destruct (SFltb m y) eqn:G.
        -- pose proof (B y (or_introl eq_refl)) as By. congruence.
        -- pose proof (B m (or_introl eq_refl)) as Bm.
           destruct (@SFltb_between _ _ m X (Ok m (or_introl eq_refl))); congruence.
      * pose proof (B x (or_intror Ix)). congruence.
Qed.

Lemma min_from_spec (l : list float) :
  forall m,
    (forall x, In x (m :: l) -> SFeqb x x = true) ->
    In (Orders.min_from m l) (m :: l)
    /\ forall x, In x (m :: l) -> SFltb x (Orders.min_from m l) = false.
Proof.
  induction l as [| y l IH]; intros m Ok; cbn [Orders.min_from].
  - split; [left; reflexivity |]. intros x [E | []]. subst x. apply SFltb_irrefl.
  - assert (Ok' : forall x, In x ((if SFltb y m then y else m) :: l) -> SFeqb x x = true).
    { intros x [E | I]; [| apply Ok; right; right; exact I].
      subst x. destruct (SFltb y m); apply Ok; [right; left | left]; reflexivity. }
    destruct (IH _ Ok') as [I B]. split.
    + destruct I as [E | I]; [| right; right; exact I].
      rewrite <- E. destruct (SFltb y m); [right; left | left]; reflexivity.
    + intros x Ix.
      destruct (SFltb x (Orders.min_from (if SFltb y m then y else m) l)) eqn:X;
        [exfalso | reflexivity].
      destruct Ix as [E | [E | Ix]].
      * subst x. destruct (SFltb y m) eqn:G.
        -- pose proof (B y (or_introl eq_refl)) as By.
           rewrite (@SFltb_trans _ _ _ G X) in By. discriminate.
        -- pose proof (B m (or_introl eq_refl)) as Bm. congruence.
      * subst x. destruct (SFltb y m) eqn:G.
        -- pose proof (B y (or_introl eq_refl)) as By. congruence.
        -- pose proof (B m (or_introl eq_refl)) as Bm.
           destruct (@SFltb_between _ _ m X (Ok m (or_introl eq_refl))); congruence.
      * pose proof (B x (or_intror Ix)). congruence.
Qed.

Lemma totals_of_spec (data : list Orders.order_data) :
  (forall row, In row data ->
               exists v, Orders.total row = Some v /\ float_gtb v twenty = true) ->
  exists ts,
    Orders.totals_of data = Some ts
    /\ (forall v, In v ts <-> exists row, In row data /\ Orders.total row = Some v).
Proof.
  induction data as [| row data IH]; intros H; cbn [Orders.totals_of].
  - exists []. split; [reflexivity |]. intros v. split; [intros [] | intros (r & [] & _)].
  - destruct (H row (or_introl eq_refl)) as (v & T & _). rewrite T.
    destruct IH as (ts & E & Sp); [intros r I; apply H; right; exact I |].
    rewrite E. exists (v :: ts). split; [reflexivity |]. intros w. split.
    + intros [<- | I]; [exists row; split; [left; reflexivity | exact T] |].
      apply Sp in I. destruct I as (r & Ir & Tr). exists r. split; [right; exact Ir | exact Tr].
    + intros (r & [<- | Ir] & Tr); [left; congruence |].
      right. apply Sp. exists r. auto.
Qed.

Lemma find_total_is (data : list Orders.order_data) (v : float) :
  SFeqb v v = true ->
  (exists row, In row data /\ Orders.total row = Some v) ->
  exists row w, find (Orders.total_is v) data = Some row
                /\ In row data /\ Orders.total row = Some w /\ SFeqb w v = true.
Proof.
  intros Sv (r & Ir & Tr).
  destruct (find (Orders.total_is v) data) as [row |] eqn:F.
  - apply find_some in F. destruct F as [I P]. unfold Orders.total_is in P.
    destruct (Orders.total row) as [w |] eqn:W; [| discriminate].
    exists row, w. auto.
  - exfalso. pose proof (find_none _ _ F r Ir) as N.
    unfold Orders.total_is in N. rewrite Tr, Sv in N. discriminate.
Qed.

(** X11.  On a batch that is not empty and whose totals are all above
    20, as the strict parser returns them, [analyze_data] finds a
    highest and a lowest order among the rows, without raising; no row
    has a total greater than that of the highest, none a smaller one
    than that of the lowest. *)
Theorem extreme_orders_bound_the_batch (data : list Orders.order_data) :
  data <> [] ->
  (forall row, In row data ->
               exists v, Orders.total row = Some v /\ float_gtb v twenty = true) ->
  exists hi lo vhi vlo,
    Orders.extreme_orders data = Some (hi, lo)
    /\ In hi data /\ In lo data
    /\ Orders.total hi = Some vhi /\ Orders.total lo = Some vlo
    /\ forall row v, In row data -> Orders.total row = Some v ->
                     float_gtb v vhi = false /\ SFltb v vlo = false.
Proof.
  intros Ne H. destruct (totals_of_spec data H) as (ts & E & Sp).
  unfold Orders.extreme_orders. rewrite E.
  destruct ts as [| t ts].
  { destruct data as [| row data]; [congruence |].
    destruct (H row (or_introl eq_refl)) as (v & T & _).
    exfalso. apply (proj2 (Sp v)). exists row. split; [left; reflexivity | exact T]. }
  assert (Ok : forall x, In x (t :: ts) -> SFeqb x x = true).
  { intros x I. apply Sp in I. destruct I as (r & Ir & Tr).
    destruct (H r Ir) as (v & Tv & G). apply gt_twenty_eq_self. congruence. }
  destruct (@max_from_spec ts t Ok) as [Imax Bmax].
  destruct (@min_from_spec ts t Ok) as [Imin Bmin].
  destruct (@find_total_is data (Orders.max_from t ts) (Ok _ Imax) (proj1 (Sp _) Imax))
    as (hi & vhi & Fh & Ih & Th & Eh).
  destruct (@find_total_is data (Orders.min_from t ts) (Ok _ Imin) (proj1 (Sp _) Imin))
    as (lo & vlo & Fl & Il & Tl & El).
  rewrite Fh, Fl. exists hi, lo, vhi, vlo.
  repeat (split; [first [reflexivity | assumption] |]).
  intros row v Ir Tr.
  assert (Iv : In v (t :: ts)) by (apply Sp; exists row; auto).
  split.
  - unfold float_gtb. rewrite (@SFeqb_ltb_l _ _ v Eh). apply (Bmax v Iv).
  - rewrite (@SFeqb_ltb_r _ _ v El). apply (Bmin v Iv).
Qed.

Lemma extreme_orders_bound_the_batch_witness :
  exists hi lo vhi vlo,
    Orders.extreme_orders [Samples.dated_earlier; Samples.dated] = Some (hi, lo)
    /\ In hi [Samples.dated_earlier; Samples.dated]
    /\ In lo [Samples.dated_earlier; Samples.dated]
    /\ Orders.total hi = Some vhi /\ Orders.total lo = Some vlo
    /\ forall row v, In row [Samples.dated_earlier; Samples.dated] ->
                     Orders.total row = Some v ->
                     float_gtb v vhi = false /\ SFltb v vlo = false.
Proof.
  apply (@extreme_orders_bound_the_batch [Samples.dated_earlier; Samples.dated]).
  - discriminate.
  - intros row [<- | [<- | []]]; eexists; split; vm_compute; reflexivity.
Defined.

(* ===================================================================== *)
(** ** What a match can hold *)
(* ===================================================================== *)

Section SpanFacts.
Variable f : flags.

(** A repetition that succeeds took a run of its class, no shorter than
    [lo] and no longer than [hi]. *)
Lemma rep_bounded (g : bool) (s : cset) (inp : pystr) :
  forall (lo : nat) (hi : option nat) (prev : option N)
         (k : option N -> pystr -> option mstate) (r : mstate),
    rep f g s lo hi prev inp k = Some r ->
    exists pre post p,
      inp = pre ++ post /\ spans f (RRep g lo hi s) pre /\ k p post = Some r.
Proof.
  induction inp as [| c t IH]; intros lo hi prev k r H.
  - rewrite rep_nil in H. destruct lo; [| discriminate].
    exists [], [], prev. simpl. repeat split; auto. destruct hi; simpl; lia.
  - rewrite rep_cons in H. cbv zeta in H.
    assert (Stop : match lo with 0 => k prev (c :: t) | S _ => None end = Some r ->
                   exists pre post p,
                     c :: t = pre ++ post /\ spans f (RRep g lo hi s) pre
                     /\ k p post = Some r).
    { destruct lo; [| discriminate]. intros K.
      exists [], (c :: t), prev. simpl. repeat split; auto. destruct hi; simpl; lia. }
    assert (More : (if hi_open hi && cset_has f s c
                    then rep f g s (pred lo) (hi_pred hi) (Some c) t k
                    else None) = Some r ->
                   exists pre post p,
                     c :: t = pre ++ post /\ spans f (RRep g lo hi s) pre
                     /\ k p post = Some r).
    { destruct (hi_open hi && cset_has f s c) eqn:C; [| discriminate].
      apply andb_prop in C. destruct C as [O C]. intros R.
      destruct (IH _ _ _ _ _ R) as (pre & post & p & E & (A & L & B) & K).
      exists (c :: pre), post, p. simpl. rewrite C, A, E.
      repeat split; auto; [lia |].
      destruct hi as [[| h] |]; simpl in *; try discriminate; lia. }
    destruct g.
    + destruct (if hi_open hi && cset_has f s c
                then rep f true s (pred lo) (hi_pred hi) (Some c) t k
                else None) as [r' |] eqn:M.
      * inversion H; subst r'. apply More. reflexivity.
      * apply Stop. exact H.
    + destruct (match lo with 0 => k prev (c :: t) | S _ => None end) as [r' |] eqn:St.
      * inversion H; subst r'. apply Stop. reflexivity.
      * apply More. exact H.
Qed.

(** The matcher is sound for the words of the expression: what a
    successful run took before its continuation is one of them. *)
Lemma run_spans (r : regex) :
  forall (st : mstate) (k : mstate -> option mstate) (res : mstate),
    run f r st k = Some res ->
    exists st' w,
      k st' = Some res /\ m_rest st = w ++ m_rest st' /\ spans f r w.
Proof.
  induction r as [| | s | a IHa b IHb | a IHa b IHb | g lo hi s | n a IHa];
    intros st k res H; simpl in H.
  - exists st, []. repeat split; auto.
  - destruct (at_bol f st); [| discriminate]. exists st, []. repeat split; auto.
  - destruct (m_rest st) as [| c t] eqn:R; [discriminate |].
    destruct (cset_has f s c) eqn:C; [| discriminate].
    eexists; exists [c]. split; [exact H |]. split; [reflexivity |].
    exists c. auto.
  - destruct (IHa _ _ _ H) as (st1 & w1 & H1 & E1 & S1).
    destruct (IHb _ _ _ H1) as (st2 & w2 & H2 & E2 & S2).
    exists st2, (w1 ++ w2). split; [exact H2 |].
    split; [rewrite E1, E2, app_assoc; reflexivity |].
    exists w1, w2. auto.
  - destruct (run f a st k) as [x |] eqn:A.
    + inversion H; subst x.
      destruct (IHa _ _ _ A) as (st1 & w1 & H1 & E1 & S1).
      exists st1, w1. repeat split; auto. left. exact S1.
    + destruct (IHb _ _ _ H) as (st1 & w1 & H1 & E1 & S1).
      exists st1, w1. repeat split; auto. right. exact S1.
  - destruct (rep_bounded _ _ _ _ _ _ _ H) as (pre & post & p & E & Sp & K).
    eexists; exists pre. split; [exact K |]. split; [exact E | exact Sp].
  - destruct (IHa _ _ _ H) as (st1 & w1 & H1 & E1 & S1).
    eexists; exists w1. split; [exact H1 |]. split; [exact E1 | exact S1].
Qed.

(** What a group holds is a word of its body. *)
Lemma group_spans (n : nat) (a : regex) (st res : mstate) :
  run f (RGrp n a) st Some = Some res ->
  exists v, assoc n (m_caps res) = Some v /\ spans f a v.
Proof.
  simpl. intros H.
  destruct (run_spans _ _ _ H) as (st1 & w & K & E & Sp).
  inversion K; subst res. simpl. rewrite Nat.eqb_refl.
  exists (taken (m_rest st) (m_rest st1)). split; [reflexivity |].
  rewrite E, taken_app. exact Sp.
Qed.

End SpanFacts.

(* ===================================================================== *)
(** ** The amount and the date of the sheet-oriented parser *)
(* ===================================================================== *)

(** Ignoring case adds nothing to the digits. *)
Lemma digit_case_blind (c : N) :
  is_digit c || (is_digit (lower_c c) || is_digit (upper_c c)) = true -> is_digit c = true.
Proof.
  destruct (is_digit c) eqn:D; [reflexivity |]. cbn [orb].
  unfold lower_c, upper_c.
  destruct (is_upper c) eqn:U; destruct (is_lower c) eqn:L;
    rewrite ?D; cbn [orb]; try discriminate;
    unfold is_digit, is_upper, is_lower in *; intros H;
    repeat match goal with
           | X : (_ && _) = true |- _ => apply andb_prop in X; destruct X
           | X : (_ <=? _)%N = true |- _ => apply N.leb_le in X
           | X : (_ || _) = true |- _ => apply orb_prop in X; destruct X
           end; lia.
Qed.

(** Nor to a character that is no letter. *)
Lemma char_case_blind (x c : N) :
  is_upper x = false -> is_lower x = false ->
  (c =? x)%N || ((lower_c c =? x)%N || (upper_c c =? x)%N) = true -> c = x.
Proof.
  intros Ux Lx H.
  destruct (c =? x)%N eqn:E; [apply N.eqb_eq; exact E |]. cbn [orb] in H.
  unfold lower_c, upper_c in H.
  destruct (is_upper c) eqn:U; destruct (is_lower c) eqn:L;
    rewrite ?E in H; cbn [orb] in H; try discriminate;
    unfold is_upper, is_lower in *;
    repeat match goal with
           | X : (_ || _) = true |- _ => apply orb_prop in X; destruct X
           | X : (_ && _) = true |- _ => apply andb_prop in X; destruct X
           | X : (_ && _) = false |- _ => apply andb_false_iff in X; destruct X
           | X : (_ <=? _)%N = true |- _ => apply N.leb_le in X
           | X : (_ <=? _)%N = false |- _ => apply N.leb_gt in X
           | X : (_ =? _)%N = true |- _ => apply N.eqb_eq in X
           end; lia.
Qed.

Lemma items_have_cons (f : flags) (i : citem) (l : list citem) (c : N) :
  items_have f (i :: l) c
  = (citem_has i c || (IGNORECASE f && (citem_has i (lower_c c) || citem_has i (upper_c c))))
    || items_have f l c.
Proof. reflexivity. Qed.

(** The class [[\d,]]: a digit or a comma, in any letter case. *)
Lemma digit_or_comma (f : flags) (c : N) :
  cset_has f (CIn [CDigit; CChar 44]) c = true -> is_digit c = true \/ c = COMMA.
Proof.
  unfold cset_has. rewrite !items_have_cons. cbn [items_have existsb citem_has].
  rewrite orb_false_r. intros H. apply orb_prop in H. destruct H as [H | H].
  - left. apply digit_case_blind. destruct (IGNORECASE f); [exact H |].
    cbn [andb] in H. rewrite orb_false_r in H. rewrite H. reflexivity.
  - right. apply (@char_case_blind 44 c); try reflexivity.
    destruct (IGNORECASE f); [exact H |].
    cbn [andb] in H. rewrite orb_false_r in H. rewrite H. reflexivity.
Qed.

Lemma point_class (f : flags) (c : N) :
  cset_has f (CIn [CChar 46]) c = true -> c = chr ".".
Proof.
  unfold cset_has. rewrite !items_have_cons. cbn [items_have existsb citem_has].
  rewrite orb_false_r. intros H.
  apply (@char_case_blind 46 c); try reflexivity.
  destruct (IGNORECASE f); [exact H |].
  cbn [andb] in H. rewrite orb_false_r in H. rewrite H. reflexivity.
Qed.

Lemma digit_not_comma (c : N) : is_digit c = true -> (c =? COMMA)%N = false.
Proof.
  unfold is_digit, COMMA. intros H. apply andb_prop in H. destruct H as [L _].
  apply N.leb_le in L. apply N.eqb_neq. lia.
Qed.

Lemma remove_commas_digits (w : pystr) :
  forallb is_digit w = true -> remove_commas w = w.
Proof.
  induction w as [| c t IH]; [reflexivity |]. simpl. intros H.
  apply andb_prop in H. destruct H as [D T].
  rewrite (digit_not_comma _ D). simpl. rewrite (IH T). reflexivity.
Qed.

Lemma remove_commas_of_class (f : flags) (w : pystr) :
  forallb (cset_has f (CIn [CDigit; CChar 44])) w = true ->
  forallb is_digit (remove_commas w) = true.
Proof.
  induction w as [| c t IH]; [reflexivity |]. simpl. intros H.
  apply andb_prop in H. destruct H as [C T].
  destruct (digit_or_comma _ _ C) as [D | ->].
  - rewrite (digit_not_comma _ D). simpl. rewrite D. exact (IH T).
  - simpl. exact (IH T).
Qed.

(** X12.  The amount the sheet-oriented parser stores is empty exactly
    when neither total pattern is found.  Otherwise it is the rupee sign
    followed by digits and, at most, one point with no more than two
    digits after it: the commas of the matched text are gone. *)
Theorem sheet_amount_format (pdf_path text : pystr) :
  match Sheets.amount (Sheets.parse_invoice_text pdf_path text) with
  | [] => Sheets.first_search flag_IM Sheets.total_patterns text = None
  | c :: v =>
      c = RUPEE
      /\ exists whole cents,
           v = whole ++ cents
           /\ forallb is_digit whole = true
           /\ (cents = []
               \/ exists d, cents = chr "." :: d
                            /\ forallb is_digit d = true /\ List.length d <= 2)
  end.
Proof.
  unfold Sheets.parse_invoice_text. cbn [Sheets.amount]. unfold Sheets.find_amount.
  destruct (Sheets.first_search flag_IM Sheets.total_patterns text) as [m |] eqn:S;
    [| reflexivity].
  cbn [app]. split; [reflexivity |].
  apply first_search_inv in S. destruct S as (p & I & S).
  unfold re_search in S. apply search_from_inv in S. destruct S as (prev & R).
  apply run_tail in R. destruct R as (st' & R).
  assert (T : tail_of p
              = RGrp 1 (RCat (RRep true 1 None (CIn [CDigit; CChar 44]))
                             (RCat (RRep true 0 (Some 1) (CIn [CChar 46]))
                                   (RRep true 0 (Some 2) (CIn [CDigit]))))).
  { destruct I as [<- | [<- | []]]; reflexivity. }
  rewrite T in R. apply group_spans in R. destruct R as (w & A & Sp).
  unfold group. rewrite A.
  cbn [spans] in Sp.
  destruct Sp as (w1 & w23 & -> & (C1 & _ & _) & (w2 & w3 & -> & (C2 & _ & B2) & (C3 & _ & B3))).
  cbn [hi_allows] in B2, B3.
  unfold remove_commas. rewrite !filter_app. fold (remove_commas w1).
  fold (remove_commas w2). fold (remove_commas w3).
  pose proof (digit_class _ _ C3) as D3.
  rewrite (remove_commas_digits _ D3).
  pose proof (remove_commas_of_class _ _ C1) as D1.
  destruct w2 as [| c [| c' t]]; [| | simpl in B2; lia].
  - exists (remove_commas w1 ++ w3), []. cbn [remove_commas filter app].
    rewrite app_nil_r, forallb_app, D1, D3. auto.
  - cbn [forallb] in C2. rewrite andb_true_r in C2. apply point_class in C2. subst c.
    exists (remove_commas w1), (chr "." :: w3).
    split; [reflexivity |]. split; [exact D1 |]. right.
    exists w3. auto.
Qed.

Lemma spans_last (f : flags) (r : regex) :
  forall w, spans f r w -> exists w1 w2, w = w1 ++ w2 /\ spans f (tail_of r) w2.
Proof.
  induction r as [| | s | a IHa b IHb | a IHa b IHb | g lo hi s | n a IHa];
    intros w H; try (exists [], w; split; [reflexivity | exact H]).
  cbn [spans] in H. destruct H as (w1 & w2 & -> & _ & H2).
  destruct (IHb _ H2) as (v1 & v2 & -> & H3).
  exists (w1 ++ v1), v2. rewrite app_assoc. split; [reflexivity | exact H3].
Qed.

Lemma lstrip_id (s : pystr) : starts_blank s = false -> lstrip s = s.
Proof. destruct s as [| c t]; [reflexivity |]. simpl. intros ->. reflexivity. Qed.

Lemma strip_id (s : pystr) :
  starts_blank s = false -> ends_blank s = false -> strip s = s.
Proof.
  intros A B. unfold strip, rstrip. rewrite (lstrip_id _ A).
  unfold ends_blank in B. rewrite (lstrip_id _ B). apply rev_involutive.
Qed.

(** What the date patterns of the sheet-oriented parser capture begins
    and ends with a digit. *)
Lemma sheet_date_capture (text : pystr) (m : rmatch) :
  Sheets.first_search flag_I Sheets.date_patterns text = Some m ->
  exists c v c',
    group 1 m = c :: v ++ [c'] /\ is_digit c = true /\ is_digit c' = true
    /\ 8 <= List.length (group 1 m).
Proof.
  intros H. apply first_search_inv in H. destruct H as (p & I & S).
  unfold re_search in S. apply search_from_inv in S. destruct S as (prev & R).
  apply run_tail in R. destruct R as (st' & R).
  assert (T : exists rest,
             tail_of p = RGrp 1 (RCat (RRep true 1 (Some 2) (CIn [CDigit])) rest)
             /\ tail_of rest = RRep true 4 (Some 4) (CIn [CDigit])
             /\ 7 <= min_len rest).
  { destruct I as [<- | [<- | [<- | []]]]; eexists; (split; [reflexivity |]);
      (split; [reflexivity | vm_compute; lia]). }
  destruct T as (rest & T & L & M). rewrite T in R.
  pose proof R as R'. apply group_capture in R'. destruct R' as (v0 & A0 & Len).
  apply group_spans in R. destruct R as (w & A & Sp).
  rewrite A in A0. inversion A0; subst v0. clear A0.
  unfold group. rewrite A.
  cbn [spans] in Sp. destruct Sp as (w1 & w2 & E & (C1 & L1 & _) & S2).
  apply spans_last in S2. destruct S2 as (w3 & w4 & E2 & S4).
  rewrite L in S4. cbn [spans] in S4. destruct S4 as (C4 & L4 & _).
  apply digit_class in C1. apply digit_class in C4.
  destruct w1 as [| c w1]; [simpl in L1; lia |].
  destruct (@exists_last _ w4) as (w4' & c' & E4); [intros ->; simpl in L4; lia |].
  exists c, (w1 ++ w3 ++ w4'), c'. subst w w2 w4.
  split; [simpl; rewrite <- !app_assoc; reflexivity |].
  split; [simpl in C1; apply andb_prop in C1; tauto |].
  split; [rewrite forallb_app in C4; apply andb_prop in C4; simpl in C4;
          destruct C4 as [_ C4]; apply andb_prop in C4; tauto |].
  cbn [min_len] in Len. lia.
Qed.

(** [strip] leaves the captured date as it is. *)
Lemma sheet_date_stored (text : pystr) (m : rmatch) :
  Sheets.first_search flag_I Sheets.date_patterns text = Some m ->
  Sheets.find_date text = group 1 m
  /\ starts_blank (group 1 m) = false /\ ends_blank (group 1 m) = false.
Proof.
  intros S. unfold Sheets.find_date. rewrite S.
  destruct (sheet_date_capture _ S) as (c & v & c' & E & D & D' & L).
  assert (A : starts_blank (group 1 m) = false).
  { rewrite E. simpl. apply digit_not_space. exact D. }
  assert (B : ends_blank (group 1 m) = false).
  { rewrite E. unfold ends_blank. rewrite app_comm_cons, rev_app_distr. simpl.
    apply digit_not_space. exact D'. }
  split; [apply strip_id; assumption |]. split; assumption.
Qed.

(** X13.  The date the sheet-oriented parser stores is the text its
    pattern captured, as it stands: it begins and ends with a digit, so
    the call of [strip] changes nothing, and it has at least eight
    characters.  The date is empty exactly when no pattern is found. *)
Theorem sheet_date_is_matched_text (pdf_path text : pystr) :
  match Sheets.first_search flag_I Sheets.date_patterns text with
  | Some m =>
      Sheets.date (Sheets.parse_invoice_text pdf_path text) = group 1 m
      /\ 8 <= List.length (group 1 m)
      /\ exists c v c', group 1 m = c :: v ++ [c']
                        /\ is_digit c = true /\ is_digit c' = true
  | None => Sheets.date (Sheets.parse_invoice_text pdf_path text) = []
  end.
Proof.
  unfold Sheets.parse_invoice_text. cbn [Sheets.date].
  destruct (Sheets.first_search flag_I Sheets.date_patterns text) as [m |] eqn:S.
  - destruct (sheet_date_stored _ S) as (E & _ & _).
    destruct (sheet_date_capture _ S) as (c & v & c' & G & D & D' & L).
    split; [exact E |]. split; [exact L |]. exists c, v, c'. auto.
  - unfold Sheets.find_date. rewrite S. reflexivity.
Qed.

(* ===================================================================== *)
(** ** The rows of the sheet *)
(* ===================================================================== *)

Lemma or_na_nonempty (s : pystr) : nonempty (Sheets.or_na s) = true.
Proof. unfold Sheets.or_na. destruct (nonempty s) eqn:E; [exact E | reflexivity]. Qed.

(** A joined list that is not empty is at least as long as its first part. *)
Lemma join_length (sep p : pystr) (rest : list pystr) :
  List.length p <= List.length (join sep (p :: rest)).
Proof.
  destruct rest as [| q rest]; [simpl; lia |].
  change (join sep (p :: q :: rest)) with (p ++ sep ++ join sep (q :: rest)).
  rewrite length_app. lia.
Qed.

Lemma sheet_item_line_long (patterns : list regex) (line : pystr) :
  forall items,
    Forall (fun s => 3 < List.length s) items ->
    Forall (fun s => 3 < List.length s) (Sheets.item_line patterns items line).
Proof.
  induction patterns as [| p ps IH]; intros items H; cbn [Sheets.item_line]; [exact H |].
  cbv zeta.
  destruct (re_match flag_I p (strip line)) as [m |]; [| apply IH; exact H].
  destruct ((3 <? List.length (strip (group 1 m)))
            && negb (existsb (str_eqb (strip (group 1 m))) Sheets.skipped_names)) eqn:C;
    [| apply IH; exact H].
  apply IH. apply Forall_app. split; [exact H |].
  constructor; [| constructor].
  apply andb_prop in C. destruct C as [C _]. apply Nat.ltb_lt in C.
  rewrite !length_app. lia.
Qed.

Lemma sheet_items_long (text : pystr) :
  Forall (fun s => 3 < List.length s) (Sheets.find_items text).
Proof.
  unfold Sheets.find_items.
  assert (G : forall lines items,
             Forall (fun s => 3 < List.length s) items ->
             Forall (fun s => 3 < List.length s)
                    (fold_left (Sheets.item_line Sheets.item_patterns) lines items)).
  { induction lines as [| l ls IH]; intros items H; cbn [fold_left]; [exact H |].
    apply IH. apply sheet_item_line_long. exact H. }
  apply G. constructor.
Qed.

(** The items cell: longer than the placeholder when there are items. *)
Lemma sheet_items_cell (pdf_path text : pystr) :
  match Sheets.items (Sheets.parse_invoice_text pdf_path text) with
  | [] => True
  | l => 3 < List.length (join (u ", ") l)
  end.
Proof.
  unfold Sheets.parse_invoice_text. cbn [Sheets.items].
  pose proof (sheet_items_long text) as F.
  destruct (firstn 10 (Sheets.find_items text)) as [| p rest] eqn:E; [exact I |].
  assert (In p (Sheets.find_items text)) as Ip.
  { rewrite <- (firstn_skipn 10 (Sheets.find_items text)), E.
    apply in_or_app. left. left. reflexivity. }
  rewrite Forall_forall in F. specialize (F p Ip).
  pose proof (join_length (u ", ") p rest). lia.
Qed.

Lemma endswith_pdf_nonempty (name : pystr) :
  Orders.endswith (u ".pdf") (lower name) = true -> nonempty name = true.
Proof. destruct name; [vm_compute; discriminate | reflexivity]. Qed.

Lemma sheet_row_filled (folder_path name text : pystr) :
  ~ In (chr "/") name ->
  Orders.endswith (u ".pdf") (lower name) = true ->
  forallb nonempty
          (Sheets.sheet_row (Sheets.parse_invoice_text (Orders.path_join folder_path name) text))
  = true.
Proof.
  intros Nm Pdf. unfold Sheets.sheet_row. cbv zeta. cbn [forallb].
  rewrite !or_na_nonempty. cbn [andb].
  pose proof (sheet_items_cell (Orders.path_join folder_path name) text) as Ic.
  destruct (Sheets.items _) as [| p rest].
  - cbn [nonempty NA]. unfold Sheets.parse_invoice_text. cbn [Sheets.filename].
    rewrite (@basename_path_join _ _ Nm), (@endswith_pdf_nonempty _ Pdf). reflexivity.
  - destruct (join (u ", ") (p :: rest)); [simpl in Ic; lia |]. cbn [nonempty andb].
    unfold Sheets.parse_invoice_text. cbn [Sheets.filename].
    rewrite (@basename_path_join _ _ Nm), (@endswith_pdf_nonempty _ Pdf). reflexivity.
Qed.

Lemma parse_step_spec (folder_path : pystr) (P : list pystr -> Prop)
      (st : Sheets.sheet_run) (e : pystr * pdf_file) :
  (forall d, Sheets.extract_invoice_data (Orders.path_join folder_path (fst e)) (snd e)
             = Some d -> P (Sheets.sheet_row d)) ->
  (forall row, In row (Sheets.rows_to_add st) -> P row) ->
  let st' := Sheets.parse_step folder_path st e in
  Sheets.successful st' + Sheets.failed st' = S (Sheets.successful st + Sheets.failed st)
  /\ List.length (Sheets.rows_to_add st') + Sheets.successful st
     = Sheets.successful st' + List.length (Sheets.rows_to_add st)
  /\ forall row, In row (Sheets.rows_to_add st') -> P row.
Proof.
  intros Hd Hs. cbv zeta. unfold Sheets.parse_step.
  destruct (Sheets.extract_invoice_data (Orders.path_join folder_path (fst e)) (snd e))
    as [d |]; cbn [Sheets.rows_to_add Sheets.successful Sheets.failed].
  - rewrite length_app. simpl. repeat split; try lia.
    intros row I. apply in_app_or in I. destruct I as [I | [<- | []]].
    + apply Hs. exact I.
    + apply Hd. reflexivity.
  - repeat split; try lia. exact Hs.
Qed.

Lemma parse_steps_spec (folder_path : pystr) (P : list pystr -> Prop) :
  forall (files : list (pystr * pdf_file)) (st : Sheets.sheet_run),
    (forall e d, In e files ->
                 Sheets.extract_invoice_data (Orders.path_join folder_path (fst e)) (snd e)
                 = Some d -> P (Sheets.sheet_row d)) ->
    (forall row, In row (Sheets.rows_to_add st) -> P row) ->
    let r := fold_left (Sheets.parse_step folder_path) files st in
    Sheets.successful r + Sheets.failed r
    = Sheets.successful st + Sheets.failed st + List.length files
    /\ List.length (Sheets.rows_to_add r) + Sheets.successful st
       = Sheets.successful r + List.length (Sheets.rows_to_add st)
    /\ forall row, In row (Sheets.rows_to_add r) -> P row.
Proof.
  induction files as [| e files IH]; intros st Hf Hs; cbv zeta.
  - simpl. repeat split; try lia. exact Hs.
  - cbn [fold_left].
    destruct (@parse_step_spec folder_path P st e) as (A1 & B1 & C1);
      [intros d X; apply (Hf e d); [left; reflexivity | exact X] | exact Hs |].
    destruct (IH (Sheets.parse_step folder_path st e)) as (A & B & C);
      [intros e' d I; apply Hf; right; exact I | exact C1 |].
    simpl. repeat split; [lia | lia | exact C].
Qed.

(** X14.  [parse_invoices_to_sheet] makes no sheet when the folder has
    no PDF file.  Otherwise every PDF file is counted once, as parsed or
    as failed, there is one row for each parsed file, and every row has
    five cells none of which is empty (file names as [os.listdir] gives
    them, without a slash). *)
Theorem sheet_rows_are_filled (folder_path : pystr) (listing : list (pystr * pdf_file)) :
  (forall e, In e listing -> ~ In (chr "/") (fst e)) ->
  match Sheets.parse_invoices_to_sheet folder_path listing with
  | None => Sheets.pdf_files listing = []
  | Some r =>
      Sheets.successful r + Sheets.failed r = List.length (Sheets.pdf_files listing)
      /\ List.length (Sheets.rows_to_add r) = Sheets.successful r
      /\ forall row, In row (Sheets.rows_to_add r) ->
                     List.length row = 5 /\ forallb nonempty row = true
  end.
Proof.
  intros Names. unfold Sheets.parse_invoices_to_sheet.
  destruct (Sheets.pdf_files listing) as [| e0 files0] eqn:E; [reflexivity |].
  rewrite <- E.
  destruct (@parse_steps_spec folder_path
              (fun row => List.length row = 5 /\ forallb nonempty row = true)
              (Sheets.pdf_files listing) (Sheets.SheetRun [] 0 0)) as (A & B & C).
  - intros e d I X. unfold Sheets.pdf_files in I. apply filter_In in I.
    destruct I as [Il Pdf].
    destruct (snd e) as [| pages]; [discriminate |]. simpl in X.
    inversion X; subst d. split; [reflexivity |].
    apply sheet_row_filled; [exact (Names _ Il) | exact Pdf].
  - intros row [].
  - simpl in A, B. repeat split; [exact A | lia | apply C; assumption | apply C; assumption].
Qed.

Lemma sheet_rows_are_filled_witness :
  match Sheets.parse_invoices_to_sheet Samples.folder_path Samples.listing with
  | None => Sheets.pdf_files Samples.listing = []
  | Some r =>
      Sheets.successful r + Sheets.failed r = List.length (Sheets.pdf_files Samples.listing)
      /\ List.length (Sheets.rows_to_add r) = Sheets.successful r
      /\ forall row, In row (Sheets.rows_to_add r) ->
                     List.length row = 5 /\ forallb nonempty row = true
  end.
Proof.
  apply (@sheet_rows_are_filled Samples.folder_path Samples.listing).
  intros e He. vm_compute in He.
  destruct He as [<- | [<- | [<- | []]]]; vm_compute; intuition discriminate.
Defined.

Lemma long_not_na (s : pystr) : 3 < List.length s -> s <> NA.
Proof. intros L ->. vm_compute in L. lia. Qed.

(** X15.  In a row of the sheet the placeholder N/A in the date, amount
    or items cell always stands for a value that was not found: a date
    that was found begins with a digit, an amount with the rupee sign,
    and joined items are longer than the placeholder. *)
Theorem sheet_placeholders_mark_missing (pdf_path text : pystr) :
  let d := Sheets.parse_invoice_text pdf_path text in
  (nth 0 (Sheets.sheet_row d) [] = NA <-> Sheets.date d = [])
  /\ (nth 2 (Sheets.sheet_row d) [] = NA <-> Sheets.amount d = [])
  /\ (nth 3 (Sheets.sheet_row d) [] = NA <-> Sheets.items d = []).
Proof.
  cbv zeta. unfold Sheets.sheet_row. cbv zeta. cbn [nth].
  split; [| split].
  - unfold Sheets.or_na, Sheets.parse_invoice_text. cbn [Sheets.date].
    destruct (Sheets.first_search flag_I Sheets.date_patterns text) as [m |] eqn:S.
    + destruct (sheet_date_stored _ S) as (E & _ & _).
      destruct (sheet_date_capture _ S) as (c & v & c' & G & D & _).
      rewrite E, G. cbn [nonempty]. split; [| discriminate].
      intros X. inversion X; subst c. vm_compute in D. discriminate.
    + unfold Sheets.find_date. rewrite S. simpl. tauto.
  - unfold Sheets.or_na, Sheets.parse_invoice_text. cbn [Sheets.amount].
    unfold Sheets.find_amount.
    destruct (Sheets.first_search flag_IM Sheets.total_patterns text) as [m |];
      [| simpl; tauto].
    cbn [app nonempty]. split; discriminate.
  - pose proof (sheet_items_cell pdf_path text) as H.
    destruct (Sheets.items (Sheets.parse_invoice_text pdf_path text)) as [| p rest];
      [tauto |].
    split; [| discriminate]. intros X. apply long_not_na in H. contradiction.
Qed.

(* ===================================================================== *)
(** ** The rows of the CSV file *)
(* ===================================================================== *)

Lemma order_id_capture (text : pystr) (m : rmatch) :
  re_search no_flags Orders.order_id_re text = Some m ->
  exists c v, group 1 m = c :: v /\ forallb is_digit (c :: v) = true.
Proof.
  intros S. unfold re_search in S. apply search_from_inv in S. destruct S as (prev & R).
  apply run_tail in R. destruct R as (st' & R).
  change (tail_of Orders.order_id_re) with (RGrp 1 (RRep true 1 None (CIn [CDigit]))) in R.
  apply group_spans in R. destruct R as (v & A & (C & L & _)).
  unfold group. rewrite A. apply digit_class in C.
  destruct v as [| c v]; [simpl in L; lia |]. exists c, v. auto.
Qed.

(** Every item entry of the strict parser is longer than the placeholder. *)
Lemma order_items_long (lines : list pystr) (entry : pystr) :
  In entry (Orders.find_items lines) -> 3 < List.length entry.
Proof.
  unfold Orders.find_items. intros I.
  assert (O : exists line, Orders.table_origin line entry \/ Orders.loose_origin line entry).
  { destruct (snd (Orders.scan_table lines)) as [| x l] eqn:T.
    - destruct (@loose_lines_origin _ _ _ I) as [[] | (line & _ & O)].
      exists line. right. exact O.
    - rewrite <- T in I. unfold Orders.scan_table in I.
      destruct (@scan_lines_origin _ _ _ I) as [[] | (line & _ & O)].
      exists line. left. exact O. }
  destruct O as (line & [(m & _ & -> & _) | (m & _ & -> & L & _)]).
  - unfold Orders.item_entry. cbv zeta. rewrite !length_app.
    change (List.length (u " (Qty: ")) with 7. lia.
  - rewrite length_app. lia.
Qed.

Lemma order_items_cell (pdf_path text : pystr) :
  match Orders.items (Orders.build_order pdf_path text) with
  | [] => True
  | l => 3 < List.length (join (u "; ") l)
  end.
Proof.
  unfold Orders.build_order. cbn [Orders.items].
  destruct (Orders.find_items (split_on NL text)) as [| p rest] eqn:E; [exact I |].
  assert (L : 3 < List.length p).
  { apply (@order_items_long (split_on NL text)). rewrite E. left. reflexivity. }
  pose proof (join_length (u "; ") p rest). lia.
Qed.

Lemma endswith_nonempty (name : pystr) :
  Orders.endswith (u ".pdf") name = true -> nonempty name = true.
Proof. destruct name; [vm_compute; discriminate | reflexivity]. Qed.

(** The row of a record that passed the gate, read from a file of the
    folder. *)
Lemma csv_row_filled (path text : pystr) :
  Orders.complete (Orders.build_order path text) = true ->
  nonempty (basename path) = true ->
  forallb Orders.filled (Orders.csv_row (Orders.build_order path text)) = true.
Proof.
  intros C Nm. pose proof (order_items_cell path text) as Ic.
  apply complete_fields in C. destruct C as (D & R & T).
  unfold Orders.csv_row. cbn [forallb].
  destruct (Orders.date (Orders.build_order path text)) as [d |]; [| discriminate].
  destruct (Orders.restaurant_name (Orders.build_order path text)) as [r |]; [| discriminate].
  destruct (Orders.total (Orders.build_order path text)) as [t |]; [| discriminate].
  cbn [truthy] in D, R. cbn [Orders.opt_cell Orders.filled]. rewrite D, R. cbn [andb].
  assert (Fn : nonempty (Orders.file_name (Orders.build_order path text)) = true).
  { unfold Orders.build_order. cbn [Orders.file_name]. exact Nm. }
  rewrite Fn. revert Ic.
  destruct (Orders.items (Orders.build_order path text)) as [| p rest]; intros Ic.
  - cbn [nonempty NA andb].
    destruct (Orders.order_id (Orders.build_order path text)) as [id |]; [| reflexivity].
    destruct (nonempty id) eqn:E; [rewrite E |]; reflexivity.
  - destruct (join (u "; ") (p :: rest)); [simpl in Ic; lia |]. cbn [nonempty andb].
    destruct (Orders.order_id (Orders.build_order path text)) as [id |]; [| reflexivity].
    destruct (nonempty id) eqn:E; [rewrite E |]; reflexivity.
Qed.

(** X16.  Of the batch the main block exports, every row given to the
    CSV writer has a value for each of the six columns, and none is
    [None] or empty: date, merchant and file name are strings that are
    not empty, the total is a number, and the items and the order id
    are a value or the placeholder.  Nothing is written for an empty
    batch. *)
Theorem exported_rows_are_filled (folder_path : pystr) (listing : list (pystr * pdf_file)) :
  (forall e, In e listing -> ~ In (chr "/") (fst e)) ->
  match Orders.export_to_csv
          (Orders.sort_by_date (Orders.process_all_pdfs folder_path listing)) with
  | None => Orders.process_all_pdfs folder_path listing = []
  | Some (header, rows) =>
      header = Orders.fieldnames
      /\ List.length rows = List.length (Orders.process_all_pdfs folder_path listing)
      /\ forall row, In row rows ->
                     List.length row = List.length header
                     /\ forallb Orders.filled row = true
  end.
Proof.
  intros Names.
  pose proof (sort_by_perm Orders.date_key (Orders.process_all_pdfs folder_path listing)) as P.
  unfold Orders.export_to_csv. fold (Orders.sort_by_date (Orders.process_all_pdfs folder_path listing)) in P.
  destruct (Orders.sort_by_date (Orders.process_all_pdfs folder_path listing))
    as [| x l] eqn:E.
  - apply Permutation_sym, Permutation_nil in P. exact P.
  - split; [reflexivity |]. split.
    + rewrite length_map. symmetry. apply Permutation_length. exact P.
    + intros row I. apply in_map_iff in I. destruct I as (data & <- & I).
      split; [reflexivity |].
      apply (Permutation_in _ (Permutation_sym P)) in I.
      unfold Orders.process_all_pdfs in I. cbv zeta in I.
      apply in_flat_map in I. destruct I as ([path pdf] & Ip & Id).
      apply sort_by_in in Ip. apply in_map_iff in Ip.
      destruct Ip as ([name pdf'] & Ee & If). cbn [fst snd] in Ee.
      inversion Ee; subst path pdf'. clear Ee.
      apply filter_In in If. destruct If as [Il F]. cbn [fst] in F.
      apply andb_prop in F. destruct F as [Fp _].
      cbn [fst snd] in Id.
      destruct (Orders.extract_order_data (Orders.path_join folder_path name) pdf)
        as [d |] eqn:X; [| destruct Id].
      destruct Id as [<- | []].
      destruct (@extract_order_data_inv _ _ _ X) as (pages & text & _ & _ & B & C).
      rewrite B in C |- *. apply csv_row_filled; [exact C |].
      rewrite (@basename_path_join _ _ (Names _ Il)).
      apply endswith_nonempty. exact Fp.
Qed.

Lemma exported_rows_are_filled_witness :
  match Orders.export_to_csv
          (Orders.sort_by_date (Orders.process_all_pdfs Samples.folder_path Samples.listing))
  with
  | None => Orders.process_all_pdfs Samples.folder_path Samples.listing = []
  | Some (header, rows) =>
      header = Orders.fieldnames
      /\ List.length rows
         = List.length (Orders.process_all_pdfs Samples.folder_path Samples.listing)
      /\ forall row, In row rows ->
                     List.length row = List.length header
                     /\ forallb Orders.filled row = true
  end.
Proof.
  apply (@exported_rows_are_filled Samples.folder_path Samples.listing).
  intros e He. vm_compute in He.
  destruct He as [<- | [<- | [<- | []]]]; vm_compute; intuition discriminate.
Defined.

(** X17.  In a row of the CSV file the placeholder N/A stands in the
    items column exactly when the record has no item, and in the order
    id column exactly when no order id was found: an item entry is
    longer than the placeholder and an order id is made of digits. *)
Theorem csv_placeholders_mark_missing (pdf_path text : pystr) :
  let data := Orders.build_order pdf_path text in
  (nth 2 (Orders.csv_row data) Orders.CNone = Orders.CStr NA <-> Orders.items data = [])
  /\ (nth 4 (Orders.csv_row data) Orders.CNone = Orders.CStr NA
      <-> Orders.order_id data = None).
Proof.
  cbv zeta. unfold Orders.csv_row. cbn [nth]. split.
  - pose proof (order_items_cell pdf_path text) as H.
    destruct (Orders.items (Orders.build_order pdf_path text)) as [| p rest]; [tauto |].
    split; [| discriminate]. intros X. inversion X as [Y].
    apply long_not_na in H. contradiction.
  - unfold Orders.build_order. cbn [Orders.order_id]. unfold Orders.find_order_id.
    destruct (re_search no_flags Orders.order_id_re text) as [m |] eqn:S; [| tauto].
    destruct (order_id_capture _ S) as (c & v & E & D).
    rewrite E. cbn [nonempty]. split; [| discriminate].
    intros X. inversion X; subst c. vm_compute in D. discriminate.
Qed.

(* ===================================================================== *)
(** ** The order of the batch *)
(* ===================================================================== *)

Lemma str_ltb_irrefl (a : pystr) : str_ltb a a = false.
Proof.
  destruct (str_ltb a a) eqn:E; [| reflexivity].
  pose proof (str_ltb_asym _ _ E) as F. rewrite E in F. discriminate.
Qed.

(** A common beginning plays no part in the comparison. *)
Lemma str_ltb_app_l (p a b : pystr) : str_ltb (p ++ a) (p ++ b) = str_ltb a b.
Proof.
  induction p as [| x p IH]; [reflexivity |]. cbn [app].
  destruct b as [| y b'] eqn:Eb, a as [| z a'] eqn:Ea; simpl;
    rewrite N.ltb_irrefl; exact IH.
Qed.

Lemma filter_none (A : Type) (p : A -> bool) (l : list A) :
  (forall z, In z l -> p z = false) -> filter p l = [].
Proof.
  induction l as [| x t IH]; intros H; [reflexivity |]. simpl.
  rewrite (H x (or_introl eq_refl)). apply IH. intros z I. apply H. right. exact I.
Qed.

Section Stability.
Variable A : Type.
Variable key : A -> pystr.
Variable k : pystr.

(** The insertion puts the new element behind those of its key. *)
Lemma insert_by_stable (x : A) (l : list A) :
  StronglySorted (key_le key) l ->
  filter (same_key key k) (insert_by key x l)
  = filter (same_key key k) l ++ (if same_key key k x then [x] else []).
Proof.
  induction 1 as [| y t St IH Fa]; [simpl; destruct (same_key key k x); reflexivity |].
  cbn [insert_by]. destruct (str_ltb (key x) (key y)) eqn:Lt.
  - destruct (same_key key k x) eqn:Sx; [| cbn [filter]; rewrite Sx, app_nil_r; reflexivity].
    assert (N : filter (same_key key k) (y :: t) = []).
    { apply filter_none. intros z I.
      unfold same_key in *. apply str_eqb_eq in Sx.
      destruct (str_eqb (key z) k) eqn:Sz; [| reflexivity].
      apply str_eqb_eq in Sz. exfalso.
      destruct I as [<- | I].
      - rewrite Sz, <- Sx, str_ltb_irrefl in Lt. discriminate.
      - rewrite Forall_forall in Fa. specialize (Fa z I). unfold key_le in Fa.
        rewrite Sz, <- Sx, Lt in Fa. discriminate. }
    cbn [filter] in N |- *. rewrite Sx. rewrite N. reflexivity.
  - cbn [filter]. rewrite IH. destruct (same_key key k y); reflexivity.
Qed.

(** [list.sort] is stable: the elements of one key keep their order. *)
Lemma sort_by_stable (l : list A) :
  filter (same_key key k) (sort_by key l) = filter (same_key key k) l.
Proof.
  unfold sort_by.
  assert (G : forall acc, StronglySorted (key_le key) acc ->
                          filter (same_key key k) (fold_left (fun acc x => insert_by key x acc) l acc)
                          = filter (same_key key k) acc ++ filter (same_key key k) l).
  { induction l as [| x t IH]; intros acc H; cbn [fold_left].
    - simpl. rewrite app_nil_r. reflexivity.
    - rewrite IH; [| apply insert_by_sorted; exact H].
      rewrite (insert_by_stable x H), <- app_assoc. cbn [filter].
      destruct (same_key key k x); reflexivity. }
  rewrite G; [reflexivity | constructor].
Qed.

End Stability.

Lemma strongly_sorted_filter (A : Type) (R : A -> A -> Prop) (p : A -> bool) (l : list A) :
  StronglySorted R l -> StronglySorted R (filter p l).
Proof.
  induction 1 as [| x t St IH Fa]; simpl; [constructor |].
  destruct (p x); [| exact IH].
  constructor; [exact IH |]. rewrite Forall_forall in *.
  intros z I. apply filter_In in I. apply Fa. tauto.
Qed.

(** A sorted list stays sorted where each element gives at most one. *)
Lemma strongly_sorted_flat_map (A B : Type) (R : A -> A -> Prop) (R' : B -> B -> Prop)
      (g : A -> option B) (l : list A) :
  (forall a b x y, In a l -> In b l -> R a b -> g a = Some x -> g b = Some y -> R' x y) ->
  StronglySorted R l ->
  StronglySorted R' (flat_map (fun a => match g a with Some x => [x] | None => [] end) l).
Proof.
  intros H S. induction S as [| a t St IH Fa]; simpl; [constructor |].
  assert (IH' : StronglySorted R'
                  (flat_map (fun a => match g a with Some x => [x] | None => [] end) t)).
  { apply IH. intros a' b x y Ia Ib. apply H; right; assumption. }
  destruct (g a) as [x |] eqn:G; [| exact IH'].
  cbn [app]. constructor; [exact IH' |].
  rewrite Forall_forall in *. intros y I. apply in_flat_map in I.
  destruct I as (b & Ib & Iy). destruct (g b) as [y' |] eqn:Gb; [| destruct Iy].
  destruct Iy as [<- | []].
  apply (H a b x y'); [left; reflexivity | right; exact Ib | apply Fa; exact Ib | exact G | exact Gb].
Qed.

Lemma path_join_prefix (folder_path : pystr) :
  exists prefix, forall name, Orders.path_join folder_path name = prefix ++ name.
Proof.
  unfold Orders.path_join.
  destruct (Orders.endswith (u "/") folder_path || negb (nonempty folder_path)).
  - exists folder_path. reflexivity.
  - exists (folder_path ++ u "/"). intros name. rewrite <- app_assoc. reflexivity.
Qed.

Lemma batch_files_sorted (folder_path : pystr) (listing : list (pystr * pdf_file)) :
  (forall e, In e listing -> ~ In (chr "/") (fst e)) ->
  StronglySorted (key_le Orders.file_name) (Orders.process_all_pdfs folder_path listing).
Proof.
  intros Names. unfold Orders.process_all_pdfs. cbv zeta.
  set (files := map _ (filter _ listing)).
  apply (@strongly_sorted_flat_map _ _ (key_le (fun e : pystr * pdf_file => fst e))
           (key_le Orders.file_name)
           (fun e => Orders.extract_order_data (fst e) (snd e))).
  - assert (Nm : forall e d, In e (sort_by (fun e : pystr * pdf_file => fst e) files) ->
                   Orders.extract_order_data (fst e) (snd e) = Some d ->
                   exists name, fst e = Orders.path_join folder_path name
                                /\ Orders.file_name d = name).
    { intros e d I X. apply sort_by_in in I. unfold files in I.
      apply in_map_iff in I. destruct I as ([name pdf] & <- & If).
      apply filter_In in If. destruct If as [Il _]. cbn [fst snd] in *.
      exists name. split; [reflexivity |].
      destruct (@extract_order_data_inv _ _ _ X) as (pages & text & _ & _ & B & _).
      rewrite B. unfold Orders.build_order. cbn [Orders.file_name].
      apply basename_path_join. exact (Names _ Il). }
    intros a b x y Ia Ib Rab Xa Xb.
    destruct (Nm _ _ Ia Xa) as (na & Ea & Fa). destruct (Nm _ _ Ib Xb) as (nb & Eb & Fb).
    unfold key_le in *. rewrite Fa, Fb. rewrite Ea, Eb in Rab.
    destruct (path_join_prefix folder_path) as (prefix & P).
    rewrite !P, str_ltb_app_l in Rab. exact Rab.
  - apply sort_by_sorted.
Qed.

(** X18.  [process_all_pdfs] returns the records in the order of their
    file names (by code points), whatever the order of the directory
    listing: the paths are sorted before the files are read, and the
    folder they share plays no part in the comparison. *)
Theorem batch_in_file_name_order
        (folder_path : pystr) (listing : list (pystr * pdf_file))
        (i j : nat) (a b : Orders.order_data) :
  (forall e, In e listing -> ~ In (chr "/") (fst e)) ->
  i < j ->
  nth_error (Orders.process_all_pdfs folder_path listing) i = Some a ->
  nth_error (Orders.process_all_pdfs folder_path listing) j = Some b ->
  str_ltb (Orders.file_name b) (Orders.file_name a) = false.
Proof.
  intros Names Lt Ha Hb.
  pose proof (@batch_files_sorted folder_path listing Names) as O.
  exact (@strongly_sorted_nth _ _ _ O i j a b Lt Ha Hb).
Qed.

Lemma batch_in_file_name_order_witness :
  str_ltb (Orders.file_name Samples.dated_in_folder_again)
          (Orders.file_name Samples.dated_in_folder) = false.
Proof.
  refine (@batch_in_file_name_order Samples.folder_path Samples.same_day_listing 0 1
            Samples.dated_in_folder Samples.dated_in_folder_again _ _ _ _).
  - intros e He. vm_compute in He.
    destruct He as [<- | [<- | []]]; vm_compute; intuition discriminate.
  - lia.
  - vm_compute. reflexivity.
  - vm_compute. reflexivity.
Defined.

Lemma strongly_sorted_app_r (A : Type) (R : A -> A -> Prop) (l1 l2 : list A) :
  StronglySorted R (l1 ++ l2) -> StronglySorted R l2.
Proof.
  induction l1 as [| x l1 IH]; cbn [app]; intros H; [exact H |].
  inversion H; subst. apply IH. assumption.
Qed.

Lemma nth_error_two (A : Type) (l : list A) (i j : nat) (a b : A) :
  i < j -> nth_error l i = Some a -> nth_error l j = Some b ->
  exists l1 l2 l3, l = l1 ++ a :: l2 ++ b :: l3.
Proof.
  intros Lt Ha Hb.
  apply nth_error_split in Ha. destruct Ha as (l1 & r & -> & Li).
  rewrite nth_error_app2 in Hb by lia.
  replace (j - List.length l1) with (S (j - i - 1)) in Hb by lia. cbn [nth_error] in Hb.
  apply nth_error_split in Hb. destruct Hb as (l2 & l3 & -> & _).
  exists l1, l2, l3. reflexivity.
Qed.

(** X19.  Sorting the batch by date keeps the records of one date in
    the order of their file names: the sort is stable, and the batch it
    receives is in file-name order. *)
Theorem equal_dates_keep_file_order
        (folder_path : pystr) (listing : list (pystr * pdf_file))
        (i j : nat) (a b : Orders.order_data) :
  (forall e, In e listing -> ~ In (chr "/") (fst e)) ->
  i < j ->
  nth_error (Orders.sort_by_date (Orders.process_all_pdfs folder_path listing)) i = Some a ->
  nth_error (Orders.sort_by_date (Orders.process_all_pdfs folder_path listing)) j = Some b ->
  Orders.date a = Orders.date b ->
  str_ltb (Orders.file_name b) (Orders.file_name a) = false.
Proof.
  intros Names Lt Ha Hb E.
  destruct (nth_error_two _ Lt Ha Hb) as (l1 & l2 & l3 & S).
  pose proof (@batch_files_sorted folder_path listing Names) as O.
  apply (strongly_sorted_filter (same_key Orders.date_key (Orders.date_key a))) in O.
  rewrite <- (sort_by_stable Orders.date_key (Orders.date_key a)) in O.
  fold (Orders.sort_by_date (Orders.process_all_pdfs folder_path listing)) in O.
  rewrite S in O. rewrite filter_app in O. cbn [filter] in O.
  unfold same_key in O.
  rewrite (proj2 (str_eqb_eq _ _) eq_refl) in O.
  change (key_le Orders.file_name a b).
  apply strongly_sorted_app_r in O. inversion O as [| ? ? _ Fa]; subst.
  rewrite Forall_forall in Fa. apply Fa.
  apply filter_In. split; [apply in_or_app; right; left; reflexivity |].
  apply str_eqb_eq. unfold Orders.date_key. rewrite E. reflexivity.
Qed.

Lemma equal_dates_keep_file_order_witness :
  Orders.date Samples.dated_in_folder = Orders.date Samples.dated_in_folder_again
  /\ str_ltb (Orders.file_name Samples.dated_in_folder_again)
             (Orders.file_name Samples.dated_in_folder) = false.
Proof.
  split; [vm_compute; reflexivity |].
  refine (@equal_dates_keep_file_order Samples.folder_path Samples.same_day_listing 0 1
            Samples.dated_in_folder Samples.dated_in_folder_again _ _ _ _ _).
  - intros e He. vm_compute in He.
    destruct He as [<- | [<- | []]]; vm_compute; intuition discriminate.
  - lia.
  - vm_compute. reflexivity.
  - vm_compute. reflexivity.
  - vm_compute. reflexivity.
Defined.

(* ===================================================================== *)
(** ** [analyze_data]: the dictionaries and their keys *)
(* ===================================================================== *)

(** Two dictionaries with the same keys have the same keys after a
    write at one key. *)
Lemma dict_set_same_keys (V W : Type) (d : list (Orders.okey * V))
      (e : list (Orders.okey * W)) (k : Orders.okey) (v : V) (w : W) :
  map fst d = map fst e ->
  map fst (Orders.dict_set d k v) = map fst (Orders.dict_set e k w).
Proof. intros E. rewrite !dict_set_keys, E. reflexivity. Qed.

Lemma dict_get_positive (d : list (Orders.okey * Z)) (k : Orders.okey) :
  (forall k' n, In (k', n) d -> (1 <= n)%Z) -> (0 <= Orders.dict_get d k 0)%Z.
Proof.
  induction d as [| [k1 v1] t IH]; intros H; simpl; [lia |].
  destruct (Orders.okey_eqb k k1).
  - specialize (H k1 v1 (or_introl eq_refl)). lia.
  - apply IH. intros k' n I. apply (H k' n). right. exact I.
Qed.

Lemma dict_set_in (V : Type) (d : list (Orders.okey * V)) (k k' : Orders.okey) (v v' : V) :
  In (k', v') (Orders.dict_set d k v) -> In (k', v') d \/ v' = v.
Proof.
  induction d as [| [k1 v1] t IH]; simpl.
  - intros [E | []]. inversion E. auto.
  - destruct (Orders.okey_eqb k k1); simpl.
    + intros [E | I]; [inversion E; auto | auto].
    + intros [E | I]; [auto |]. destruct (IH I); auto.
Qed.

(** Every count written is at least one. *)
Lemma count_key_positive (d : list (Orders.okey * Z)) (k : Orders.okey) :
  (forall k' n, In (k', n) d -> (1 <= n)%Z) ->
  forall k' n, In (k', n) (Orders.count_key d k) -> (1 <= n)%Z.
Proof.
  intros H k' n I. unfold Orders.count_key in I.
  apply dict_set_in in I. destruct I as [I' | ->]; [exact (H _ _ I') |].
  pose proof (@dict_get_positive d k H). lia.
Qed.

Lemma restaurant_tables_spec (data : list Orders.order_data) :
  forall (ts : list float) (counts : list (Orders.okey * Z))
         (totals : list (Orders.okey * float)),
    Orders.totals_of data = Some ts ->
    map fst totals = map fst counts ->
    (forall k n, In (k, n) counts -> (1 <= n)%Z) ->
    exists rc rt,
      Orders.restaurant_tables data counts totals = Some (rc, rt)
      /\ rc = fold_left Orders.count_restaurant data counts
      /\ map fst rt = map fst rc
      /\ forall k n, In (k, n) rc -> (1 <= n)%Z.
Proof.
  induction data as [| row data IH]; intros ts counts totals T E P.
  - exists counts, totals. simpl. auto.
  - cbn [Orders.totals_of] in T. cbn [Orders.restaurant_tables fold_left]. cbv zeta.
    destruct (Orders.total row) as [t |]; [| discriminate].
    destruct (Orders.totals_of data) as [ts' |] eqn:T'; [| discriminate].
    destruct (IH ts' (Orders.count_key counts (Orders.restaurant_name row))
                 (Orders.add_total totals (Orders.restaurant_name row) t) eq_refl)
      as (rc & rt & R & C & K & Q).
    + unfold Orders.add_total, Orders.count_key. apply dict_set_same_keys. exact E.
    + apply count_key_positive. exact P.
    + exists rc, rt. auto.
Qed.

Lemma monthly_tables_spec (data : list Orders.order_data) :
  forall (ts : list float) (totals : list (Orders.okey * float))
         (counts : list (Orders.okey * Z)),
    Orders.totals_of data = Some ts ->
    map fst counts = map fst totals ->
    (forall k n, In (k, n) counts -> (1 <= n)%Z) ->
    exists mt mc,
      Orders.monthly_tables data totals counts = Some (mt, mc)
      /\ map fst mc = map fst mt
      /\ forall k n, In (k, n) mc -> (1 <= n)%Z.
Proof.
  induction data as [| row data IH]; intros ts totals counts T E P.
  - exists totals, counts. simpl. auto.
  - cbn [Orders.totals_of] in T. cbn [Orders.monthly_tables]. cbv zeta.
    destruct (Orders.total row) as [t |]; [| discriminate].
    destruct (Orders.totals_of data) as [ts' |] eqn:T'; [| discriminate].
    destruct (truthy (Orders.date row)).
    + apply (IH ts'); [reflexivity | |].
      * unfold Orders.add_total, Orders.count_key. apply dict_set_same_keys. exact E.
      * apply count_key_positive. exact P.
    + apply (IH ts'); [reflexivity | exact E | exact P].
Qed.

(** X20.  On a batch whose rows all have a total, the loops of
    [analyze_data] that fill the dictionaries run to their end, and the
    dictionaries they fill in step have the same keys in the same order:
    [restaurant_totals] has the keys of [restaurant_counts], and
    [monthly_counts] those of [monthly_totals].  So no lookup of one by
    a key of the other fails.  Every count is at least one, so the
    average of a month never takes its zero branch. *)
Theorem analysis_tables_share_keys (data : list Orders.order_data) (ts : list float) :
  Orders.totals_of data = Some ts ->
  exists rc rt mt mc,
    Orders.restaurant_tables data [] [] = Some (rc, rt)
    /\ Orders.monthly_tables data [] [] = Some (mt, mc)
    /\ rc = Orders.restaurant_counts data
    /\ map fst rt = map fst rc
    /\ map fst mc = map fst mt
    /\ (forall k n, In (k, n) rc -> (1 <= n)%Z)
    /\ (forall k n, In (k, n) mc -> (1 <= n)%Z).
Proof.
  intros T.
  destruct (@restaurant_tables_spec data ts [] [] T eq_refl) as (rc & rt & R & C & K & Q);
    [intros k n [] |].
  destruct (@monthly_tables_spec data ts [] [] T eq_refl) as (mt & mc & M & Km & Qm);
    [intros k n [] |].
  exists rc, rt, mt, mc. unfold Orders.restaurant_counts. auto 10.
Qed.

Lemma analysis_tables_share_keys_witness :
  exists rc rt mt mc,
    Orders.restaurant_tables [Samples.dated; Samples.dated_earlier] [] [] = Some (rc, rt)
    /\ Orders.monthly_tables [Samples.dated; Samples.dated_earlier] [] [] = Some (mt, mc)
    /\ rc = Orders.restaurant_counts [Samples.dated; Samples.dated_earlier]
    /\ map fst rt = map fst rc
    /\ map fst mc = map fst mt
    /\ (forall k n, In (k, n) rc -> (1 <= n)%Z)
    /\ (forall k n, In (k, n) mc -> (1 <= n)%Z).
Proof.
  refine (@analysis_tables_share_keys [Samples.dated; Samples.dated_earlier] _ _).
  vm_compute. reflexivity.
Defined.

(* ===================================================================== *)
(** ** The two scripts on one folder *)
(* ===================================================================== *)

Lemma startswith_prefix (p t : pystr) : startswith p (p ++ t) = true.
Proof. induction p as [| x p IH]; [reflexivity |]. simpl. rewrite N.eqb_refl. exact IH. Qed.

(** A name that ends in [.pdf] still does when put in lower case. *)
Lemma endswith_pdf_lower (name : pystr) :
  Orders.endswith (u ".pdf") name = true ->
  Orders.endswith (u ".pdf") (lower name) = true.
Proof.
  unfold Orders.endswith. intros H. apply startswith_app in H. destruct H as (t & E).
  assert (N : name = rev t ++ u ".pdf").
  { rewrite <- (rev_involutive name), E, rev_app_distr, rev_involutive. reflexivity. }
  rewrite N. unfold lower. rewrite map_app, rev_app_distr.
  change (rev (map lower_c (u ".pdf"))) with (rev (u ".pdf")).
  apply startswith_prefix.
Qed.

(** The rows of the sheet are those of the files that could be read, in
    the order of the files. *)
Lemma parse_steps_rows (folder_path : pystr) :
  forall (files : list (pystr * pdf_file)) (st : Sheets.sheet_run),
    Sheets.rows_to_add (fold_left (Sheets.parse_step folder_path) files st)
    = Sheets.rows_to_add st
      ++ flat_map (fun e =>
                     match Sheets.extract_invoice_data
                             (Orders.path_join folder_path (fst e)) (snd e) with
                     | Some d => [Sheets.sheet_row d]
                     | None => []
                     end) files.
Proof.
  induction files as [| e files IH]; intros st; cbn [fold_left flat_map].
  - rewrite app_nil_r. reflexivity.
  - rewrite IH. unfold Sheets.parse_step.
    destruct (Sheets.extract_invoice_data (Orders.path_join folder_path (fst e)) (snd e));
      cbn [Sheets.rows_to_add]; [rewrite <- app_assoc |]; reflexivity.
Qed.

(** X21.  On one folder, every order the strict script keeps also has
    a row in the sheet the other script fills, under the same file
    name: a file name ending in [.pdf] passes the test made in lower
    case, and a document the strict parser could read is read by the
    sheet-oriented parser as well. *)
Theorem strict_orders_have_sheet_rows
        (folder_path : pystr) (listing : list (pystr * pdf_file))
        (data : Orders.order_data) :
  In data (Orders.process_all_pdfs folder_path listing) ->
  exists r row,
    Sheets.parse_invoices_to_sheet folder_path listing = Some r
    /\ In row (Sheets.rows_to_add r)
    /\ nth 4 row [] = Orders.file_name data.
Proof.
  intros I.
  unfold Orders.process_all_pdfs in I. cbv zeta in I.
  apply in_flat_map in I. destruct I as ([path pdf] & Ip & Id).
  apply sort_by_in in Ip. apply in_map_iff in Ip.
  destruct Ip as ([name pdf'] & E & If). cbn [fst snd] in E.
  inversion E; subst path pdf'. clear E.
  apply filter_In in If. destruct If as [Il F]. cbn [fst] in F.
  apply andb_prop in F. destruct F as [Fp _]. cbn [fst snd] in Id.
  destruct (Orders.extract_order_data (Orders.path_join folder_path name) pdf)
    as [d |] eqn:X; [| destruct Id].
  destruct Id as [<- | []].
  destruct (@extract_order_data_inv _ _ _ X) as (pages & text & -> & _ & B & _).
  assert (Is : In (name, Pages pages) (Sheets.pdf_files listing)).
  { unfold Sheets.pdf_files. apply filter_In. split; [exact Il |].
    cbn [fst]. apply endswith_pdf_lower. exact Fp. }
  unfold Sheets.parse_invoices_to_sheet.
  destruct (Sheets.pdf_files listing) as [| e0 files0] eqn:Ef; [destruct Is |].
  rewrite <- Ef in *. eexists. eexists. split; [reflexivity |].
  rewrite parse_steps_rows. cbn [Sheets.rows_to_add app]. split.
  - apply in_flat_map. exists (name, Pages pages). split; [exact Is |].
    cbn [fst snd Sheets.extract_invoice_data]. left. reflexivity.
  - unfold Sheets.sheet_row. cbv zeta. cbn [nth].
    unfold Sheets.parse_invoice_text. cbn [Sheets.filename].
    rewrite B. unfold Orders.build_order. cbn [Orders.file_name]. reflexivity.
Qed.

Lemma strict_orders_have_sheet_rows_witness :
  exists r row,
    Sheets.parse_invoices_to_sheet Samples.folder_path Samples.listing = Some r
    /\ In row (Sheets.rows_to_add r)
    /\ nth 4 row [] = Orders.file_name Samples.dated_in_folder.
Proof.
  apply (@strict_orders_have_sheet_rows Samples.folder_path Samples.listing
           Samples.dated_in_folder).
  vm_compute. auto.
Defined.

(* ===================================================================== *)
(** * The summary of the batch: total spend and average *)
(* ===================================================================== *)

(** A number of [n] binary digits is below [2^n]. *)
Lemma digits2_bound (p : positive) : (Z.pos p < 2 ^ Z.pos (digits2_pos p))%Z.
Proof.
  induction p as [p IH | p IH |]; cbn [digits2_pos]; [| | reflexivity];
    rewrite Pos2Z.inj_succ, Z.pow_succ_r by lia; lia.
Qed.

(** The mantissa of a binary64 number has at most 53 binary digits. *)
Lemma valid_mantissa_bound (s : bool) (m : positive) (e : Z) :
  valid_binary prec emax (S754_finite s m e) = true -> (Z.pos m < 2 ^ 53)%Z.
Proof.
  cbn [valid_binary]. unfold bounded, canonical_mantissa, fexp. intros H.
  apply andb_prop in H. destruct H as [C _]. apply Z.eqb_eq in C.
  assert (D : (Z.pos (digits2_pos m) <= 53)%Z) by (unfold prec in C; lia).
  eapply Z.lt_le_trans; [apply digits2_bound |].
  apply Z.pow_le_mono_r; lia.
Qed.

(** A number [m * 2^e] with [m] odd and above [2^53] is no binary64
    number. *)
Lemma odd_wide_is_no_float (M e0 : Z) (x : float) :
  (2 ^ 53 < M)%Z -> Z.odd M = true ->
  valid_binary prec emax x = true -> float_is x (M, e0) = false.
Proof.
  intros Big Odd V. unfold float_is.
  destruct x as [s | s | | s m e]; cbn [float_exact]; try reflexivity.
  - unfold dyadic_eqb. cbn [fst snd]. rewrite Z.mul_0_l. apply Z.eqb_neq.
    intros X. symmetry in X. apply Z.mul_eq_0 in X. destruct X as [X | X]; [lia |].
    pose proof (Z.pow_pos_nonneg 2 (e0 - Z.min 0 e0) ltac:(lia) ltac:(lia)). lia.
  - pose proof (valid_mantissa_bound _ _ _ V) as B.
    unfold dyadic_eqb. cbn [fst snd]. apply Z.eqb_neq. intros X.
    assert (P1 : (0 < 2 ^ (e - Z.min e e0))%Z) by (apply Z.pow_pos_nonneg; lia).
    assert (P2 : (0 < 2 ^ (e0 - Z.min e e0))%Z) by (apply Z.pow_pos_nonneg; lia).
    destruct s.
    + assert (Z.neg m * 2 ^ (e - Z.min e e0) < 0)%Z by (apply Z.mul_neg_pos; lia).
      assert (0 < M * 2 ^ (e0 - Z.min e e0))%Z by (apply Z.mul_pos_pos; lia).
      lia.
    + destruct (Z.le_gt_cases e e0) as [L | G].
      * rewrite Z.min_l in X by lia. rewrite Z.sub_diag, Z.pow_0_r, Z.mul_1_r in X.
        assert (M <= M * 2 ^ (e0 - e))%Z.
        { rewrite <- (Z.mul_1_r M) at 1. apply Z.mul_le_mono_nonneg_l; lia. }
        lia.
      * rewrite Z.min_r in X by lia. rewrite Z.sub_diag, Z.pow_0_r, Z.mul_1_r in X.
        replace (e - e0)%Z with (Z.succ (e - e0 - 1)) in X by lia.
        rewrite Z.pow_succ_r in X by lia.
        rewrite <- X, Z.mul_assoc, (Z.mul_comm (Z.pos m) 2), <- Z.mul_assoc in Odd.
        rewrite Z.odd_mul in Odd. discriminate.
Qed.

Lemma add_to_zero (t : float) :
  float_gtb t twenty = true -> float_add (S754_zero false) t = t.
Proof.
  unfold float_gtb. rewrite twenty_eq.
  destruct t as [s | s | | s m e]; try reflexivity; destruct s; discriminate.
Qed.

Lemma batch_totals (folder_path : pystr) (listing : list (pystr * pdf_file)) :
  forall row,
    In row (Orders.sort_by_date (Orders.process_all_pdfs folder_path listing)) ->
    exists v, Orders.total row = Some v /\ float_gtb v twenty = true.
Proof.
  intros row I. unfold Orders.sort_by_date in I. apply sort_by_in in I.
  apply batch_record_extracted in I. destruct I as (path & pdf & X).
  destruct (@extract_order_data_inv _ _ _ X) as (pages & text & _ & _ & B & C).
  apply complete_fields in C. destruct C as (_ & _ & T).
  destruct (Orders.total row) as [v |] eqn:E; [| discriminate].
  exists v. split; [reflexivity |].
  rewrite B in E. unfold Orders.build_order in E. cbn [Orders.total] in E.
  exact (OrdersFacts.find_total_gt _ _ E).
Qed.

Lemma totals_of_length (data : list Orders.order_data) :
  forall ts, Orders.totals_of data = Some ts -> List.length ts = List.length data.
Proof.
  induction data as [| r l IH]; intros ts E; cbn [Orders.totals_of] in E.
  - inversion E. reflexivity.
  - destruct (Orders.total r); [| discriminate].
    destruct (Orders.totals_of l) as [ts' |]; [| discriminate].
    inversion E. cbn [List.length]. rewrite (IH ts' eq_refl). reflexivity.
Qed.

(** C8 (as amended).  For an empty list [analyze_data] returns at its
    first test and computes nothing.  For a list that is not empty and
    whose rows all have a total, the total spend is the sum of the
    totals in floating point, added from left to right starting from
    zero with every addition rounded; the number of orders is at least
    one, so the average is the total spend divided by it, in floating
    point, and the value 0 written for a zero count is never taken; no
    division by zero is made.  The batch the main block analyses is of
    that kind, and for a single order the total spend is its total. *)
Theorem summary_of_batch (data : list Orders.order_data) :
  (data = [] -> Orders.analyze_summary data = Orders.NoData)
  /\ (forall totals,
         data <> [] -> Orders.totals_of data = Some totals ->
         let total_spending := fold_left float_add totals (S754_zero false) in
         let num_orders := Z.of_nat (List.length data) in
         (0 < num_orders)%Z
         /\ Orders.float_div_int total_spending num_orders
            = Some (float_div total_spending (float_of_Z num_orders))
         /\ Orders.analyze_summary data
            = Orders.Summary total_spending num_orders
                             (float_div total_spending (float_of_Z num_orders)))
  /\ (forall folder_path listing,
         data = Orders.sort_by_date (Orders.process_all_pdfs folder_path listing) ->
         data <> [] ->
         exists totals, Orders.totals_of data = Some totals
                        /\ List.length totals = List.length data)
  /\ (forall row t,
         data = [row] -> Orders.total row = Some t -> float_gtb t twenty = true ->
         Orders.analyze_summary data = Orders.Summary t 1 (float_div t (float_of_Z 1))).
Proof.
  split; [intros ->; reflexivity |].
  assert (Main : forall totals,
             data <> [] -> Orders.totals_of data = Some totals ->
             (0 < Z.of_nat (List.length data))%Z
             /\ Orders.float_div_int (fold_left float_add totals (S754_zero false))
                                     (Z.of_nat (List.length data))
                = Some (float_div (fold_left float_add totals (S754_zero false))
                                  (float_of_Z (Z.of_nat (List.length data))))
             /\ Orders.analyze_summary data
                = Orders.Summary (fold_left float_add totals (S754_zero false))
                                 (Z.of_nat (List.length data))
                                 (float_div (fold_left float_add totals (S754_zero false))
                                            (float_of_Z (Z.of_nat (List.length data))))).
  { intros totals Ne T.
    assert (P : (0 < Z.of_nat (List.length data))%Z).
    { destruct data; [congruence | cbn [List.length]; lia]. }
    assert (D : Orders.float_div_int (fold_left float_add totals (S754_zero false))
                                     (Z.of_nat (List.length data))
                = Some (float_div (fold_left float_add totals (S754_zero false))
                                  (float_of_Z (Z.of_nat (List.length data))))).
    { unfold Orders.float_div_int.
      destruct (Z.eqb_spec (Z.of_nat (List.length data)) 0); [lia | reflexivity]. }
    split; [exact P |]. split; [exact D |].
    unfold Orders.analyze_summary. destruct data as [| row rest]; [congruence |].
    rewrite T. cbv zeta. unfold Orders.py_sum.
    destruct (Z.ltb_spec 0 (Z.of_nat (List.length (row :: rest)))); [| lia].
    rewrite D. reflexivity. }
  split; [exact Main |]. split.
  - intros folder_path listing -> Ne.
    destruct (totals_of_spec _ (batch_totals folder_path listing)) as (ts & E & _).
    exists ts. split; [exact E | exact (totals_of_length _ E)].
  - intros row t -> T G.
    destruct (Main [t]) as (_ & _ & S);
      [discriminate | cbn [Orders.totals_of]; rewrite T; reflexivity |].
    rewrite S. cbn [fold_left List.length]. rewrite (add_to_zero _ G). reflexivity.
Qed.

(** On the sample folder of two orders. *)
Lemma summary_of_batch_witness :
  Orders.analyze_summary
    (Orders.sort_by_date (Orders.process_all_pdfs Samples.folder_path Samples.spend_listing))
  = Orders.Summary Samples.spend_total 2 (float_div Samples.spend_total (float_of_Z 2))
  /\ py_float (u "399.29999999999995") = Some Samples.spend_total
  /\ py_float (u "199.64999999999998")
     = Some (float_div Samples.spend_total (float_of_Z 2)).
Proof.
  split; [| split; vm_compute; reflexivity].
  destruct (proj1 (proj2 (summary_of_batch
              (Orders.sort_by_date
                 (Orders.process_all_pdfs Samples.folder_path Samples.spend_listing))))
              [S754_finite false 5245989878444851 (-45);
               S754_finite false 8803129896625766 (-45)])
    as (_ & _ & S).
  - vm_compute. discriminate.
  - vm_compute. reflexivity.
  - rewrite S. vm_compute. reflexivity.
Defined.

(** C8, the claim as stated, fails: the total spend of two orders of
    149.10 and 250.20 rupees is not the exact sum of the two totals.
    The sum computed is 399.29999999999995.  The exact sum of the two
    floats is 14049119775070617 times [2^-45], an odd number of more
    than 53 binary digits times a power of two: no float has this
    value, so that no way of summing could return it. *)
Lemma float_sum_is_not_exact :
  let data := Orders.sort_by_date
                (Orders.process_all_pdfs Samples.folder_path Samples.spend_listing) in
  exists t1 t2 total avg,
    Orders.totals_of data = Some [t1; t2]
    /\ py_float (u "149.10") = Some t1 /\ py_float (u "250.20") = Some t2
    /\ Orders.analyze_summary data = Orders.Summary total 2 avg
    /\ exact_sum [t1; t2] = Some (14049119775070617, -45)%Z
    /\ float_is total (14049119775070617, -45)%Z = false
    /\ float_is total (14049119775070616, -45)%Z = true
    /\ forall x : float,
         valid_binary prec emax x = true ->
         float_is x (14049119775070617, -45)%Z = false.
Proof.
  cbv zeta. eexists. eexists. eexists. eexists.
  split; [vm_compute; reflexivity |].
  split; [vm_compute; reflexivity |].
  split; [vm_compute; reflexivity |].
  split; [vm_compute; reflexivity |].
  split; [vm_compute; reflexivity |].
  split; [vm_compute; reflexivity |].
  split; [vm_compute; reflexivity |].
  intros x V. apply odd_wide_is_no_float; [vm_compute; reflexivity | reflexivity | exact V].
Qed.
